(** * CoreMint: the user repository (src/lib/db/user.ts) and the API routes
      that call it, embedded as programs over an explicit store.

    Every exported function of [user.ts] is an [async] function that
    awaits Prisma calls.  An awaited call is the only place where another
    request can run in between, and it is the only place where the store
    is read or written.  The embedding therefore represents a function body
    as a tree of awaited store operations ([Prog]); one interpreter runs a
    tree alone ([run]), another runs a pool of trees under an arbitrary
    schedule ([sched]). *)

From stdpp Require Import gmap strings list fin_maps pretty sorting infinite.
From Stdlib Require Import ZArith Lia Ascii.

#[local] Set Warnings "-register-all".
#[local] Open Scope string_scope.
#[local] Open Scope list_scope.
#[local] Open Scope Z_scope.

(** ** JSON values

    [connectionHistory] and [metadata] have the Prisma type [Json]; request
    bodies are JSON as well.  Objects are finite maps from keys to values,
    so that the spread [{...connectionData, timestamp: t}] is an insertion
    that overrides an existing [timestamp] key. *)

Inductive Json : Type :=
| JNull
| JBool (b : bool)
| JNum (z : Z)
| JStr (s : string)
| JArr (l : list Json)
| JObj (m : gmap string Json).

(** [Array.isArray(v) ? v : []] *)
Definition array_or_empty (v : Json) : list Json :=
  match v with
  | JArr l => l
  | _ => []
  end.

Definition isArray (v : Json) : bool :=
  match v with
  | JArr _ => true
  | _ => false
  end.

(** [l.slice(-n)]: a negative start counts from the end and is clamped at
    the beginning of the array. *)
Definition slice_last {A : Type} (n : nat) (l : list A) : list A :=
  drop (length l - n) l.

(** ** Dates

    A [Date] is its number of milliseconds since the epoch. *)

Abbreviation Date := Z (only parsing).

Definition pad_start (width : nat) (s : string) : string :=
  String.concat "" (replicate (width - String.length s) "0") +:+ s.

Definition digits (width : nat) (n : Z) : string :=
  pad_start width (pretty (Z.to_N n)).

(** Civil date of a day number counted from 1970-01-01 (proleptic
    Gregorian calendar, as [Date] uses). *)
Definition civil_from_days (days : Z) : Z * Z * Z :=
  let z := days + 719468 in
  let era := z / 146097 in
  let doe := z - era * 146097 in
  let yoe := (doe - doe / 1460 + doe / 36524 - doe / 146096) / 365 in
  let doy := doe - (365 * yoe + yoe / 4 - yoe / 100) in
  let mp := (5 * doy + 2) / 153 in
  let d := doy - (153 * mp + 2) / 5 + 1 in
  let m := if mp <? 10 then mp + 3 else mp - 9 in
  let y := yoe + era * 400 + (if m <=? 2 then 1 else 0) in
  (y, m, d).

(** [Date.prototype.toISOString]: [YYYY-MM-DDTHH:mm:ss.sssZ], with the
    signed six-digit year outside 0..9999. *)
Definition toISOString (t : Date) : string :=
  let '(y, m, d) := civil_from_days (t / 86400000) in
  let ms := t mod 86400000 in
  let year :=
    if (0 <=? y) && (y <=? 9999) then digits 4 y
    else (if y <? 0 then "-" else "+") +:+ digits 6 (Z.abs y) in
  year +:+ "-" +:+ digits 2 m +:+ "-" +:+ digits 2 d +:+ "T"
    +:+ digits 2 (ms / 3600000) +:+ ":"
    +:+ digits 2 (ms / 60000 mod 60) +:+ ":"
    +:+ digits 2 (ms / 1000 mod 60) +:+ "."
    +:+ digits 3 (ms mod 1000) +:+ "Z".

(** ** Stored records

    The fields of a user are those of the [User] model of the Prisma schema
    printed in the API documentation; NFTs, collections and transactions
    follow the schema of the README and the interfaces of
    [src/lib/types/nft.ts]. *)

Module User.
Record t : Type := mk {
  id : string;
  walletAddress : string;
  createdAt : Date;
  updatedAt : Date;
  lastLoginAt : option Date;
  loginCount : Z;
  connectionHistory : Json
}.
End User.

Module NFT.
Record t : Type := mk {
  id : string;
  name : string;
  description : option string;
  image : string;
  metadata : gmap string Json;
  tokenId : option string;
  contractAddress : option string;
  isMinted : bool;
  mintedAt : option Date;
  createdAt : Date;
  updatedAt : Date;
  ownerId : string;
  collectionId : option string
}.
End NFT.

Module Collection.
Record t : Type := mk {
  id : string;
  name : string;
  description : option string;
  image : option string;
  banner : option string;
  isPublic : bool;
  createdAt : Date;
  updatedAt : Date;
  ownerId : string
}.
End Collection.

Module Transaction.
Record t : Type := mk {
  id : string;
  txHash : string;
  type : string;
  status : string;
  blockHeight : option Z;
  createdAt : Date;
  updatedAt : Date;
  userId : string;
  nftId : option string
}.
End Transaction.

(** The store: one ordered collection of documents per model. *)
Record DB : Type := mkDB {
  users : list User.t;
  nfts : list NFT.t;
  collections : list Collection.t;
  transactions : list Transaction.t
}.

Definition empty_db : DB := mkDB [] [] [] [].

(** Records returned with their included relations. *)
Record UserWithRelations : Type := mkUserWithRelations {
  uwr_user : User.t;
  uwr_nfts : list NFT.t;
  uwr_collections : list Collection.t
}.

Record NFTWithOwner : Type := mkNFTWithOwner {
  nwo_nft : NFT.t;
  nwo_owner : option User.t;
  nwo_collection : option Collection.t
}.

Record NFTWithTransactions : Type := mkNFTWithTransactions {
  nwt_nft : NFT.t;
  nwt_collection : option Collection.t;
  nwt_transactions : list Transaction.t
}.

Record NFTFull : Type := mkNFTFull {
  nf_nft : NFT.t;
  nf_owner : option User.t;
  nf_collection : option Collection.t;
  nf_transactions : list Transaction.t
}.

Record CollectionWithNfts : Type := mkCollectionWithNfts {
  cwn_collection : Collection.t;
  cwn_nfts : list NFT.t
}.

Record CollectionFull : Type := mkCollectionFull {
  cf_collection : Collection.t;
  cf_owner : option User.t;
  cf_nfts : list NFT.t
}.

Record TransactionFull : Type := mkTransactionFull {
  tf_transaction : Transaction.t;
  tf_user : option User.t;
  tf_nft : option NFT.t
}.

(** ** Errors *)

Record ZodIssue : Type := mkIssue {
  issue_path : list string;
  (** the message given in the schema, [None] for the library's default *)
  issue_message : option string
}.

Inductive Error : Type :=
| JsError (message : string)          (* throw new Error(message) *)
| UniqueConstraintViolation           (* Prisma P2002 *)
| RecordNotFound                      (* Prisma P2025 *)
| MalformedObjectId                   (* Prisma P2023: the key is not an ObjectId *)
| StorageFailure                      (* the store could not be reached *)
| ZodError (issues : list ZodIssue)
| SyntaxError.                        (* request.json() on a body that is not JSON *)

Definition isZodError (e : Error) : option (list ZodIssue) :=
  match e with
  | ZodError issues => Some issues
  | _ => None
  end.

(** ** The Prisma calls made by [user.ts]

    One constructor per call site, indexed by the type of the value the
    awaited call resolves to. *)

Record NFTCreateData : Type := mkNFTCreateData {
  ncd_name : string;
  ncd_description : option string;
  ncd_image : string;
  ncd_metadata : gmap string Json;
  ncd_ownerId : string;
  ncd_collectionId : option string
}.

Record CollectionCreateData : Type := mkCollectionCreateData {
  ccd_name : string;
  ccd_description : option string;
  ccd_image : option string;
  ccd_banner : option string;
  ccd_isPublic : option bool;
  ccd_ownerId : string
}.

Record TransactionCreateData : Type := mkTransactionCreateData {
  tcd_txHash : string;
  tcd_type : string;
  tcd_status : string;
  tcd_userId : string;
  tcd_nftId : option string;
  tcd_blockHeight : option Z
}.

Inductive DbOp : Type -> Type :=
(* prisma.user.findUnique({ where: { walletAddress }, include: { nfts, collections } }) *)
| user_findUnique_walletAddress (walletAddress : string) : DbOp (option UserWithRelations)
(* prisma.user.findUnique({ where: { id } }) *)
| user_findUnique_id (id : string) : DbOp (option User.t)
(* prisma.user.create({ data: { walletAddress, connectionHistory } }) *)
| user_create (walletAddress : string) (connectionHistory : Json) : DbOp User.t
(* prisma.user.update({ where: { id }, data: { lastLoginAt, loginCount: { increment } } }) *)
| user_update_login (id : string) (lastLoginAt : Date) (increment : Z) : DbOp User.t
(* prisma.user.update({ where: { id }, data: { connectionHistory } }) *)
| user_update_connectionHistory (id : string) (connectionHistory : Json) : DbOp User.t
| nFT_create (data : NFTCreateData) : DbOp NFTWithOwner
| nFT_findMany_ownerId (ownerId : string) : DbOp (list NFTWithTransactions)
| nFT_findUnique_id (id : string) : DbOp (option NFTFull)
| nFT_update_minted (id tokenId contractAddress : string) (mintedAt : Date) : DbOp NFT.t
| collection_create (data : CollectionCreateData) : DbOp CollectionFull
| collection_findMany_ownerId (ownerId : string) : DbOp (list CollectionWithNfts)
| collection_findMany_public : DbOp (list CollectionFull)
| transaction_create (data : TransactionCreateData) : DbOp TransactionFull
| transaction_update (txHash status : string) (blockHeight : option Z) (updatedAt : Date)
    : DbOp Transaction.t.

(** Whether a call can change the store. *)
Definition is_write {R : Type} (op : DbOp R) : bool :=
  match op with
  | user_findUnique_walletAddress _ | user_findUnique_id _
  | nFT_findMany_ownerId _ | nFT_findUnique_id _
  | collection_findMany_ownerId _ | collection_findMany_public => false
  | _ => true
  end.

(** *** Identifiers

    The [id] of every model is declared [@id @default(auto()) @db.ObjectId]
    (README schema): the store assigns it, and it is an ObjectId, written as
    24 hexadecimal digits.  A [where: { id }] with a string that is not of
    this form is rejected by the store instead of selecting nothing.
    [ownerId], [collectionId], [walletAddress] and [txHash] are plain
    strings. *)

Definition is_hex (c : Ascii.ascii) : bool :=
  let n := Ascii.nat_of_ascii c in
  ((48 <=? n) && (n <=? 57) || (97 <=? n) && (n <=? 102) || (65 <=? n) && (n <=? 70))%nat.

Definition is_ObjectId (s : string) : bool :=
  (String.length s =? 24)%nat && forallb is_hex (String.list_ascii_of_string s).

(** The identifiers the store hands out.  Nothing depends on their value
    beyond their form and the fact that a new one is not in use: the
    [n]-th one is [n + 1] in binary digits, the least significant first,
    filled up with zeros to the 24 digits of an ObjectId. *)
Fixpoint binary (p : positive) : string :=
  match p with
  | xH => "1"
  | xO p => String "0"%char (binary p)
  | xI p => String "1"%char (binary p)
  end.

Fixpoint zeros (n : nat) : string :=
  match n with
  | O => ""
  | S n => String "0"%char (zeros n)
  end.

Definition objectId (n : nat) : string :=
  let s := binary (Pos.of_succ_nat n) in
  s +:+ zeros (24 - String.length s).

Fixpoint first_unused (used : list string) (n fuel : nat) : string :=
  match fuel with
  | O => objectId n
  | S fuel =>
      if bool_decide (objectId n ∈ used) then first_unused used (S n) fuel
      else objectId n
  end.

(** [@default(auto())] *)
Definition new_ObjectId (used : list string) : string :=
  first_unused used 0 (length used).

(** What a [findUnique] by [id] resolves to.  The documents of the store
    carry the identifiers it assigned, so a key under which one is stored
    is well formed; a key under which none is stored selects nothing when
    it is an ObjectId and is rejected when it is not. *)
Definition findUnique_by_id {A : Type} (i : string) (found : option A)
  : Error + option A :=
  match found with
  | Some a => inr (Some a)
  | None => if is_ObjectId i then inr None else inl MalformedObjectId
  end.

(** The error of an [update] by [id] that selects no document. *)
Definition no_document (i : string) : Error :=
  if is_ObjectId i then RecordNotFound else MalformedObjectId.

(** *** Lookups and joins *)

Definition find_user (i : string) (db : DB) : option (nat * User.t) :=
  list_find (λ u, User.id u = i) (users db).

Definition find_user_by_walletAddress (w : string) (db : DB) : option (nat * User.t) :=
  list_find (λ u, User.walletAddress u = w) (users db).

Definition find_nft (i : string) (db : DB) : option (nat * NFT.t) :=
  list_find (λ n, NFT.id n = i) (nfts db).

Definition find_collection (i : string) (db : DB) : option (nat * Collection.t) :=
  list_find (λ c, Collection.id c = i) (collections db).

Definition find_transaction_by_txHash (h : string) (db : DB) : option (nat * Transaction.t) :=
  list_find (λ t, Transaction.txHash t = h) (transactions db).

(** The stored user with a given id, as later reads see it. *)
Definition user_of (i : string) (db : DB) : option User.t := snd <$> find_user i db.

Definition nft_of (i : string) (db : DB) : option NFT.t := snd <$> find_nft i db.

Definition collection_of (i : string) (db : DB) : option Collection.t :=
  snd <$> find_collection i db.

Definition nfts_of_owner (i : string) (db : DB) : list NFT.t :=
  filter (λ n, NFT.ownerId n = i) (nfts db).

Definition nfts_of_collection (i : string) (db : DB) : list NFT.t :=
  filter (λ n, NFT.collectionId n = Some i) (nfts db).

Definition collections_of_owner (i : string) (db : DB) : list Collection.t :=
  filter (λ c, Collection.ownerId c = i) (collections db).

Definition transactions_of_nft (i : string) (db : DB) : list Transaction.t :=
  filter (λ t, Transaction.nftId t = Some i) (transactions db).

Definition collection_of_nft (n : NFT.t) (db : DB) : option Collection.t :=
  c ← NFT.collectionId n; collection_of c db.

(** [orderBy: { createdAt: "desc" }] *)
Definition not_older {A : Type} (createdAt : A -> Date) : relation A :=
  λ a b, createdAt b ≤ createdAt a.

#[global] Instance not_older_dec {A : Type} (createdAt : A -> Date) (a b : A)
  : Decision (not_older createdAt a b) := decide (createdAt b ≤ createdAt a).

Definition newest_first {A : Type} (createdAt : A -> Date) (l : list A) : list A :=
  merge_sort (not_older createdAt) l.

(** *** Store updates *)

Definition set_users (f : list User.t -> list User.t) (db : DB) : DB :=
  mkDB (f (users db)) (nfts db) (collections db) (transactions db).

Definition set_nfts (f : list NFT.t -> list NFT.t) (db : DB) : DB :=
  mkDB (users db) (f (nfts db)) (collections db) (transactions db).

Definition set_collections (f : list Collection.t -> list Collection.t) (db : DB) : DB :=
  mkDB (users db) (nfts db) (f (collections db)) (transactions db).

Definition set_transactions (f : list Transaction.t -> list Transaction.t) (db : DB) : DB :=
  mkDB (users db) (nfts db) (collections db) (f (transactions db)).

(** [data: { lastLoginAt, loginCount: { increment } }]; [updatedAt] carries
    the schema attribute [@updatedAt]. *)
Definition login_update (lastLoginAt : Date) (increment : Z) (now : Date) (u : User.t)
  : User.t :=
  User.mk (User.id u) (User.walletAddress u) (User.createdAt u) now
    (Some lastLoginAt) (User.loginCount u + increment) (User.connectionHistory u).

(** [data: { connectionHistory }] *)
Definition history_update (h : Json) (now : Date) (u : User.t) : User.t :=
  User.mk (User.id u) (User.walletAddress u) (User.createdAt u) now
    (User.lastLoginAt u) (User.loginCount u) h.

(** [data: { isMinted: true, tokenId, contractAddress, mintedAt }] *)
Definition minted_update (tokenId contractAddress : string) (mintedAt now : Date)
    (n : NFT.t) : NFT.t :=
  NFT.mk (NFT.id n) (NFT.name n) (NFT.description n) (NFT.image n) (NFT.metadata n)
    (Some tokenId) (Some contractAddress) true (Some mintedAt)
    (NFT.createdAt n) now (NFT.ownerId n) (NFT.collectionId n).

(** [data: { status, blockHeight, updatedAt }]; an [undefined] block height
    leaves the stored one as it is. *)
Definition status_update (status : string) (blockHeight : option Z) (updatedAt : Date)
    (t : Transaction.t) : Transaction.t :=
  Transaction.mk (Transaction.id t) (Transaction.txHash t) (Transaction.type t) status
    (match blockHeight with Some b => Some b | None => Transaction.blockHeight t end)
    (Transaction.createdAt t) updatedAt (Transaction.userId t) (Transaction.nftId t).

(** The update of the one document selected by a unique [where]. *)
Definition update_user (i : string) (f : User.t -> User.t) (db : DB) : Error + User.t * DB :=
  match find_user i db with
  | Some (k, u) => inr (f u, set_users (λ us, <[k := f u]> us) db)
  | None => inl (no_document i)
  end.

(** *** One call against the store

    [exec_op op now db] is the result the call resolves to (or the error it
    rejects with) and the store after it.  A single call is one document
    operation of the store and takes effect at once or not at all.

    [walletAddress] is a unique field (the [findUnique] on it requires
    that, and the README schema declares it), and so is [txHash] (the
    [update] on it requires that): a [create] that would duplicate one is
    rejected. *)
Definition exec_op {R : Type} (op : DbOp R) (now : Date) (db : DB) : (Error + R) * DB :=
  match op in DbOp R return (Error + R) * DB with
  | user_findUnique_walletAddress w =>
      (inr ((λ '(_, u), mkUserWithRelations u (nfts_of_owner (User.id u) db)
                          (collections_of_owner (User.id u) db))
              <$> find_user_by_walletAddress w db), db)
  | user_findUnique_id i => (findUnique_by_id i (user_of i db), db)
  | user_create w h =>
      match find_user_by_walletAddress w db with
      | Some _ => (inl UniqueConstraintViolation, db)
      | None =>
          let u := User.mk (new_ObjectId (User.id <$> users db)) w now now None 0 h in
          (inr u, set_users (λ us, us ++ [u]) db)
      end
  | user_update_login i t n =>
      match update_user i (login_update t n now) db with
      | inr (u, db') => (inr u, db')
      | inl e => (inl e, db)
      end
  | user_update_connectionHistory i h =>
      match update_user i (history_update h now) db with
      | inr (u, db') => (inr u, db')
      | inl e => (inl e, db)
      end
  | nFT_create d =>
      let n := NFT.mk (new_ObjectId (NFT.id <$> nfts db)) (ncd_name d) (ncd_description d)
                 (ncd_image d) (ncd_metadata d) None None false None now now
                 (ncd_ownerId d) (ncd_collectionId d) in
      (inr (mkNFTWithOwner n (user_of (ncd_ownerId d) db) (collection_of_nft n db)),
       set_nfts (λ ns, ns ++ [n]) db)
  | nFT_findMany_ownerId o =>
      (inr ((λ n, mkNFTWithTransactions n (collection_of_nft n db)
                    (transactions_of_nft (NFT.id n) db))
              <$> newest_first NFT.createdAt (nfts_of_owner o db)), db)
  | nFT_findUnique_id i =>
      (findUnique_by_id i
         ((λ n, mkNFTFull n (user_of (NFT.ownerId n) db) (collection_of_nft n db)
                  (transactions_of_nft (NFT.id n) db))
            <$> nft_of i db), db)
  | nFT_update_minted i tok addr t =>
      match find_nft i db with
      | Some (k, n) =>
          let n' := minted_update tok addr t now n in
          (inr n', set_nfts (λ ns, <[k := n']> ns) db)
      | None => (inl (no_document i), db)
      end
  | collection_create d =>
      let c := Collection.mk (new_ObjectId (Collection.id <$> collections db)) (ccd_name d)
                 (ccd_description d) (ccd_image d) (ccd_banner d)
                 (default true (ccd_isPublic d)) now now (ccd_ownerId d) in
      (inr (mkCollectionFull c (user_of (ccd_ownerId d) db) []),
       set_collections (λ cs, cs ++ [c]) db)
  | collection_findMany_ownerId o =>
      (inr ((λ c, mkCollectionWithNfts c (nfts_of_collection (Collection.id c) db))
              <$> newest_first Collection.createdAt (collections_of_owner o db)), db)
  | collection_findMany_public =>
      (inr ((λ c, mkCollectionFull c (user_of (Collection.ownerId c) db)
                    (nfts_of_collection (Collection.id c) db))
              <$> newest_first Collection.createdAt
                    (filter (λ c, Collection.isPublic c = true) (collections db))), db)
  | transaction_create d =>
      match find_transaction_by_txHash (tcd_txHash d) db with
      | Some _ => (inl UniqueConstraintViolation, db)
      | None =>
          let t := Transaction.mk (new_ObjectId (Transaction.id <$> transactions db))
                     (tcd_txHash d) (tcd_type d) (tcd_status d) (tcd_blockHeight d)
                     now now (tcd_userId d) (tcd_nftId d) in
          (inr (mkTransactionFull t (user_of (tcd_userId d) db)
                  (n ← tcd_nftId d; nft_of n db)),
           set_transactions (λ ts, ts ++ [t]) db)
      end
  | transaction_update h s b t =>
      match find_transaction_by_txHash h db with
      | Some (k, x) =>
          let x' := status_update s b t x in
          (inr x', set_transactions (λ ts, <[k := x']> ts) db)
      | None => (inl RecordNotFound, db)
      end
  end.

(** ** Asynchronous function bodies

    [Await op k] is [await] on a Prisma call: the function is suspended, the
    call is carried out against the store at some later point, and the body
    resumes in [k] with the value the call resolved to or the error it
    rejected with.  [NewDate k] is [new Date()], evaluated in the
    synchronous code between two awaits. *)

Inductive Prog (A : Type) : Type :=
| Ret (a : A)
| Throw (e : Error)
| NewDate (k : Date -> Prog A)
| Await {R : Type} (op : DbOp R) (k : Error + R -> Prog A).

Arguments Ret {A} a.
Arguments Throw {A} e.
Arguments NewDate {A} k.
Arguments Await {A R} op k.

Fixpoint bind {A B : Type} (p : Prog A) (f : A -> Prog B) : Prog B :=
  match p with
  | Ret a => f a
  | Throw e => Throw e
  | NewDate k => NewDate (λ t, bind (k t) f)
  | Await op k => Await op (λ r, bind (k r) f)
  end.

#[global] Instance Prog_ret : MRet Prog := @Ret.
#[global] Instance Prog_bind : MBind Prog := λ A B f p, bind p f.

(** [try { p } catch (error) { h(error) }] *)
Fixpoint try_catch {A : Type} (p : Prog A) (h : Error -> Prog A) : Prog A :=
  match p with
  | Ret a => Ret a
  | Throw e => h e
  | NewDate k => NewDate (λ t, try_catch (k t) h)
  | Await op k => Await op (λ r, try_catch (k r) h)
  end.

(** [await prisma.model.call(...)] with no handler around it: a rejection is
    rethrown. *)
Definition await {R : Type} (op : DbOp R) : Prog R :=
  Await op (λ r, match r with inl e => Throw e | inr x => Ret x end).

Definition new_Date : Prog Date := NewDate Ret.

(** ** Running one function body alone

    The world is the store and the wall clock.  The environment decides,
    for each awaited call in turn, whether the clock has moved on since the
    previous one and whether the store can be reached; an exhausted plan
    means no further change of the clock and no failure. *)

Record World : Type := mkWorld {
  db : DB;
  now : Date
}.

Record Env : Type := mkEnv {
  env_tick : option Date;
  env_fail : bool
}.

Inductive Outcome (A : Type) : Type :=
| Returned (a : A)
| Thrown (e : Error).

Arguments Returned {A} a.
Arguments Thrown {A} e.

Inductive Event : Type :=
| Called {R : Type} (op : DbOp R) (failed : bool).

Definition event_is_write (ev : Event) : bool :=
  match ev with
  | Called op failed => is_write op && negb failed
  end.

(** The effect of one awaited call: the value handed to the continuation
    and the store afterwards. *)
Definition perform {R : Type} (op : DbOp R) (fail : bool) (w : World)
  : (Error + R) * World :=
  if fail then (inl StorageFailure, w)
  else let '(r, db') := exec_op op (now w) (db w) in (r, mkWorld db' (now w)).

Definition tick (t : option Date) (w : World) : World :=
  mkWorld (db w) (default (now w) t).

Fixpoint run {A : Type} (p : Prog A) (env : list Env) (w : World)
  : Outcome A * World * list Event :=
  match p with
  | Ret a => (Returned a, w, [])
  | Throw e => (Thrown e, w, [])
  | NewDate k => run (k (now w)) env w
  | Await op k =>
      let e := default (mkEnv None false) (head env) in
      let '(r, w1) := perform op (env_fail e) (tick (env_tick e) w) in
      let '(o, w2, tr) := run (k r) (tail env) w1 in
      (o, w2, Called op (env_fail e) :: tr)
  end.

(** ** src/lib/db/user.ts *)

Module ClientSessionUser.
Record t : Type := mk {
  id : string;
  walletAddress : string
}.
End ClientSessionUser.

Definition findUserByWalletAddress (walletAddress : string)
  : Prog (option UserWithRelations) :=
  await (user_findUnique_walletAddress walletAddress).

Definition createUser (walletAddress : string) : Prog ClientSessionUser.t :=
  user ← await (user_create walletAddress (JArr []));
  mret (ClientSessionUser.mk (User.id user) (User.walletAddress user)).

Definition updateUserLogin (userId : string) : Prog User.t :=
  lastLoginAt ← new_Date;
  await (user_update_login userId lastLoginAt 1).

Definition getUserById (userId : string) : Prog (option User.t) :=
  await (user_findUnique_id userId).

(** [{ ...connectionData, timestamp: new Date().toISOString() }] *)
Definition connection_entry (connectionData : gmap string Json) (t : Date) : Json :=
  JObj (<["timestamp" := JStr (toISOString t)]> connectionData).

Definition addConnectionHistory (userId : string) (connectionData : gmap string Json)
  : Prog User.t :=
  user ← await (user_findUnique_id userId);
  match user with
  | None => Throw (JsError "User not found")
  | Some user =>
      let history := array_or_empty (User.connectionHistory user) in
      t ← new_Date;
      let updatedHistory := slice_last 10 (history ++ [connection_entry connectionData t]) in
      await (user_update_connectionHistory userId (JArr updatedHistory))
  end.

Definition createNFT (data : NFTCreateData) : Prog NFTWithOwner :=
  await (nFT_create data).

Definition getNFTsByOwner (ownerId : string) : Prog (list NFTWithTransactions) :=
  await (nFT_findMany_ownerId ownerId).

Definition getNFTById (id : string) : Prog (option NFTFull) :=
  await (nFT_findUnique_id id).

Definition updateNFTMintStatus (id tokenId contractAddress : string) : Prog NFT.t :=
  mintedAt ← new_Date;
  await (nFT_update_minted id tokenId contractAddress mintedAt).

Definition createCollection (data : CollectionCreateData) : Prog CollectionFull :=
  await (collection_create data).

Definition getCollectionsByOwner (ownerId : string) : Prog (list CollectionWithNfts) :=
  await (collection_findMany_ownerId ownerId).

Definition getPublicCollections : Prog (list CollectionFull) :=
  await collection_findMany_public.

Definition createTransaction (data : TransactionCreateData) : Prog TransactionFull :=
  await (transaction_create data).

Definition updateTransactionStatus (txHash status : string) (blockHeight : option Z)
  : Prog Transaction.t :=
  updatedAt ← new_Date;
  await (transaction_update txHash status blockHeight updatedAt).

(** ** Request validation (the zod schemas of the routes)

    A schema either yields the parsed value or the list of issues of all the
    fields that failed, in the order of the schema's keys. *)

Definition Parsed (A : Type) : Type := list ZodIssue + A.

Definition both {A B : Type} (a : Parsed A) (b : Parsed B) : Parsed (A * B) :=
  match a, b with
  | inr x, inr y => inr (x, y)
  | inl i, inr _ => inl i
  | inr _, inl j => inl j
  | inl i, inl j => inl (i ++ j)
  end.

Definition invalid {A : Type} (key : string) (message : option string) : Parsed A :=
  inl [mkIssue [key] message].

(** [z.string().min(1, message)] *)
Definition z_string_min1 (key message : string) (v : option Json) : Parsed string :=
  match v with
  | Some (JStr s) => if bool_decide (s = "") then invalid key (Some message) else inr s
  | _ => invalid key None
  end.

(** [z.string().optional()] *)
Definition z_string_optional (key : string) (v : option Json) : Parsed (option string) :=
  match v with
  | None => inr None
  | Some (JStr s) => inr (Some s)
  | Some _ => invalid key None
  end.

(** [z.record(z.string(), z.unknown())] *)
Definition z_record (key : string) (v : option Json) : Parsed (gmap string Json) :=
  match v with
  | Some (JObj m) => inr m
  | _ => invalid key None
  end.

(** [z.boolean().default(d)] *)
Definition z_boolean_default (key : string) (d : bool) (v : option Json) : Parsed bool :=
  match v with
  | None => inr d
  | Some (JBool b) => inr b
  | Some _ => invalid key None
  end.

(** [z.object({...})]: anything but an object is one issue at the root. *)
Definition z_object {A : Type} (fields : gmap string Json -> Parsed A) (body : Json)
  : Parsed A :=
  match body with
  | JObj m => fields m
  | _ => inl [mkIssue [] None]
  end.

(** What [createNFTSchema] and [createCollectionSchema] parse a body to. *)
Record CreateNFTRequest : Type := mkCreateNFTRequest {
  cnr_name : string;
  cnr_description : option string;
  cnr_image : string;
  cnr_metadata : gmap string Json;
  cnr_collectionId : option string
}.

Record CreateCollectionRequest : Type := mkCreateCollectionRequest {
  ccr_name : string;
  ccr_description : option string;
  ccr_image : option string;
  ccr_banner : option string;
  ccr_isPublic : bool
}.

Record MintNFTData : Type := mkMintNFTData {
  mint_nftId : string;
  mint_txHash : string;
  mint_contractAddress : string;
  mint_tokenId : string
}.

Definition mintNFTSchema : Json -> Parsed MintNFTData :=
  z_object (λ m,
    match both (z_string_min1 "nftId" "NFT ID is required" (m !! "nftId"))
            (both (z_string_min1 "txHash" "Transaction hash is required" (m !! "txHash"))
               (both (z_string_min1 "contractAddress" "Contract address is required"
                        (m !! "contractAddress"))
                  (z_string_min1 "tokenId" "Token ID is required" (m !! "tokenId")))) with
    | inr (nftId, (txHash, (contractAddress, tokenId))) =>
        inr (mkMintNFTData nftId txHash contractAddress tokenId)
    | inl issues => inl issues
    end).

(** ** The API routes *)

Module AuthUser.
(** What [verifyAuth] resolves to for an authenticated request; the
    routes read [userId] only. *)
Record t : Type := mk {
  userId : string
}.
End AuthUser.

Record NextRequest : Type := mkRequest {
  searchParams : list (string * string);
  headers : gmap string string;
  (** the body as [request.json()] parses it, [None] if it is not JSON *)
  body : option Json
}.

(** [searchParams.get(name)] *)
Definition searchParams_get (name : string) (request : NextRequest) : option string :=
  snd <$> head (filter (λ kv, kv.1 = name) (searchParams request)).

Inductive Body : Type :=
| error_body (error : string) (details : option (list ZodIssue))
| nfts_body (nfts : list NFTWithTransactions)
| created_nft_body (nft : NFTWithOwner)
| nft_body (nft : NFT.t)
| public_collections_body (collections : list CollectionFull)
| collections_body (collections : list CollectionWithNfts)
| collection_body (collection : CollectionFull).

Record Response : Type := mkResponse {
  res_body : Body;
  status : Z
}.

(** [NextResponse.json(body)] answers with status 200. *)
Definition json (b : Body) : Response := mkResponse b 200.

Definition request_json (request : NextRequest) : Prog Json :=
  match body request with
  | Some j => Ret j
  | None => Throw SyntaxError
  end.

Definition parse {A : Type} (r : Parsed A) : Prog A :=
  match r with
  | inr a => Ret a
  | inl issues => Throw (ZodError issues)
  end.

Definition unauthorized : Response := mkResponse (error_body "Unauthorized" None) 401.

Definition internal_server_error : Response :=
  mkResponse (error_body "Internal server error" None) 500.

(** The [catch] clause of the routes that parse a body. *)
Definition on_error (error : Error) : Prog Response :=
  match isZodError error with
  | Some issues => Ret (mkResponse (error_body "Invalid request data" (Some issues)) 400)
  | None => Ret internal_server_error
  end.

Section Routes.

(** [verifyAuth] of [src/lib/auth/middleware] is not among the sources;
    the routes await it and test its result for falsiness. *)
Variable verifyAuth : NextRequest -> Prog (option AuthUser.t).

(** [z.string().url(...)] accepts what the library takes for a URL, and
    [String.prototype.trim] belongs to the runtime. *)
Variable is_url : string -> bool.
Variable trim : string -> string.

(** [z.string().url(message)] *)
Definition z_string_url (key message : string) (v : option Json) : Parsed string :=
  match v with
  | Some (JStr s) => if is_url s then inr s else invalid key (Some message)
  | _ => invalid key None
  end.

(** [z.string().url(message).optional()] *)
Definition z_string_url_optional (key message : string) (v : option Json)
  : Parsed (option string) :=
  match v with
  | None => inr None
  | Some (JStr s) => if is_url s then inr (Some s) else invalid key (Some message)
  | Some _ => invalid key None
  end.

(** [z.string().optional().or(z.literal("")).transform(val =>
      typeof val === "string" && val.trim().length === 0 ? undefined : val)] *)
Definition z_collectionId (key : string) (v : option Json) : Parsed (option string) :=
  match v with
  | None => inr None
  | Some (JStr s) => inr (if bool_decide (trim s = "") then None else Some s)
  | Some _ => invalid key None
  end.

Definition createNFTSchema : Json -> Parsed CreateNFTRequest :=
  z_object (λ m,
    match both (z_string_min1 "name" "Name is required" (m !! "name"))
            (both (z_string_optional "description" (m !! "description"))
               (both (z_string_url "image" "Valid image URL is required" (m !! "image"))
                  (both (z_record "metadata" (m !! "metadata"))
                     (z_collectionId "collectionId" (m !! "collectionId"))))) with
    | inr (name, (description, (image, (metadata, collectionId)))) =>
        inr (mkCreateNFTRequest name description image metadata collectionId)
    | inl issues => inl issues
    end).

Definition createCollectionSchema : Json -> Parsed CreateCollectionRequest :=
  z_object (λ m,
    match both (z_string_min1 "name" "Name is required" (m !! "name"))
            (both (z_string_optional "description" (m !! "description"))
               (both (z_string_url_optional "image" "Valid image URL is required"
                        (m !! "image"))
                  (both (z_string_url_optional "banner" "Valid banner URL is required"
                           (m !! "banner"))
                     (z_boolean_default "isPublic" true (m !! "isPublic"))))) with
    | inr (name, (description, (image, (banner, isPublic)))) =>
        inr (mkCreateCollectionRequest name description image banner isPublic)
    | inl issues => inl issues
    end).

(** *** src/app/api/nfts/route.ts *)

Definition GET_nfts (request : NextRequest) : Prog Response :=
  try_catch
    (user ← verifyAuth request;
     match user with
     | None => Ret unauthorized
     | Some user =>
         nfts ← getNFTsByOwner (AuthUser.userId user);
         Ret (json (nfts_body nfts))
     end)
    (λ error, Ret internal_server_error).

Definition POST_nfts (request : NextRequest) : Prog Response :=
  try_catch
    (user ← verifyAuth request;
     match user with
     | None => Ret unauthorized
     | Some user =>
         body ← request_json request;
         data ← parse (createNFTSchema body);
         nft ← createNFT
                 (mkNFTCreateData (cnr_name data) (cnr_description data) (cnr_image data)
                    (cnr_metadata data) (AuthUser.userId user) (cnr_collectionId data));
         Ret (mkResponse (created_nft_body nft) 201)
     end)
    on_error.

(** *** src/app/api/nfts/mint/route.ts *)

Definition POST_nfts_mint (request : NextRequest) : Prog Response :=
  try_catch
    (user ← verifyAuth request;
     match user with
     | None => Ret unauthorized
     | Some user =>
         body ← request_json request;
         data ← parse (mintNFTSchema body);
         nft ← getNFTById (mint_nftId data);
         match nft with
         | None => Ret (mkResponse (error_body "NFT not found" None) 404)
         | Some nft =>
             if bool_decide (NFT.ownerId (nf_nft nft) ≠ AuthUser.userId user) then
               Ret (mkResponse (error_body "Unauthorized to mint this NFT" None) 403)
             else if NFT.isMinted (nf_nft nft) then
               Ret (mkResponse (error_body "NFT is already minted" None) 400)
             else
               updatedNFT ← updateNFTMintStatus (mint_nftId data) (mint_tokenId data)
                              (mint_contractAddress data);
               _ ← createTransaction
                     (mkTransactionCreateData (mint_txHash data) "mint" "pending"
                        (AuthUser.userId user) (Some (mint_nftId data)) None);
               Ret (json (nft_body updatedNFT))
         end
     end)
    on_error.

(** *** src/app/api/collections/route.ts *)

Definition GET_collections (request : NextRequest) : Prog Response :=
  try_catch
    (let publicOnly := bool_decide (searchParams_get "public" request = Some "true") in
     if publicOnly then
       collections ← getPublicCollections;
       Ret (json (public_collections_body collections))
     else
       user ← verifyAuth request;
       match user with
       | None => Ret unauthorized
       | Some user =>
           collections ← getCollectionsByOwner (AuthUser.userId user);
           Ret (json (collections_body collections))
       end)
    (λ error, Ret internal_server_error).

Definition POST_collections (request : NextRequest) : Prog Response :=
  try_catch
    (user ← verifyAuth request;
     match user with
     | None => Ret unauthorized
     | Some user =>
         body ← request_json request;
         data ← parse (createCollectionSchema body);
         collection ← createCollection
                        (mkCollectionCreateData (ccr_name data) (ccr_description data)
                           (ccr_image data) (ccr_banner data) (Some (ccr_isPublic data))
                           (AuthUser.userId user));
         Ret (mkResponse (collection_body collection) 201)
     end)
    on_error.

End Routes.

(** ** The login recorder *)

(** Modelled from the spec: the login route ([app/api/auth/login]) that
    calls the repository on a successful login is not among the sources.
    Section 4.5 gives its recorder sequence: find or create the record of
    the wallet address, then increment [loginCount] and set [lastLoginAt]
    ([updateUserLogin]), then append the connection metadata to the
    history ([addConnectionHistory]). *)
Definition recordLogin (walletAddress : string) (connectionMetadata : gmap string Json)
  : Prog User.t :=
  found ← findUserByWalletAddress walletAddress;
  userId ← match found with
           | Some u => Ret (User.id (uwr_user u))
           | None => u ← createUser walletAddress; Ret (ClientSessionUser.id u)
           end;
  _ ← updateUserLogin userId;
  addConnectionHistory userId connectionMetadata.

(** ** Running function bodies concurrently

    Requests are served by one event loop: a body runs without
    interruption from one [await] to the next, and the awaited calls of the
    pending bodies reach the store one at a time, in any order.  A schedule
    lists, step by step, which pending body has its awaited call carried out
    next (and whether the store fails it), or how the clock moves. *)

Inductive Sched : Type :=
| Go (i : nat) (fail : bool)
| Tick (t : Date).

(** The synchronous code up to the next [await]. *)
Fixpoint settle {A : Type} (p : Prog A) (t : Date) : Prog A :=
  match p with
  | NewDate k => settle (k t) t
  | _ => p
  end.

Definition step_thread {A : Type} (fail : bool) (p : Prog A) (w : World) : Prog A * World :=
  match settle p (now w) with
  | Await op k => let '(r, w') := perform op fail w in (k r, w')
  | q => (q, w)
  end.

Definition sched_step {A : Type} (st : list (Prog A) * World) (s : Sched)
  : list (Prog A) * World :=
  match s with
  | Tick t => (st.1, tick (Some t) st.2)
  | Go i fail =>
      match st.1 !! i with
      | Some p => let '(p', w') := step_thread fail p st.2 in (<[i := p']> st.1, w')
      | None => st
      end
  end.

Definition sched {A : Type} (ss : list Sched) (st : list (Prog A) * World)
  : list (Prog A) * World :=
  foldl sched_step st ss.

(** How a body has ended, if it has. *)
Definition outcome {A : Type} (p : Prog A) (t : Date) : option (Outcome A) :=
  match settle p t with
  | Ret a => Some (Returned a)
  | Throw e => Some (Thrown e)
  | _ => None
  end.

Definition all_returned {A : Type} (pool : list (Prog A)) (t : Date) : Prop :=
  Forall (λ p, ∃ a, outcome p t = Some (Returned a)) pool.

(** ** Vocabulary of the statements *)

(** Calls made one after the other, each with its own environment plan. *)
Fixpoint run_all {A : Type} (calls : list (Prog A * list Env)) (w : World)
  : list (Outcome A) * World :=
  match calls with
  | [] => ([], w)
  | (p, env) :: rest =>
      let '(o, w1, _) := run p env w in
      let '(os, w2) := run_all rest w1 in
      (o :: os, w2)
  end.

Definition is_returned {A : Type} (o : Outcome A) : bool :=
  match o with
  | Returned _ => true
  | Thrown _ => false
  end.

(** The clock after the awaited calls of a plan have been carried out. *)
Definition clock_after (env : list Env) (t : Date) : Date :=
  foldl (λ t e, default t (env_tick e)) t env.

(** No failure of the store among the first [n] awaited calls. *)
Definition reachable (n : nat) (env : list Env) : Prop :=
  Forall (λ e, env_fail e = false) (take n env).

(** The history entries that a sequence of [addConnectionHistory] calls
    stamps, the first call starting at clock [t]: a call reads the clock
    after its lookup and before its update. *)
Fixpoint entries (calls : list (gmap string Json * list Env)) (t : Date) : list Json :=
  match calls with
  | [] => []
  | (d, env) :: rest =>
      connection_entry d (clock_after (take 1 env) t)
        :: entries rest (clock_after (take 2 env) t)
  end.

(** The clock that each call of such a sequence reads for its stamp. *)
Fixpoint stamps (calls : list (gmap string Json * list Env)) (t : Date) : list Date :=
  match calls with
  | [] => []
  | (d, env) :: rest =>
      clock_after (take 1 env) t :: stamps rest (clock_after (take 2 env) t)
  end.

(** [e] is the connection data [d] merged with the time stamp of [t]: an
    object that has the ISO rendering of [t] under [timestamp] and the value
    of [d] under every other key. *)
Definition stamped (d : gmap string Json) (t : Date) (e : Json) : Prop :=
  ∃ m, e = JObj m
       ∧ m !! "timestamp" = Some (JStr (toISOString t))
       ∧ ∀ key, key ≠ "timestamp" -> m !! key = d !! key.

(** The stored history of a user. *)
Definition history_of (i : string) (d : DB) : option Json :=
  User.connectionHistory <$> user_of i d.

(** The wallet address [a] belongs to the [k]-th stored user [u], who is
    also the one found under its identifier. *)
Definition registered (a : string) (k : nat) (u : User.t) (d : DB) : Prop :=
  find_user_by_walletAddress a d = Some (k, u) ∧ find_user (User.id u) d = Some (k, u).



(** The exported functions of [user.ts], with their arguments. *)
Inductive Operation : Type :=
| op_findUserByWalletAddress (walletAddress : string)
| op_createUser (walletAddress : string)
| op_updateUserLogin (userId : string)
| op_getUserById (userId : string)
| op_addConnectionHistory (userId : string) (connectionData : gmap string Json)
| op_createNFT (data : NFTCreateData)
| op_getNFTsByOwner (ownerId : string)
| op_getNFTById (id : string)
| op_updateNFTMintStatus (id tokenId contractAddress : string)
| op_createCollection (data : CollectionCreateData)
| op_getCollectionsByOwner (ownerId : string)
| op_getPublicCollections
| op_createTransaction (data : TransactionCreateData)
| op_updateTransactionStatus (txHash status : string) (blockHeight : option Z).

Definition invoke (o : Operation) : { A : Type & Prog A } :=
  match o with
  | op_findUserByWalletAddress a => existT _ (findUserByWalletAddress a)
  | op_createUser a => existT _ (createUser a)
  | op_updateUserLogin i => existT _ (updateUserLogin i)
  | op_getUserById i => existT _ (getUserById i)
  | op_addConnectionHistory i d => existT _ (addConnectionHistory i d)
  | op_createNFT d => existT _ (createNFT d)
  | op_getNFTsByOwner o => existT _ (getNFTsByOwner o)
  | op_getNFTById i => existT _ (getNFTById i)
  | op_updateNFTMintStatus i t c => existT _ (updateNFTMintStatus i t c)
  | op_createCollection d => existT _ (createCollection d)
  | op_getCollectionsByOwner o => existT _ (getCollectionsByOwner o)
  | op_getPublicCollections => existT _ getPublicCollections
  | op_createTransaction d => existT _ (createTransaction d)
  | op_updateTransactionStatus h s b => existT _ (updateTransactionStatus h s b)
  end.

(** The store after an exported function has run. *)
Definition db_after (o : Operation) (env : list Env) (w : World) : DB :=
  db (run (projT2 (invoke o)) env w).1.2.

(** ** Sample data *)

Definition sample_clock : Date := 1700000000000.

(** The first two identifiers the store hands out. *)
Definition sample_id : string := "100000000000000000000000".

Definition other_id : string := "010000000000000000000000".

Definition sample_world : World := mkWorld empty_db sample_clock.

Definition sample_user : User.t :=
  User.mk sample_id "SP123" sample_clock sample_clock None 0 (JArr []).

(** The store with the one user of wallet address SP123. *)
Definition sample_registered : World :=
  mkWorld (mkDB [sample_user] [] [] []) sample_clock.

Definition sample_data (n : Z) : gmap string Json :=
  {[ "ip" := JStr "203.0.113.7"; "attempt" := JNum n ]}.

Definition undisturbed : Env := mkEnv None false.

Definition failing : Env := mkEnv None true.

(** Eleven logins, one second apart. *)
Definition sample_calls : list (gmap string Json * list Env) :=
  (λ n, (sample_data n, [mkEnv (Some (sample_clock + 1000 * n)) false])) <$> seqZ 1 11.

(** A user whose stored history is not an array. *)
Definition sample_malformed : World :=
  mkWorld (mkDB [User.mk sample_id "SP123" sample_clock sample_clock None 3 (JStr "n/a")]
             [] [] []) sample_clock.

(** A stateless validator standing for [verifyAuth] in the examples: the
    [authorization] header names the user. *)
Definition sample_verifyAuth (request : NextRequest) : Prog (option AuthUser.t) :=
  Ret (AuthUser.mk <$> headers request !! "authorization").

Definition sample_nft (minted : bool) : NFT.t :=
  NFT.mk sample_id "First" None "https://example.org/1.png" ∅ None None minted None
    sample_clock sample_clock sample_id None.

Definition sample_gallery (minted : bool) : World :=
  mkWorld (mkDB [sample_user] [sample_nft minted] [] []) sample_clock.

Definition sample_mint_body (nftId : string) : Json :=
  JObj {[ "nftId" := JStr nftId; "txHash" := JStr "0xabc";
          "contractAddress" := JStr "SP000.coremint"; "tokenId" := JStr "7" ]}.

Definition sample_mint_request (user nftId : string) (complete : bool) : NextRequest :=
  mkRequest [] {[ "authorization" := user ]}
    (Some (if complete then sample_mint_body nftId
           else JObj {[ "nftId" := JStr nftId ]})).

Definition anonymous_request : NextRequest := mkRequest [] ∅ None.

(** Two logins for SP123: each reads the history before the other has
    written it back. *)
Definition interleaved : list Sched :=
  [Go 0 false; Go 1 false;      (* both look the wallet address up *)
   Go 0 false; Go 1 false;      (* both increment the counter *)
   Go 0 false; Go 1 false;      (* both read the history *)
   Go 0 false; Go 1 false].     (* both write it back *)

(** Two logins, the second carried out after the first has returned (five
    calls for the login that creates the record, four for the other). *)
Definition one_after_the_other : list Sched :=
  replicate 5 (Go 0 false) ++ replicate 4 (Go 1 false).

(** ** Invariants used in the proofs *)

(** The number a string of binary digits stands for, the least significant
    digit first. *)
Fixpoint bit_value (s : string) : N :=
  match s with
  | EmptyString => 0
  | String c s => (if Ascii.eqb c "1" then 1 else 0) + 2 * bit_value s
  end%N.

(** Every stored user is still stored, with a counter at least as large. *)
Definition count_le (d d' : DB) : Prop :=
  ∀ i u, user_of i d = Some u ->
    ∃ u', user_of i d' = Some u' ∧ User.loginCount u ≤ User.loginCount u'.

(** The calls that do not decrement the counter. *)
Definition adds {R : Type} (op : DbOp R) : Prop :=
  match op with
  | user_update_login _ _ n => 0 ≤ n
  | _ => True
  end.

(** Bodies all of whose awaited calls satisfy a condition. *)
Inductive calls_only (P : ∀ R, DbOp R -> Prop) {A : Type} : Prog A -> Prop :=
| calls_only_Ret a : calls_only P (Ret a)
| calls_only_Throw e : calls_only P (Throw e)
| calls_only_NewDate k : (∀ t, calls_only P (k t)) -> calls_only P (NewDate k)
| calls_only_Await {R} (op : DbOp R) k :
    P R op -> (∀ r, calls_only P (k r)) -> calls_only P (Await op k).


(** The recorder sequence after its lookup has found no record. *)
Definition create_and_record (a : string) (d : gmap string Json) : Prog User.t :=
  userId ← (u ← createUser a; Ret (ClientSessionUser.id u));
  _ ← updateUserLogin userId;
  addConnectionHistory userId d.

(** The stages of a login for the wallet address [a] while no record is
    stored for it. *)
Inductive prelogin_stage (a : string) (ds : list (gmap string Json))
  : Prog User.t -> Prop :=
| pre_lookup d : d ∈ ds -> prelogin_stage a ds (recordLogin a d)
| pre_create d : d ∈ ds -> prelogin_stage a ds (create_and_record a d)
| pre_failed e : prelogin_stage a ds (Throw e).

(** The stages of a login for the wallet address [a] of user [i], with
    whether it has incremented the counter. *)
Inductive login_stage (a i : string) (ds : list (gmap string Json))
  : bool -> Prog User.t -> Prop :=
| stage_lookup d :
    d ∈ ds -> login_stage a i ds false (recordLogin a d)
| stage_create d :
    d ∈ ds -> login_stage a i ds false (create_and_record a d)
| stage_count d :
    d ∈ ds ->
    login_stage a i ds false (_ ← updateUserLogin i; addConnectionHistory i d)
| stage_read d :
    d ∈ ds -> login_stage a i ds true (addConnectionHistory i d)
| stage_write d h :
    d ∈ ds ->
    login_stage a i ds true
      (t ← new_Date;
       await (user_update_connectionHistory i
                (JArr (slice_last 10 (h ++ [connection_entry d t])))))
| stage_done u : login_stage a i ds true (Ret u)
| stage_failed b e : login_stage a i ds b (Throw e).

Definition count_true (flags : list bool) : Z :=
  Z.of_nat (length (filter (λ b, b = true) flags)).

(** The history ends with the stamped entry of one of the logins and has at
    most 10 entries. *)
Definition ends_with_login_entry (ds : list (gmap string Json)) (h : Json) : Prop :=
  ∃ l e d t,
    d ∈ ds ∧ stamped d t e ∧ h = JArr (l ++ [e]) ∧ (length (l ++ [e]) ≤ 10)%nat.

(** The stored history is the initial one and no login has returned yet, or
    it ends with the entry of one of the logins. *)
Definition history_written (ds : list (gmap string Json)) (h0 h : Json)
    (pool : list (Prog User.t)) : Prop :=
  (h = h0 ∧ Forall (λ p, ∀ x, p ≠ Ret x) pool) ∨ ends_with_login_entry ds h.

Definition logins_inv (a : string) (k : nat) (u0 : User.t) (ds : list (gmap string Json))
    (pool : list (Prog User.t)) (w : World) : Prop :=
  ∃ flags u,
    Forall2 (login_stage a (User.id u0) ds) flags pool
    ∧ registered a k u (db w)
    ∧ User.id u = User.id u0
    ∧ User.loginCount u = User.loginCount u0 + count_true flags
    ∧ history_written ds (User.connectionHistory u0) (User.connectionHistory u) pool.

(** Concurrent logins for a wallet address that was not stored at the
    start: no record yet, or the record one of them created, which started
    with the counter at 0 and an empty history. *)
Definition new_logins_inv (a : string) (ds : list (gmap string Json))
    (pool : list (Prog User.t)) (w : World) : Prop :=
  (find_user_by_walletAddress a (db w) = None ∧ Forall (prelogin_stage a ds) pool)
  ∨ ∃ k u0,
      User.loginCount u0 = 0 ∧ User.connectionHistory u0 = JArr []
      ∧ logins_inv a k u0 ds pool w.

(** ** How a body can end *)

(** Bodies that, however their awaited calls turn out, return only values
    satisfying [Q] and throw only errors satisfying [E]. *)
Inductive ends_with {A : Type} (Q : A -> Prop) (E : Error -> Prop) : Prog A -> Prop :=
| ends_Ret a : Q a -> ends_with Q E (Ret a)
| ends_Throw e : E e -> ends_with Q E (Throw e)
| ends_NewDate k : (∀ t, ends_with Q E (k t)) -> ends_with Q E (NewDate k)
| ends_Await {R} (op : DbOp R) k :
    (∀ r, ends_with Q E (k r)) -> ends_with Q E (Await op k).

(** The answers of the routes. *)
Definition invalid_request (r : Response) : Prop :=
  ∃ issues, r = mkResponse (error_body "Invalid request data" (Some issues)) 400.

Definition GET_nfts_answer (r : Response) : Prop :=
  r = unauthorized ∨ r = internal_server_error
  ∨ ∃ nfts, r = mkResponse (nfts_body nfts) 200.

Definition POST_nfts_answer (r : Response) : Prop :=
  r = unauthorized ∨ r = internal_server_error ∨ invalid_request r
  ∨ ∃ nft, r = mkResponse (created_nft_body nft) 201.

Definition POST_nfts_mint_answer (r : Response) : Prop :=
  r = unauthorized ∨ r = internal_server_error ∨ invalid_request r
  ∨ r = mkResponse (error_body "NFT not found" None) 404
  ∨ r = mkResponse (error_body "Unauthorized to mint this NFT" None) 403
  ∨ r = mkResponse (error_body "NFT is already minted" None) 400
  ∨ ∃ nft, r = mkResponse (nft_body nft) 200.

Definition GET_collections_answer (r : Response) : Prop :=
  r = unauthorized ∨ r = internal_server_error
  ∨ (∃ cs, r = mkResponse (public_collections_body cs) 200)
  ∨ ∃ cs, r = mkResponse (collections_body cs) 200.

Definition POST_collections_answer (r : Response) : Prop :=
  r = unauthorized ∨ r = internal_server_error ∨ invalid_request r
  ∨ ∃ c, r = mkResponse (collection_body c) 201.

(** ** Parts of the routes *)

(** The mint route from the lookup of the NFT on, for the authenticated
    user and the parsed body. *)
Definition mint_steps (user : AuthUser.t) (data : MintNFTData) : Prog Response :=
  nft ← getNFTById (mint_nftId data);
  match nft with
  | None => Ret (mkResponse (error_body "NFT not found" None) 404)
  | Some nft =>
      if bool_decide (NFT.ownerId (nf_nft nft) ≠ AuthUser.userId user) then
        Ret (mkResponse (error_body "Unauthorized to mint this NFT" None) 403)
      else if NFT.isMinted (nf_nft nft) then
        Ret (mkResponse (error_body "NFT is already minted" None) 400)
      else
        updatedNFT ← updateNFTMintStatus (mint_nftId data) (mint_tokenId data)
                       (mint_contractAddress data);
        _ ← createTransaction
              (mkTransactionCreateData (mint_txHash data) "mint" "pending"
                 (AuthUser.userId user) (Some (mint_nftId data)) None);
        Ret (json (nft_body updatedNFT))
  end.

(** The transaction record a mint writes. *)
Definition mint_transaction (user : AuthUser.t) (data : MintNFTData) (t : Transaction.t)
  : Prop :=
  Transaction.txHash t = mint_txHash data
  ∧ Transaction.type t = "mint"
  ∧ Transaction.status t = "pending"
  ∧ Transaction.userId t = AuthUser.userId user
  ∧ Transaction.nftId t = Some (mint_nftId data)
  ∧ Transaction.blockHeight t = None.

(** ** What the repository keeps *)

(** The second store has every record of the first one at the same place,
    with the same identifier; users keep their wallet address, NFTs their
    owner, transactions their hash, user and NFT, and collections are as
    they were. *)
Definition keeps_records (d d' : DB) : Prop :=
  ((λ u, (User.id u, User.walletAddress u)) <$> users d)
    `prefix_of` ((λ u, (User.id u, User.walletAddress u)) <$> users d')
  ∧ ((λ n, (NFT.id n, NFT.ownerId n)) <$> nfts d)
      `prefix_of` ((λ n, (NFT.id n, NFT.ownerId n)) <$> nfts d')
  ∧ collections d `prefix_of` collections d'
  ∧ ((λ t, (Transaction.id t, Transaction.txHash t, Transaction.userId t,
            Transaction.nftId t)) <$> transactions d)
      `prefix_of` ((λ t, (Transaction.id t, Transaction.txHash t, Transaction.userId t,
                          Transaction.nftId t)) <$> transactions d').

(** [txHash] is unique among the stored transactions. *)
Definition unique_txHashes (d : DB) : Prop :=
  NoDup (Transaction.txHash <$> transactions d).

(** ** The fields of a mint request *)

Definition mint_keys : list string := ["nftId"; "txHash"; "contractAddress"; "tokenId"].

(** A field that holds a non-empty string. *)
Definition nonempty_string (v : option Json) : bool :=
  match v with
  | Some (JStr s) => negb (bool_decide (s = ""))
  | _ => false
  end.

(** Two mint requests served at the same time, each call of the first
    reaching the store just before the same call of the second. *)
Definition mint_race : list Sched :=
  [Go 0 false; Go 1 false;      (* both look the NFT up *)
   Go 0 false; Go 1 false;      (* both mark it as minted *)
   Go 0 false; Go 1 false].     (* both record their transaction *)

(** ** Further sample requests *)

Definition sample_second_mint_body : Json :=
  JObj {[ "nftId" := JStr sample_id; "txHash" := JStr "0xdef";
          "contractAddress" := JStr "SP000.coremint"; "tokenId" := JStr "8" ]}.

(** A second mint request of user 0 for NFT 0, with another transaction hash
    and token identifier. *)
Definition sample_second_mint_request : NextRequest :=
  mkRequest [] {[ "authorization" := sample_id ]} (Some sample_second_mint_body).

Definition sample_nft_body : Json :=
  JObj {[ "name" := JStr "Second"; "image" := JStr "https://example.org/2.png";
          "metadata" := JObj ∅; "collectionId" := JStr "" ]}.

Definition sample_nft_request : NextRequest :=
  mkRequest [] {[ "authorization" := sample_id ]} (Some sample_nft_body).

Definition sample_collection_body : Json := JObj {[ "name" := JStr "Gallery" ]}.

Definition sample_collection_request : NextRequest :=
  mkRequest [] {[ "authorization" := sample_id ]} (Some sample_collection_body).

Definition sample_public_request : NextRequest :=
  mkRequest [("public", "true")] ∅ None.

(** * Properties *)

(** ** Lists *)

Section Lists.
Context {A : Type}.
Implicit Types l : list A.

Lemma slice_last_length n l : (length (slice_last n l) ≤ n)%nat.
Proof. unfold slice_last. rewrite length_drop. lia. Qed.

Lemma slice_last_short n l : (length l ≤ n)%nat -> slice_last n l = l.
Proof.
  intros H. unfold slice_last.
  replace (length l - n)%nat with 0%nat by lia. reflexivity.
Qed.

Lemma slice_last_snoc n l x :
  slice_last (S n) (slice_last (S n) l ++ [x]) = slice_last (S n) (l ++ [x]).
Proof.
  unfold slice_last. rewrite !length_app, length_drop. simpl.
  destruct (decide (length l ≤ S n)%nat) as [Hle|Hgt].
  - replace (length l - S n)%nat with 0%nat by lia.
    rewrite Nat.sub_0_r. reflexivity.
  - replace (length l - (length l - S n) + 1 - S n)%nat with 1%nat by lia.
    replace (length l + 1 - S n)%nat with (length l - S n + 1)%nat by lia.
    rewrite <- (drop_drop (l ++ [x])).
    rewrite (drop_app_le l) by lia. reflexivity.
Qed.

Lemma list_find_insert (P : A -> Prop) `{!∀ x, Decision (P x)} l k x y :
  list_find P l = Some (k, x) -> P y -> list_find P (<[k := y]> l) = Some (k, y).
Proof.
  intros Hf Hy. apply list_find_Some in Hf as (Hk & Hx & Hlt).
  apply list_find_Some. split_and!.
  - apply list_lookup_insert_eq. by eapply lookup_lt_Some.
  - done.
  - intros j z Hj Hjk. rewrite list_lookup_insert_ne in Hj by lia. eauto.
Qed.

Lemma list_find_insert_None (P : A -> Prop) `{!∀ x, Decision (P x)} l k x y :
  list_find P l = None -> l !! k = Some x -> ¬ P y -> list_find P (<[k := y]> l) = None.
Proof.
  intros Hf Hk Hy. apply list_find_None, Forall_forall.
  rewrite list_find_None, Forall_forall in Hf.
  intros z Hz. apply list_elem_of_lookup in Hz as [j Hj].
  destruct (decide (j = k)) as [->|Hne].
  - rewrite list_lookup_insert_eq in Hj by (by eapply lookup_lt_Some). by simplify_eq.
  - rewrite list_lookup_insert_ne in Hj by done.
    apply Hf. by eapply list_elem_of_lookup_2.
Qed.
End Lists.

(** ** Identifiers *)

Lemma bit_value_zeros s n : bit_value (s +:+ zeros n) = bit_value s.
Proof.
  assert (bit_value (zeros n) = 0%N) as Hz.
  { induction n as [|n IH]; [done|]. cbn [zeros bit_value]. rewrite IH. reflexivity. }
  induction s as [|c s IH].
  - exact Hz.
  - change (String c s +:+ zeros n) with (String c (s +:+ zeros n)).
    cbn [bit_value]. by rewrite IH.
Qed.

Lemma bit_value_binary p : bit_value (binary p) = Npos p.
Proof.
  induction p as [p IH|p IH|]; cbn [binary bit_value]; [rewrite IH..|]; reflexivity.
Qed.

Lemma objectId_inj n m : objectId n = objectId m -> n = m.
Proof.
  intros E. apply (f_equal bit_value) in E.
  unfold objectId in E. rewrite !bit_value_zeros, !bit_value_binary in E.
  apply SuccNat2Pos.inj. congruence.
Qed.

Lemma first_unused_fresh used n fuel :
  (n + fuel)%nat = length used ->
  (∀ m, (m < n)%nat -> objectId m ∈ used) ->
  first_unused used n fuel ∉ used.
Proof.
  revert n. induction fuel as [|fuel IH]; intros n Hlen Hbelow; cbn [first_unused].
  - intros Hin.
    assert (objectId <$> seq 0 (S n) ⊆+ used) as Hsub.
    { apply NoDup_submseteq.
      - apply NoDup_fmap_2; [intros a b; apply objectId_inj|apply NoDup_seq].
      - intros x (m & -> & Hm%elem_of_seq)%list_elem_of_fmap.
        destruct (decide (m = n)) as [->|]; [done|]. apply Hbelow. lia. }
    apply submseteq_length in Hsub. rewrite length_fmap, length_seq in Hsub. lia.
  - destruct (bool_decide (objectId n ∈ used)) eqn:E.
    + apply bool_decide_eq_true in E. apply IH; [lia|].
      intros m Hm. destruct (decide (m = n)) as [->|]; [done|]. apply Hbelow. lia.
    + by apply bool_decide_eq_false in E.
Qed.

(** A new identifier is not in use. *)
Lemma new_ObjectId_fresh used : new_ObjectId used ∉ used.
Proof. apply first_unused_fresh; [done|]. intros m Hm. lia. Qed.

Lemma first_unused_le used n fuel :
  ∃ m, first_unused used n fuel = objectId m ∧ (n ≤ m ≤ n + fuel)%nat.
Proof.
  revert n. induction fuel as [|fuel IH]; intros n; cbn [first_unused].
  - exists n. split; [done|lia].
  - destruct (bool_decide (objectId n ∈ used)).
    + destruct (IH (S n)) as (m & -> & Hm). exists m. split; [done|lia].
    + exists n. split; [done|lia].
Qed.

Lemma binary_length p : String.length (binary p) = Pos.size_nat p.
Proof. induction p as [p IH|p IH|]; cbn; by rewrite ?IH. Qed.

Lemma binary_hex p : forallb is_hex (String.list_ascii_of_string (binary p)) = true.
Proof. induction p as [p IH|p IH|]; cbn; by rewrite ?IH. Qed.

Lemma zeros_length n : String.length (zeros n) = n.
Proof. induction n as [|n IH]; cbn; by rewrite ?IH. Qed.

Lemma zeros_hex n : forallb is_hex (String.list_ascii_of_string (zeros n)) = true.
Proof. induction n as [|n IH]; cbn; by rewrite ?IH. Qed.

Lemma append_length s t : String.length (s +:+ t) = (String.length s + String.length t)%nat.
Proof.
  induction s as [|c s IH]; [done|].
  change (String c s +:+ t) with (String c (s +:+ t)). cbn. by rewrite IH.
Qed.

Lemma append_hex s t :
  forallb is_hex (String.list_ascii_of_string s) = true ->
  forallb is_hex (String.list_ascii_of_string t) = true ->
  forallb is_hex (String.list_ascii_of_string (s +:+ t)) = true.
Proof.
  intros Hs Ht. induction s as [|c s IH]; [done|].
  change (String c s +:+ t) with (String c (s +:+ t)). cbn in *.
  apply andb_true_iff in Hs as [-> Hs]. by apply IH.
Qed.

(** The first 2^24 - 1 identifiers are ObjectIds. *)
Lemma objectId_is_ObjectId n : Z.of_nat n < 16777215 -> is_ObjectId (objectId n) = true.
Proof.
  intros Hn. unfold is_ObjectId, objectId. cbn zeta.
  assert (Pos.size_nat (Pos.of_succ_nat n) ≤ 24)%nat as Hsize.
  { destruct (decide (Pos.of_succ_nat n = 16777215%positive)) as [->|Hne]; [done|].
    change 24%nat with (Pos.size_nat 16777215).
    apply Pos.size_nat_monotone. lia. }
  apply andb_true_iff. split.
  - apply Nat.eqb_eq. rewrite append_length, zeros_length, binary_length. lia.
  - apply append_hex; [apply binary_hex|apply zeros_hex].
Qed.

(** A store that holds fewer documents than that is handed an ObjectId. *)
Lemma new_ObjectId_is_ObjectId used :
  Z.of_nat (length used) < 16777215 -> is_ObjectId (new_ObjectId used) = true.
Proof.
  intros Hlen. unfold new_ObjectId.
  destruct (first_unused_le used 0 (length used)) as (m & -> & Hm).
  apply objectId_is_ObjectId. lia.
Qed.

(** ** One awaited call *)

Lemma reachable_cons n e env :
  reachable (S n) (e :: env) <-> env_fail e = false ∧ reachable n env.
Proof. unfold reachable. simpl. by rewrite Forall_cons. Qed.

Lemma reachable_nil n : reachable n [].
Proof. unfold reachable. rewrite take_nil. constructor. Qed.

Lemma reachable_le n m env : (m ≤ n)%nat -> reachable n env -> reachable m env.
Proof.
  unfold reachable. intros Hle H.
  replace (take m env) with (take m (take n env)).
  - by apply Forall_take.
  - rewrite take_take. by replace (m `min` n)%nat with m by lia.
Qed.

(** An awaited call that reaches the store. *)
Lemma run_Await {A R : Type} (op : DbOp R) (k : Error + R -> Prog A) env w :
  reachable 1 env ->
  run (Await op k) env w =
    let t := clock_after (take 1 env) (now w) in
    let '(r, d) := exec_op op t (db w) in
    let '(o, w', tr) := run (k r) (tail env) (mkWorld d t) in
    (o, w', Called op false :: tr).
Proof.
  intros Hr. destruct env as [|[tk fl] env]; simpl.
  - unfold perform, tick. simpl. by destruct (exec_op op (now w) (db w)).
  - apply reachable_cons in Hr as [Hfl _]. simpl in Hfl. subst fl.
    unfold perform, tick. simpl. by destruct (exec_op op _ (db w)).
Qed.

(** An awaited call that the store fails. *)
Lemma run_Await_fail {A R : Type} (op : DbOp R) (k : Error + R -> Prog A) tk env w :
  run (Await op k) (mkEnv tk true :: env) w =
    let '(o, w', tr) := run (k (inl StorageFailure)) env (tick tk w) in
    (o, w', Called op true :: tr).
Proof. reflexivity. Qed.

Lemma run_Ret {A : Type} (a : A) env w : run (Ret a) env w = (Returned a, w, []).
Proof. reflexivity. Qed.

Lemma run_Throw {A : Type} (e : Error) env w : run (@Throw A e) env w = (Thrown e, w, []).
Proof. reflexivity. Qed.

Lemma run_NewDate {A : Type} (k : Date -> Prog A) env w :
  run (NewDate k) env w = run (k (now w)) env w.
Proof. reflexivity. Qed.

Lemma clock_after_take_S n e env t :
  clock_after (take (S n) (e :: env)) t = clock_after (take n env) (default t (env_tick e)).
Proof. reflexivity. Qed.

Lemma clock_after_2 env t :
  clock_after (take 2 env) t = clock_after (take 1 (tail env)) (clock_after (take 1 env) t).
Proof. by destruct env as [|e [|e' env]]. Qed.

(** ** The user lookups under updates *)

Lemma user_of_update i k u u' d :
  find_user i d = Some (k, u) -> User.id u' = i ->
  user_of i (set_users (λ us, <[k := u']> us) d) = Some u'.
Proof.
  intros Hf Hid. unfold user_of, find_user in *. simpl.
  by rewrite (list_find_insert _ _ _ _ _ Hf Hid).
Qed.

Lemma find_user_id i k u d : find_user i d = Some (k, u) -> User.id u = i.
Proof. intros H. by apply list_find_Some in H as (_ & ? & _). Qed.

Lemma user_of_Some i u d : user_of i d = Some u -> ∃ k, find_user i d = Some (k, u).
Proof.
  unfold user_of. destruct (find_user i d) as [[k v]|] eqn:E; [|done].
  intros [= ->]. eauto.
Qed.

Lemma user_of_None i d : user_of i d = None -> find_user i d = None.
Proof. unfold user_of. by destruct (find_user i d). Qed.

(** ** [addConnectionHistory] *)

Lemma addConnectionHistory_found i data env w k u0 :
  find_user i (db w) = Some (k, u0) -> reachable 2 env ->
  let t1 := clock_after (take 1 env) (now w) in
  let t2 := clock_after (take 2 env) (now w) in
  let h := JArr (slice_last 10
                   (array_or_empty (User.connectionHistory u0) ++ [connection_entry data t1])) in
  let u := history_update h t2 u0 in
  run (addConnectionHistory i data) env w =
    (Returned u, mkWorld (set_users (λ us, <[k := u]> us) (db w)) t2,
     [Called (user_findUnique_id i) false;
      Called (user_update_connectionHistory i h) false]).
Proof.
  intros Hf Hr. cbn zeta.
  assert (reachable 1 env) as Hr1 by (eapply reachable_le; [|done]; lia).
  assert (reachable 1 (tail env)) as Hr2.
  { destruct env as [|e env]; [apply reachable_nil|]. by apply reachable_cons in Hr as [_ ?]. }
  unfold addConnectionHistory, await, new_Date, mbind, Prog_bind. cbn [bind].
  rewrite run_Await by done.
  cbn [exec_op]. unfold user_of. rewrite Hf.
  cbn [fmap option_fmap option_map snd bind findUnique_by_id].
  rewrite run_NewDate, run_Await by done.
  cbn [exec_op now db]. unfold update_user. rewrite Hf.
  cbn [bind]. rewrite run_Ret, <- clock_after_2. reflexivity.
Qed.

Lemma addConnectionHistory_missing i data env w :
  find_user i (db w) = None -> reachable 1 env ->
  run (addConnectionHistory i data) env w =
    (Thrown (if is_ObjectId i then JsError "User not found" else MalformedObjectId),
     mkWorld (db w) (clock_after (take 1 env) (now w)),
     [Called (user_findUnique_id i) false]).
Proof.
  intros Hf Hr.
  unfold addConnectionHistory, await, mbind, Prog_bind. cbn [bind].
  rewrite run_Await by done.
  cbn [exec_op]. unfold user_of. rewrite Hf.
  cbn [fmap option_fmap option_map bind findUnique_by_id].
  destruct (is_ObjectId i); cbn [bind]; by rewrite run_Throw.
Qed.

Lemma reachable_0 env : reachable 0 env.
Proof. unfold reachable. rewrite take_0. constructor. Qed.

Ltac solve_reachable :=
  repeat (apply reachable_cons; split; [reflexivity|]);
  first [apply reachable_0 | apply reachable_nil | assumption].

(** One step of the interpreter on a body whose head is known. *)
Ltac run_step :=
  first [ rewrite run_Ret | rewrite run_Throw | rewrite run_NewDate
        | rewrite run_Await_fail | rewrite run_Await by solve_reachable ];
  cbn [bind tail now db].

(** Whatever the environment does, [addConnectionHistory] changes the store
    only by its one final update. *)
Lemma addConnectionHistory_thrown i data env w e w' tr :
  run (addConnectionHistory i data) env w = (Thrown e, w', tr) ->
  db w' = db w ∧ Forall (λ ev, event_is_write ev = false) tr.
Proof.
  unfold addConnectionHistory, await, new_Date, mbind, Prog_bind. cbn [bind].
  destruct env as [|[tk1 [|]] env]; run_step; try run_step;
    try (intros [= <- <- <-]; split; [done|]; by repeat constructor);
    cbn [exec_op]; unfold user_of;
    (destruct (find_user i (db w)) as [[k u0]|] eqn:Hf;
       cbn [fmap option_fmap option_map snd bind findUnique_by_id];
       [run_step
       |destruct (is_ObjectId i); cbn [bind]; run_step;
        (intros [= <- <- <-]; split; [done|]; by repeat constructor)]).
  - run_step. cbn [exec_op]. unfold update_user. rewrite Hf. cbn [bind]. by run_step.
  - destruct env as [|[tk2 [|]] env]; run_step; try run_step;
      try (intros [= <- <- <-]; split; [done|]; by repeat constructor);
      cbn [exec_op]; unfold update_user; rewrite Hf; cbn [bind]; by run_step.
Qed.

Lemma addConnectionHistory_returned i data env w u w' tr :
  run (addConnectionHistory i data) env w = (Returned u, w', tr) ->
  (∃ k u0, find_user i (db w) = Some (k, u0)) ∧ reachable 2 env.
Proof.
  unfold addConnectionHistory, await, new_Date, mbind, Prog_bind. cbn [bind].
  destruct env as [|[tk1 [|]] env]; run_step; try by run_step.
  - cbn [exec_op]. unfold user_of.
    destruct (find_user i (db w)) as [[k u0]|] eqn:Hf;
      cbn [fmap option_fmap option_map snd bind findUnique_by_id];
      [run_step|by destruct (is_ObjectId i); cbn [bind]; run_step].
    intros _. split; [eauto|apply reachable_nil].
  - cbn [exec_op]. unfold user_of.
    destruct (find_user i (db w)) as [[k u0]|] eqn:Hf;
      cbn [fmap option_fmap option_map snd bind findUnique_by_id];
      [run_step|by destruct (is_ObjectId i); cbn [bind]; run_step].
    destruct env as [|[tk2 [|]] env]; run_step; try by run_step.
    + intros _. split; [eauto|]. solve_reachable.
    + intros _. split; [eauto|]. solve_reachable.
Qed.

Lemma slice_last_app_l {A : Type} n (l k : list A) :
  slice_last n (slice_last n l ++ k) = slice_last n (l ++ k).
Proof.
  unfold slice_last. rewrite !length_app, length_drop.
  destruct (decide (length l ≤ n)%nat) as [Hle|Hgt].
  - replace (length l - n)%nat with 0%nat by lia. by rewrite Nat.sub_0_r.
  - replace (length l - (length l - n) + length k - n)%nat with (length k) by lia.
    replace (length l + length k - n)%nat with (length l - n + length k)%nat by lia.
    rewrite <- (drop_drop (l ++ k)). by rewrite (drop_app_le l) by lia.
Qed.

Lemma entries_length calls t : length (entries calls t) = length calls.
Proof.
  revert t. induction calls as [|[d env] calls IH]; intros t; simpl; [done|].
  by rewrite IH.
Qed.

Lemma history_of_user i d u : user_of i d = Some u -> history_of i d = Some (User.connectionHistory u).
Proof. unfold history_of. by intros ->. Qed.

(** The history after a sequence of successful [addConnectionHistory]
    calls for one user. *)
Lemma addConnectionHistory_all userId calls :
  ∀ w u0 outs w',
    user_of userId (db w) = Some u0 ->
    run_all (map (λ c, (addConnectionHistory userId c.1, c.2)) calls) w = (outs, w') ->
    Forall (λ o, is_returned o = true) outs ->
    calls ≠ [] ->
    history_of userId (db w') =
      Some (JArr (slice_last 10 (array_or_empty (User.connectionHistory u0)
                                   ++ entries calls (now w)))).
Proof.
  induction calls as [|[d env] calls IH]; intros w u0 outs w' Hu Hrun Hall Hne; [done|].
  cbn [map run_all fst snd] in Hrun.
  destruct (run (addConnectionHistory userId d) env w) as [[o w1] tr] eqn:Hcall.
  destruct (run_all _ w1) as [os w2] eqn:Hrest.
  injection Hrun as <- <-.
  apply Forall_cons in Hall as [Ho Hos].
  destruct o as [u|e]; [|done].
  pose proof (addConnectionHistory_returned _ _ _ _ _ _ _ Hcall) as [(k & u0' & Hf) Hr].
  assert (u0' = u0) as -> by (unfold user_of in Hu; rewrite Hf in Hu; by simplify_eq/=).
  rewrite (addConnectionHistory_found _ _ _ _ _ _ Hf Hr) in Hcall.
  injection Hcall as Eu Ew _.
  assert (user_of userId (db w1) = Some u) as Hu1.
  { rewrite <- Ew, <- Eu. apply (user_of_update _ _ u0); [done|].
    by apply find_user_id in Hf. }
  destruct calls as [|c calls].
  - cbn in Hrest. injection Hrest as <- <-.
    by rewrite (history_of_user _ _ _ Hu1), <- Eu.
  - rewrite (IH _ _ _ _ Hu1 Hrest Hos) by done.
    rewrite <- Eu, <- Ew.
    cbn [history_update User.connectionHistory array_or_empty entries now].
    rewrite slice_last_app_l, <- app_assoc. reflexivity.
Qed.

Lemma connection_entry_stamped data t : stamped data t (connection_entry data t).
Proof.
  eexists. split; [reflexivity|]. split.
  - apply lookup_insert_eq.
  - intros key Hkey. by apply lookup_insert_ne.
Qed.

Lemma entries_stamped calls t :
  Forall2 (λ e ct, stamped ct.1.1 ct.2 e) (entries calls t) (zip calls (stamps calls t)).
Proof.
  revert t. induction calls as [|[d env] calls IH]; intros t; cbn; constructor.
  - apply connection_entry_stamped.
  - apply IH.
Qed.

(** C1. A user's stored history is bounded by 10: every successful
    [addConnectionHistory] appends the connection data, merged with the time
    stamp of the clock of the call, after the entries already stored and
    then keeps the last 10, so that a sequence of successful calls leaves
    the last 10 of the old entries followed by the new ones, in the order of
    the calls; after 11 calls on an empty history these are the entries of
    calls 2 to 11. *)
Theorem connectionHistory_keeps_last_10 userId calls w u0 outs w' :
  user_of userId (db w) = Some u0 ->
  run_all (map (λ c, (addConnectionHistory userId c.1, c.2)) calls) w = (outs, w') ->
  Forall (λ o, is_returned o = true) outs ->
  calls ≠ [] ->
  let h0 := array_or_empty (User.connectionHistory u0) in
  ∃ es h,
    length es = length calls
    ∧ Forall2 (λ e ct, stamped ct.1.1 ct.2 e) es (zip calls (stamps calls (now w)))
    ∧ history_of userId (db w') = Some (JArr h)
    ∧ h = slice_last 10 (h0 ++ es)
    ∧ (length h ≤ 10)%nat
    ∧ (h0 = [] -> length calls = 11%nat -> h = drop 1 es).
Proof.
  intros Hu Hrun Hall Hne h0.
  exists (entries calls (now w)), (slice_last 10 (h0 ++ entries calls (now w))).
  split; [apply entries_length|]. split; [apply entries_stamped|]. split_and!.
  - by apply (addConnectionHistory_all _ _ _ _ _ _ Hu Hrun Hall).
  - done.
  - apply slice_last_length.
  - intros -> Hlen. unfold slice_last. simpl.
    by rewrite entries_length, Hlen.
Qed.

(** ** Updates that keep the key of a document *)

Lemma list_find_insert_same {A : Type} (P : A -> Prop) `{!∀ x, Decision (P x)}
    (l : list A) k x y :
  l !! k = Some x -> (P x <-> P y) ->
  list_find P (<[k := y]> l)
  = (λ jz, (jz.1, if decide (jz.1 = k) then y else jz.2)) <$> list_find P l.
Proof.
  revert k. induction l as [|a l IH]; intros k Hk Hxy; [done|].
  destruct k as [|k]; simpl in *.
  - simplify_eq. destruct (decide (P x)), (decide (P y)); try tauto.
    destruct (list_find P l) as [[j z]|]; by simpl.
  - destruct (decide (P a)); [done|].
    rewrite (IH _ Hk Hxy). destruct (list_find P l) as [[j z]|]; simpl; [|done].
    f_equal. f_equal. destruct (decide (j = k)), (decide (S j = S k)); congruence.
Qed.

Lemma user_of_update_other k u u' d j :
  users d !! k = Some u -> User.id u' = User.id u ->
  user_of j (set_users (λ us, <[k := u']> us) d)
  = (λ nv, if decide (nv.1 = k) then u' else nv.2) <$> find_user j d.
Proof.
  intros Hk Hid. unfold user_of, find_user. simpl.
  assert (User.id u = j <-> User.id u' = j) as Hiff by (by rewrite Hid).
  rewrite (list_find_insert_same (λ v, User.id v = j) _ _ u u' Hk Hiff).
  by destruct (list_find _ (users d)) as [[n z]|].
Qed.

(** ** The login counter never decreases *)

Lemma count_le_refl d : count_le d d.
Proof. intros i u Hu. exists u. split; [done|lia]. Qed.

Lemma count_le_trans d1 d2 d3 : count_le d1 d2 -> count_le d2 d3 -> count_le d1 d3.
Proof.
  intros H12 H23 i u Hu.
  destruct (H12 _ _ Hu) as (u2 & Hu2 & Hle2).
  destruct (H23 _ _ Hu2) as (u3 & Hu3 & Hle3).
  exists u3. split; [done|lia].
Qed.

Lemma count_le_update k u f d i :
  find_user i d = Some (k, u) -> User.id (f u) = User.id u ->
  User.loginCount u ≤ User.loginCount (f u) ->
  count_le d (set_users (λ us, <[k := f u]> us) d).
Proof.
  intros Hf Hid Hle j v Hv.
  pose proof Hf as (Hk & _ & _)%list_find_Some.
  rewrite (user_of_update_other k u (f u) d j) by done.
  apply user_of_Some in Hv as [k' Hv]. rewrite Hv. simpl.
  destruct (decide _) as [->|_].
  - exists (f u). split; [done|].
    unfold find_user in Hv. apply list_find_Some in Hv as (Hk' & _). by simplify_eq.
  - exists v. split; [done|lia].
Qed.

Lemma exec_op_count_le {R : Type} (op : DbOp R) t d :
  adds op -> count_le d (exec_op op t d).2.
Proof.
  intros Hop. destruct op; cbn [exec_op]; try apply count_le_refl.
  - destruct (find_user_by_walletAddress _ d); [apply count_le_refl|].
    intros i u Hu. exists u. split; [|lia]. cbn [snd].
    unfold user_of, find_user in *. simpl.
    destruct (list_find _ (users d)) as [[k v]|] eqn:E; [|done].
    by rewrite (list_find_app_l _ _ _ _ _ E).
  - unfold update_user. destruct (find_user id d) as [[k u]|] eqn:E;
      [|apply count_le_refl].
    apply (count_le_update k u (login_update _ _ _) d id); [done..|].
    simpl in *. lia.
  - unfold update_user. destruct (find_user id d) as [[k u]|] eqn:E;
      [|apply count_le_refl].
    apply (count_le_update k u (history_update _ _) d id); [done..|].
    simpl. lia.
  - intros i u Hu. exists u. split; [done|lia].
  - destruct (find_nft _ d) as [[k n]|]; [|apply count_le_refl].
    intros i u Hu. exists u. split; [done|lia].
  - intros i u Hu. exists u. split; [done|lia].
  - destruct (find_transaction_by_txHash _ d); [apply count_le_refl|].
    intros i u Hu. exists u. split; [done|lia].
  - destruct (find_transaction_by_txHash _ d) as [[k x]|]; [|apply count_le_refl].
    intros i u Hu. exists u. split; [done|lia].
Qed.

Lemma calls_only_bind P {A B : Type} (p : Prog A) (f : A -> Prog B) :
  calls_only P p -> (∀ a, calls_only P (f a)) -> calls_only P (bind p f).
Proof.
  intros Hp Hf. induction Hp; cbn [bind]; [done|by constructor..].
Qed.

Lemma calls_only_await P {R : Type} (op : DbOp R) : P R op -> calls_only P (await op).
Proof. intros H. constructor; [done|]. intros [e|x]; constructor. Qed.

(** A property of the store that every allowed call passes on is passed on
    by a whole body, whatever the environment does. *)
Lemma run_preserves (P : ∀ R, DbOp R -> Prop) (I : DB -> DB -> Prop) :
  (∀ d, I d d) -> (∀ d1 d2 d3, I d1 d2 -> I d2 d3 -> I d1 d3) ->
  (∀ R (op : DbOp R) t d, P R op -> I d (exec_op op t d).2) ->
  ∀ A (p : Prog A), calls_only P p -> ∀ env w, I (db w) (db (run p env w).1.2).
Proof.
  intros Hrefl Htrans Hop A p Hp. induction Hp as [| | k _ IH | R op k Hpop _ IH];
    intros env w; cbn [run]; [apply Hrefl..| apply IH |].
  set (e := default _ (head env)).
  unfold perform. destruct (env_fail e).
  - specialize (IH (inl StorageFailure) (tail env) (tick (env_tick e) w)).
    destruct (run _ _ _) as [[o w2] tr]. apply IH.
  - pose proof (Hop _ op (now (tick (env_tick e) w)) (db w) Hpop) as H1.
    cbn [tick db]. destruct (exec_op op _ (db w)) as [r d'].
    specialize (IH r (tail env) (mkWorld d' (now (tick (env_tick e) w)))).
    destruct (run _ _ _) as [[o w2] tr]. cbn [fst snd db] in *.
    by eapply Htrans.
Qed.

Lemma invoke_adds o : calls_only (@adds) (projT2 (invoke o)).
Proof.
  destruct o; cbn [invoke projT2];
    unfold findUserByWalletAddress, createUser, updateUserLogin, getUserById,
      addConnectionHistory, createNFT, getNFTsByOwner, getNFTById, updateNFTMintStatus,
      createCollection, getCollectionsByOwner, getPublicCollections, createTransaction,
      updateTransactionStatus, new_Date, mbind, mret, Prog_bind, Prog_ret;
    repeat first
      [ apply calls_only_await; cbn [adds]; lia
      | apply calls_only_await; exact I
      | apply calls_only_bind
      | match goal with |- calls_only _ (match ?x with _ => _ end) => destruct x end
      | progress intros
      | constructor ].
Qed.

(** ** Sequencing *)

Lemma run_bind {A B : Type} (p : Prog A) (f : A -> Prog B) env w :
  run (bind p f) env w =
    let '(o, w1, tr1) := run p env w in
    match o with
    | Returned a =>
        let '(o2, w2, tr2) := run (f a) (drop (length tr1) env) w1 in
        (o2, w2, tr1 ++ tr2)
    | Thrown e => (Thrown e, w1, tr1)
    end.
Proof.
  revert env w. induction p as [a|e|k IH|R op k IH]; intros env w; cbn [bind run].
  - cbn [length]. rewrite drop_0. by destruct (run (f a) env w) as [[o2 w2] tr2].
  - done.
  - apply IH.
  - destruct (perform op _ _) as [r w1]. rewrite IH.
    destruct (run (k r) (tail env) w1) as [[o w2] tr1].
    destruct o as [a|e]; [|done].
    replace (drop (length (Called op (env_fail (default (mkEnv None false) (head env)))
                             :: tr1)) env)
      with (drop (length tr1) (tail env))
      by (destruct env; cbn [length tail drop]; [by rewrite ?drop_nil|done]).
    by destruct (run (f a) _ w2) as [[o2 w3] tr2].
Qed.

Lemma run_try_catch {A : Type} (p : Prog A) (h : Error -> Prog A) env w :
  run (try_catch p h) env w =
    let '(o, w1, tr1) := run p env w in
    match o with
    | Returned a => (Returned a, w1, tr1)
    | Thrown e =>
        let '(o2, w2, tr2) := run (h e) (drop (length tr1) env) w1 in
        (o2, w2, tr1 ++ tr2)
    end.
Proof.
  revert env w. induction p as [a|e|k IH|R op k IH]; intros env w; cbn [try_catch run].
  - done.
  - cbn [length]. rewrite drop_0. by destruct (run (h e) env w) as [[o2 w2] tr2].
  - apply IH.
  - destruct (perform op _ _) as [r w1]. rewrite IH.
    destruct (run (k r) (tail env) w1) as [[o w2] tr1].
    destruct o as [a|e]; [done|].
    replace (drop (length (Called op (env_fail (default (mkEnv None false) (head env)))
                             :: tr1)) env)
      with (drop (length tr1) (tail env))
      by (destruct env; cbn [length tail drop]; [by rewrite ?drop_nil|done]).
    by destruct (run (h e) _ w2) as [[o2 w3] tr2].
Qed.

Lemma reachable_drop n m env : reachable (n + m) env -> reachable m (drop n env).
Proof.
  revert env. induction n as [|n IH]; intros env H; [done|].
  destruct env as [|e env]; [rewrite drop_nil; apply reachable_nil|].
  apply reachable_cons in H as [_ H]. by apply IH.
Qed.

(** ** [updateUserLogin] and [createUser] *)

Lemma updateUserLogin_found i env w k u0 :
  find_user i (db w) = Some (k, u0) -> reachable 1 env ->
  let t := clock_after (take 1 env) (now w) in
  let u := login_update (now w) 1 t u0 in
  run (updateUserLogin i) env w =
    (Returned u, mkWorld (set_users (λ us, <[k := u]> us) (db w)) t,
     [Called (user_update_login i (now w) 1) false]).
Proof.
  intros Hf Hr. cbn zeta.
  unfold updateUserLogin, await, new_Date, mbind, Prog_bind. cbn [bind].
  do 2 run_step. cbn [exec_op]. unfold update_user. rewrite Hf.
  cbn [bind]. by run_step.
Qed.

Lemma user_of_created i u d :
  find_user i d = None -> User.id u = i ->
  user_of i (set_users (λ us, us ++ [u]) d) = Some u.
Proof.
  intros Hf Hid. unfold user_of, find_user in *. simpl.
  rewrite list_find_app_r by done. simpl.
  by destruct (decide (User.id u = i)).
Qed.

Lemma find_user_fresh d : find_user (new_ObjectId (User.id <$> users d)) d = None.
Proof.
  apply list_find_None, Forall_forall. intros u Hu E.
  apply (new_ObjectId_fresh (User.id <$> users d)).
  rewrite <- E. by apply list_elem_of_fmap_2.
Qed.

Lemma createUser_new a env w :
  find_user_by_walletAddress a (db w) = None -> reachable 1 env ->
  let t := clock_after (take 1 env) (now w) in
  let u := User.mk (new_ObjectId (User.id <$> users (db w))) a t t None 0 (JArr []) in
  run (createUser a) env w =
    (Returned (ClientSessionUser.mk (User.id u) a),
     mkWorld (set_users (λ us, us ++ [u]) (db w)) t,
     [Called (user_create a (JArr [])) false]).
Proof.
  intros Hf Hr. cbn zeta.
  unfold createUser, await, mbind, mret, Prog_bind, Prog_ret. cbn [bind].
  run_step. cbn [exec_op]. rewrite Hf. cbn [bind]. by run_step.
Qed.

Lemma createUser_taken a env w x :
  find_user_by_walletAddress a (db w) = Some x -> reachable 1 env ->
  run (createUser a) env w =
    (Thrown UniqueConstraintViolation,
     mkWorld (db w) (clock_after (take 1 env) (now w)),
     [Called (user_create a (JArr [])) false]).
Proof.
  intros Hf Hr.
  unfold createUser, await, mbind, mret, Prog_bind, Prog_ret. cbn [bind].
  run_step. cbn [exec_op]. rewrite Hf. cbn [bind]. by run_step.
Qed.

(** C5. For a stored user, [updateUserLogin] adds exactly 1 to
    [loginCount] and sets [lastLoginAt] to the clock of the call; and no
    exported function of the repository, whatever the environment does,
    removes a stored user or lowers its [loginCount]. *)
Theorem loginCount_never_decreases :
  (∀ userId env w u0,
     user_of userId (db w) = Some u0 -> reachable 1 env ->
     ∃ u w' tr,
       run (updateUserLogin userId) env w = (Returned u, w', tr)
       ∧ user_of userId (db w') = Some u
       ∧ User.loginCount u = User.loginCount u0 + 1
       ∧ User.lastLoginAt u = Some (now w))
  ∧ (∀ o env w i u,
       user_of i (db w) = Some u ->
       ∃ u', user_of i (db_after o env w) = Some u'
             ∧ User.loginCount u ≤ User.loginCount u').
Proof.
  split.
  - intros userId env w u0 Hu Hr.
    apply user_of_Some in Hu as [k Hf].
    eexists _, _, _. split; [by apply updateUserLogin_found|].
    split_and!; [|done..].
    apply (user_of_update _ _ u0); [done|]. by apply find_user_id in Hf.
  - intros o env w i u Hu. unfold db_after.
    by apply (run_preserves (@adds) count_le count_le_refl count_le_trans
                (@exec_op_count_le) _ _ (invoke_adds o) env w).
Qed.

(** C9. [addConnectionHistory] for an identifier under which no user is
    stored leaves the store as it is and makes no writing call, whatever the
    environment does.  When its lookup reaches the store, it throws
    "User not found" if the identifier is a well-formed ObjectId; if it is
    not, the lookup itself is rejected by the store and [addConnectionHistory]
    throws that error instead. *)
Theorem addConnectionHistory_unknown_user userId data env w o w' tr :
  user_of userId (db w) = None ->
  run (addConnectionHistory userId data) env w = (o, w', tr) ->
  db w' = db w
  ∧ Forall (λ ev, event_is_write ev = false) tr
  ∧ (reachable 1 env ->
     (is_ObjectId userId = true -> o = Thrown (JsError "User not found"))
     ∧ (is_ObjectId userId = false -> o = Thrown MalformedObjectId)).
Proof.
  intros Hu%user_of_None Hrun. destruct o as [u|e].
  - apply addConnectionHistory_returned in Hrun as [(k & u0 & Hf) _]. congruence.
  - destruct (addConnectionHistory_thrown _ _ _ _ _ _ _ Hrun) as [Hdb Htr].
    split_and!; [done..|]. intros Hr.
    rewrite (addConnectionHistory_missing _ _ _ _ Hu Hr) in Hrun.
    split; intros Hid; rewrite Hid in Hrun; congruence.
Qed.

(** C10. When the stored history of a user is not an array,
    [addConnectionHistory] does not throw (the store being reachable): it
    takes the history for empty and stores the one new entry. *)
Theorem addConnectionHistory_malformed_history userId data env w u0 :
  user_of userId (db w) = Some u0 ->
  isArray (User.connectionHistory u0) = false ->
  reachable 2 env ->
  ∃ u w' tr,
    run (addConnectionHistory userId data) env w = (Returned u, w', tr)
    ∧ User.connectionHistory u
      = JArr [connection_entry data (clock_after (take 1 env) (now w))]
    ∧ history_of userId (db w') = Some (User.connectionHistory u).
Proof.
  intros [k Hf]%user_of_Some Harr Hr.
  eexists _, _, _. split; [by apply addConnectionHistory_found|]. split.
  - cbn [history_update User.connectionHistory].
    by destruct (User.connectionHistory u0).
  - apply history_of_user, (user_of_update _ _ u0); [done|].
    by apply find_user_id in Hf.
Qed.

Lemma find_user_update i k u u' d :
  find_user i d = Some (k, u) -> User.id u' = i ->
  find_user i (set_users (λ us, <[k := u']> us) d) = Some (k, u').
Proof. intros Hf Hid. unfold find_user in *. simpl. by apply (list_find_insert _ _ _ u). Qed.

Lemma find_user_created i u d :
  find_user i d = None -> User.id u = i ->
  find_user i (set_users (λ us, us ++ [u]) d) = Some (length (users d), u).
Proof.
  intros Hf Hid. unfold find_user in *. simpl.
  rewrite list_find_app_r by done. simpl.
  by destruct (decide (User.id u = i)).
Qed.

Lemma registered_update a k u u' d :
  registered a k u d ->
  User.id u' = User.id u -> User.walletAddress u' = User.walletAddress u ->
  registered a k u' (set_users (λ us, <[k := u']> us) d).
Proof.
  intros [Hw Hi] Hid Hwal. split.
  - unfold find_user_by_walletAddress in *. simpl.
    apply (list_find_insert _ _ _ u); [done|].
    rewrite Hwal. by apply list_find_Some in Hw as (_ & ? & _).
  - rewrite Hid. by apply (find_user_update _ _ u).
Qed.

(** The bookkeeping of a login on a stored user: the counter and the stamp,
    then the history. *)
Lemma login_bookkeeping_found i data env w k u0 :
  find_user i (db w) = Some (k, u0) -> reachable 3 env ->
  ∃ u w' tr,
    run (_ ← updateUserLogin i; addConnectionHistory i data) env w = (Returned u, w', tr)
    ∧ find_user i (db w') = Some (k, u)
    ∧ User.loginCount u = User.loginCount u0 + 1
    ∧ User.lastLoginAt u = Some (now w)
    ∧ User.connectionHistory u
      = JArr (slice_last 10 (array_or_empty (User.connectionHistory u0)
                ++ [connection_entry data (clock_after (take 2 env) (now w))]))
    ∧ (∀ a, registered a k u0 (db w) -> registered a k u (db w')).
Proof.
  intros Hf Hr. unfold mbind, Prog_bind at 1. rewrite run_bind.
  rewrite (updateUserLogin_found _ _ _ _ _ Hf) by (eapply reachable_le; [|done]; lia).
  cbn [length].
  set (u1 := login_update _ _ _ u0). set (w1 := mkWorld _ _).
  assert (find_user i (db w1) = Some (k, u1)) as Hf1.
  { apply (find_user_update _ _ u0); [done|]. by apply find_user_id in Hf. }
  rewrite (addConnectionHistory_found _ _ _ _ _ _ Hf1) by (by apply (reachable_drop 1 2)).
  eexists _, _, _. split; [reflexivity|]. split_and!.
  - apply (find_user_update _ _ u1); [done|]. by apply find_user_id in Hf.
  - done.
  - done.
  - cbn [history_update User.connectionHistory]. do 4 f_equal.
    subst w1. cbn [now]. by destruct env as [|e1 [|e2 env]].
  - intros a Hreg. cbn [db].
    apply (registered_update _ _ u1); [|done..].
    by apply (registered_update _ _ u0).
Qed.

(** C8. [createUser] for a wallet address not yet stored persists one new
    record, with an empty history and the counter at its default 0, and
    returns the identifier and the wallet address of that record; the
    bookkeeping of the first login then brings the counter to 1. *)
Theorem createUser_fresh_record a env w :
  find_user_by_walletAddress a (db w) = None ->
  reachable 1 env ->
  ∃ u w' tr,
    run (createUser a) env w = (Returned (ClientSessionUser.mk (User.id u) a), w', tr)
    ∧ users (db w') = users (db w) ++ [u]
    ∧ user_of (User.id u) (db w') = Some u
    ∧ User.walletAddress u = a
    ∧ User.connectionHistory u = JArr []
    ∧ User.loginCount u = 0
    ∧ ∀ data env', reachable 3 env' ->
        ∃ u1 w1 tr1,
          run (_ ← updateUserLogin (User.id u); addConnectionHistory (User.id u) data)
            env' w' = (Returned u1, w1, tr1)
          ∧ user_of (User.id u) (db w1) = Some u1
          ∧ User.loginCount u1 = 1.
Proof.
  intros Hf Hr. eexists _, _, _. split; [by apply createUser_new|].
  cbn [db users set_users User.id User.walletAddress User.connectionHistory
       User.loginCount].
  split_and!; try done.
  - apply user_of_created; [apply find_user_fresh|done].
  - intros data env' Hr'.
    set (u := User.mk _ _ _ _ _ _ _). set (w' := mkWorld _ _).
    assert (find_user (User.id u) (db w') = Some (length (users (db w)), u)) as Hf'.
    { apply find_user_created; [apply find_user_fresh|done]. }
    destruct (login_bookkeeping_found _ data _ _ _ _ Hf' Hr')
      as (u1 & w1 & tr1 & Hrun & Hf1 & Hc & _).
    exists u1, w1, tr1. split_and!; [done| |by rewrite Hc].
    unfold user_of. subst u. cbn [User.id] in Hf1. by rewrite Hf1.
Qed.

(** ** The routes *)

Section RouteProperties.

Variable verifyAuth : NextRequest -> Prog (option AuthUser.t).
Variable is_url : string -> bool.
Variable trim : string -> string.

(** A guarded body stops at the guard when [verifyAuth] resolves to no
    user: the route does nothing beyond what the validation did. *)
Lemma guard_rejects (request : NextRequest) (k : AuthUser.t -> Prog Response)
    (h : Error -> Prog Response) env w w' tr :
  run (verifyAuth request) env w = (Returned None, w', tr) ->
  run (try_catch
         (user ← verifyAuth request;
          match user with
          | None => Ret unauthorized
          | Some user => k user
          end) h) env w
  = (Returned unauthorized, w', tr).
Proof.
  intros Hv. unfold mbind, Prog_bind.
  rewrite run_try_catch, run_bind, Hv, run_Ret. cbn. by rewrite app_nil_r.
Qed.

(** C6. When the credential validation of a request yields no user (and,
    being stateless, touches nothing), each protected route answers 401 with
    the error body "Unauthorized", makes no call to the repository and
    leaves the store as it is.  [GET /api/collections] is protected unless
    its query has [public=true]. *)
Theorem unauthenticated_request_is_rejected request env w :
  run (verifyAuth request) env w = (Returned None, w, []) ->
  let rejected := (Returned (mkResponse (error_body "Unauthorized" None) 401), w, []) in
  run (GET_nfts verifyAuth request) env w = rejected
  ∧ run (POST_nfts verifyAuth is_url trim request) env w = rejected
  ∧ run (POST_nfts_mint verifyAuth request) env w = rejected
  ∧ (searchParams_get "public" request ≠ Some "true" ->
     run (GET_collections verifyAuth request) env w = rejected)
  ∧ run (POST_collections verifyAuth is_url request) env w = rejected.
Proof.
  intros Hv rejected. split_and!; try by apply guard_rejects.
  intros Hq. unfold GET_collections.
  rewrite bool_decide_eq_false_2 by done. by apply guard_rejects.
Qed.

(** C7. An authenticated mint request with a well-formed body is refused
    without any change of the store, the lookup of the NFT being the only
    call made after the validation: 403 when the owner of the NFT is not the
    authenticated user, 400 when it is the user's and already minted, 404
    when no NFT is stored under an [nftId] that is a well-formed ObjectId.
    The schema only asks [nftId] to be a non-empty string: for one that is
    not an ObjectId the lookup is rejected by the store and the answer is
    500. *)
Theorem mint_is_refused request env w user w1 tr1 j data :
  run (verifyAuth request) env w = (Returned (Some user), w1, tr1) ->
  body request = Some j ->
  mintNFTSchema j = inr data ->
  reachable 1 (drop (length tr1) env) ->
  let w' := mkWorld (db w1) (clock_after (take 1 (drop (length tr1) env)) (now w1)) in
  let tr := tr1 ++ [Called (nFT_findUnique_id (mint_nftId data)) false] in
  let refused message code :=
    run (POST_nfts_mint verifyAuth request) env w
    = (Returned (mkResponse (error_body message None) code), w', tr) in
  (nft_of (mint_nftId data) (db w1) = None ->
   is_ObjectId (mint_nftId data) = true ->
   refused "NFT not found" 404)
  ∧ (nft_of (mint_nftId data) (db w1) = None ->
     is_ObjectId (mint_nftId data) = false ->
     refused "Internal server error" 500)
  ∧ (∀ n, nft_of (mint_nftId data) (db w1) = Some n ->
          NFT.ownerId n ≠ AuthUser.userId user ->
          refused "Unauthorized to mint this NFT" 403)
  ∧ (∀ n, nft_of (mint_nftId data) (db w1) = Some n ->
          NFT.ownerId n = AuthUser.userId user ->
          NFT.isMinted n = true ->
          refused "NFT is already minted" 400).
Proof.
  intros Hv Hb Hp Hr w' tr refused. subst refused. cbn beta.
  unfold POST_nfts_mint, request_json, parse, getNFTById, await, mbind, Prog_bind.
  rewrite run_try_catch, run_bind, Hv, Hb. cbn [bind]. rewrite Hp. cbn [bind].
  rewrite run_Await by done. cbn [exec_op].
  split_and!.
  - intros -> Hid. cbn [fmap option_fmap option_map bind findUnique_by_id].
    rewrite Hid. cbn [bind]. by rewrite run_Ret.
  - intros -> Hid. cbn [fmap option_fmap option_map bind findUnique_by_id].
    rewrite Hid. cbn [bind try_catch]. rewrite run_Throw. unfold on_error. cbn [isZodError]. rewrite run_Ret.
    by rewrite app_nil_r.
  - intros n -> Hne. cbn [fmap option_fmap option_map bind nf_nft findUnique_by_id].
    rewrite bool_decide_eq_true_2 by done. by rewrite run_Ret.
  - intros n -> Heq Hm. cbn [fmap option_fmap option_map bind nf_nft findUnique_by_id].
    rewrite bool_decide_eq_false_2 by (by intros ?). rewrite Hm. by rewrite run_Ret.
Qed.

End RouteProperties.

(** ** The recorder sequence under failures of the store *)

Lemma registered_found a k u d :
  registered a k u d ->
  exec_op (user_findUnique_walletAddress a) 0 d
  = (inr (Some (mkUserWithRelations u (nfts_of_owner (User.id u) d)
                  (collections_of_owner (User.id u) d))), d).
Proof. intros [Hw _]. cbn [exec_op]. by rewrite Hw. Qed.

(** The recorder sequence on a registered wallet address, once its lookup
    has succeeded. *)
Lemma recordLogin_registered a data env w k u0 :
  registered a k u0 (db w) -> reachable 1 env ->
  run (recordLogin a data) env w =
    let '(o, w', tr) :=
      run (_ ← updateUserLogin (User.id u0); addConnectionHistory (User.id u0) data)
        (tail env) (mkWorld (db w) (clock_after (take 1 env) (now w))) in
    (o, w', Called (user_findUnique_walletAddress a) false :: tr).
Proof.
  intros [Hw _] Hr.
  unfold recordLogin, findUserByWalletAddress, await, mbind, Prog_bind. cbn [bind].
  rewrite run_Await by done. cbn [exec_op]. rewrite Hw.
  cbn [fmap option_fmap option_map bind uwr_user findUnique_by_id]. reflexivity.
Qed.

Lemma recordLogin_lookup_fails a data tk env w :
  run (recordLogin a data) (mkEnv tk true :: env) w =
    (Thrown StorageFailure, tick tk w, [Called (user_findUnique_walletAddress a) true]).
Proof. reflexivity. Qed.

(** The bookkeeping of a login when the store may fail: a failure stops the
    sequence where it occurs and leaves what the calls before it did. *)
Lemma login_bookkeeping_thrown i data env w k u0 e w' tr :
  find_user i (db w) = Some (k, u0) ->
  run (_ ← updateUserLogin i; addConnectionHistory i data) env w = (Thrown e, w', tr) ->
  e = StorageFailure
  ∧ (db w' = db w
     ∨ ∃ t, db w' = set_users (λ us, <[k := login_update (now w) 1 t u0]> us) (db w)).
Proof.
  intros Hf.
  unfold updateUserLogin, addConnectionHistory, await, new_Date, mbind, Prog_bind.
  cbn [bind]. run_step.
  destruct env as [|[tk1 [|]] env]; run_step; try run_step;
    try (intros [= <- <- <-]; split; [done|by left]);
    cbn [exec_op]; unfold update_user; rewrite Hf; cbn [bind];
    set (u1 := login_update _ _ _ u0);
    (assert (find_user i (set_users (λ us, <[k := u1]> us) (db w)) = Some (k, u1))
       as Hf1 by (apply (find_user_update _ _ u0); [done|by apply find_user_id in Hf])).
  - run_step. cbn [exec_op]. unfold user_of. rewrite Hf1.
    cbn [fmap option_fmap option_map snd bind findUnique_by_id]. do 2 run_step.
    cbn [exec_op]. unfold update_user. rewrite Hf1. cbn [bind]. by run_step.
  - destruct env as [|[tk2 [|]] env]; run_step; try run_step;
      try (intros [= <- <- <-]; split; [done|right; by eexists]);
      cbn [exec_op]; unfold user_of; rewrite Hf1;
      cbn [fmap option_fmap option_map snd bind findUnique_by_id]; run_step.
    + run_step. cbn [exec_op]. unfold update_user. rewrite Hf1. cbn [bind]. by run_step.
    + destruct env as [|[tk3 [|]] env]; run_step; try run_step;
        try (intros [= <- <- <-]; split; [done|right; by eexists]);
        cbn [exec_op]; unfold update_user; rewrite Hf1; cbn [bind]; by run_step.
Qed.

Lemma login_bookkeeping_returned i data env w u w' tr :
  run (_ ← updateUserLogin i; addConnectionHistory i data) env w = (Returned u, w', tr) ->
  reachable 3 env.
Proof.
  unfold mbind, Prog_bind at 1. rewrite run_bind.
  destruct (run (updateUserLogin i) env w) as [[o1 w1] tr1] eqn:H1.
  destruct o1 as [u1|e1]; [|done].
  destruct (run (addConnectionHistory i data) _ w1) as [[o2 w2] tr2] eqn:H2.
  intros [= -> <- <-].
  apply addConnectionHistory_returned in H2 as [_ Hr2].
  revert H1 Hr2.
  unfold updateUserLogin, await, new_Date, mbind, Prog_bind. cbn [bind]. run_step.
  destruct env as [|[tk1 [|]] env]; [intros; apply reachable_nil|by run_step; run_step|].
  run_step. destruct (exec_op _ _ _) as [[e|x] d]; cbn [bind]; run_step; [done|].
  intros [= <- <- <-]. cbn [length drop]. intros Hr. by apply reachable_cons.
Qed.

(** The recorder sequence on a wallet address that is not stored, once its
    lookup has found nothing: the record is created, then the bookkeeping
    runs on the new identifier. *)
Lemma recordLogin_unregistered a data env w :
  find_user_by_walletAddress a (db w) = None -> reachable 1 env ->
  let w1 := mkWorld (db w) (clock_after (take 1 env) (now w)) in
  run (recordLogin a data) env w =
    match run (createUser a) (tail env) w1 with
    | (Returned c, w2, tr2) =>
        let '(o, w', tr) :=
          run (_ ← updateUserLogin (ClientSessionUser.id c);
               addConnectionHistory (ClientSessionUser.id c) data)
            (drop (length tr2) (tail env)) w2 in
        (o, w', Called (user_findUnique_walletAddress a) false :: tr2 ++ tr)
    | (Thrown e, w2, tr2) =>
        (Thrown e, w2, Called (user_findUnique_walletAddress a) false :: tr2)
    end.
Proof.
  intros Hw Hr w1.
  unfold recordLogin, findUserByWalletAddress, await. unfold mbind at 1, Prog_bind at 1.
  cbn [bind]. rewrite run_Await by done. cbn [exec_op]. rewrite Hw.
  cbn [fmap option_fmap option_map bind]. fold w1.
  unfold mbind at 1, Prog_bind at 1. rewrite run_bind.
  unfold mbind at 1, Prog_bind at 1. rewrite run_bind.
  destruct (run (createUser a) (tail env) w1) as [[[c|e] w2] tr2]; [|done].
  rewrite run_Ret, app_nil_r.
  by destruct (run _ (drop (length tr2) (tail env)) w2) as [[o w'] tr].
Qed.

Lemma reachable_app n m env :
  reachable n env -> reachable m (drop n env) -> reachable (n + m) env.
Proof.
  revert env. induction n as [|n IH]; intros env Hn Hm; [done|].
  destruct env as [|e env]; [apply reachable_nil|].
  apply reachable_cons in Hn as [He Hn]. cbn [Nat.add]. apply reachable_cons.
  split; [done|]. by apply IH.
Qed.

(** The store after the bookkeeping of a login that returns. *)
Lemma login_bookkeeping_db i data env w k u0 u w' tr :
  find_user i (db w) = Some (k, u0) ->
  run (_ ← updateUserLogin i; addConnectionHistory i data) env w = (Returned u, w', tr) ->
  db w' = set_users (λ us, <[k := u]> us) (db w).
Proof.
  intros Hf Hrun. pose proof (login_bookkeeping_returned _ _ _ _ _ _ _ Hrun) as Hr.
  revert Hrun. unfold mbind, Prog_bind at 1. rewrite run_bind.
  rewrite (updateUserLogin_found _ _ _ _ _ Hf) by (eapply reachable_le; [|done]; lia).
  cbn [length].
  set (u1 := login_update _ _ _ u0). set (w1 := mkWorld _ _).
  assert (find_user i (db w1) = Some (k, u1)) as Hf1.
  { apply (find_user_update _ _ u0); [done|]. by apply find_user_id in Hf. }
  rewrite (addConnectionHistory_found _ _ _ _ _ _ Hf1) by (by apply (reachable_drop 1 2)).
  intros [= <- <- <-]. subst w1. cbn [db]. unfold set_users.
  cbn [users nfts collections transactions]. by rewrite list_insert_insert_eq.
Qed.

(** The recorder sequence on a wallet address that is not stored, when its
    lookup and its creation reach the store. *)
Lemma recordLogin_created a data env w :
  find_user_by_walletAddress a (db w) = None -> reachable 2 env ->
  ∃ u0 w2,
    db w2 = set_users (λ us, us ++ [u0]) (db w)
    ∧ registered a (length (users (db w))) u0 (db w2)
    ∧ User.walletAddress u0 = a
    ∧ User.loginCount u0 = 0
    ∧ User.lastLoginAt u0 = None
    ∧ User.connectionHistory u0 = JArr []
    ∧ run (recordLogin a data) env w =
        let '(o, w', tr) :=
          run (_ ← updateUserLogin (User.id u0); addConnectionHistory (User.id u0) data)
            (drop 2 env) w2 in
        (o, w', Called (user_findUnique_walletAddress a) false
                  :: Called (user_create a (JArr [])) false :: tr).
Proof.
  intros Hw Hr.
  assert (reachable 1 env) as Hr1 by (eapply reachable_le; [|done]; lia).
  assert (reachable 1 (tail env)) as Hr2.
  { destruct env as [|e env]; [apply reachable_nil|]. by apply reachable_cons in Hr as [_ ?]. }
  rewrite (recordLogin_unregistered _ _ _ _ Hw Hr1). cbn zeta.
  set (w1 := mkWorld _ _).
  rewrite (createUser_new a (tail env) w1 Hw Hr2). cbn zeta.
  set (u0 := User.mk _ _ _ _ _ _ _). set (w2 := mkWorld _ _).
  exists u0, w2. split_and!; try done.
  - split.
    + unfold find_user_by_walletAddress in *. subst w2 w1. cbn [db set_users users].
      rewrite list_find_app_r by done. cbn. rewrite decide_True by done. cbn.
      do 2 f_equal; lia.
    + apply (find_user_created _ u0 (db w1)); [apply find_user_fresh|done].
  - cbn [length ClientSessionUser.id User.id u0].
    replace (drop 1 (tail env)) with (drop 2 env) by (by destruct env).
    by destruct (run _ (drop 2 env) w2) as [[o w'] tr].
Qed.

Lemma createUser_fails a tk env w :
  run (createUser a) (mkEnv tk true :: env) w
  = (Thrown StorageFailure, tick tk w, [Called (user_create a (JArr [])) true]).
Proof. reflexivity. Qed.

(** C3, as the code has it.  The recorder sequence commits call by call and
    is not undone.  On a registered wallet address it makes four calls; on
    one that is not stored it makes five, the second creating the record.
    It returns exactly when the store fails none of them, and then the
    counter, the stamp and the history entry are all stored.  When a call is
    failed the login fails with that failure and the store keeps what the
    calls before it did: nothing; or the new record, not yet logged in; or
    the incremented counter and the new [lastLoginAt] without the history
    entry. *)
Theorem recordLogin_commits_call_by_call a data env w o w' tr :
  run (recordLogin a data) env w = (o, w', tr) ->
  (∀ k u0,
     registered a k u0 (db w) ->
     (reachable 4 env <-> is_returned o = true)
     ∧ match o with
       | Returned u =>
           registered a k u (db w')
           ∧ User.loginCount u = User.loginCount u0 + 1
           ∧ (∃ t, User.lastLoginAt u = Some t)
           ∧ (∃ t, User.connectionHistory u
                   = JArr (slice_last 10 (array_or_empty (User.connectionHistory u0)
                                            ++ [connection_entry data t]))
                   ∧ stamped data t (connection_entry data t))
       | Thrown e =>
           e = StorageFailure
           ∧ (db w' = db w
              ∨ ∃ t t', db w' = set_users (λ us, <[k := login_update t 1 t' u0]> us) (db w))
       end)
  ∧ (find_user_by_walletAddress a (db w) = None ->
     (reachable 5 env <-> is_returned o = true)
     ∧ match o with
       | Returned u =>
           db w' = set_users (λ us, us ++ [u]) (db w)
           ∧ User.walletAddress u = a
           ∧ User.loginCount u = 1
           ∧ (∃ t, User.lastLoginAt u = Some t)
           ∧ (∃ t e, User.connectionHistory u = JArr [e] ∧ stamped data t e)
       | Thrown e =>
           e = StorageFailure
           ∧ (db w' = db w
              ∨ ∃ u, db w' = set_users (λ us, us ++ [u]) (db w)
                     ∧ User.walletAddress u = a
                     ∧ User.connectionHistory u = JArr []
                     ∧ ((User.loginCount u = 0 ∧ User.lastLoginAt u = None)
                        ∨ (User.loginCount u = 1 ∧ ∃ t, User.lastLoginAt u = Some t)))
       end).
Proof.
  intros Hrun. split.
  - intros k u0 Hreg. destruct env as [|[tk1 [|]] env].
    + rewrite (recordLogin_registered _ _ _ _ k u0) in Hrun by (done || apply reachable_nil).
      destruct (login_bookkeeping_found (User.id u0) data [] (mkWorld (db w) (now w)) k u0)
        as (u & w2 & tr2 & Hb & _ & Hc & Hl & Hh & Hr); [apply Hreg|apply reachable_nil|].
      cbn [tail take clock_after foldl] in Hrun. rewrite Hb in Hrun.
      injection Hrun as <- <- <-. split; [split; [done|intros; apply reachable_nil]|].
      split_and!; [by apply Hr|done|by eexists|].
      eexists. split; [done|apply connection_entry_stamped].
    + rewrite recordLogin_lookup_fails in Hrun. injection Hrun as <- <- <-.
      split; [|split; [done|by left]].
      split; [|done]. by intros [? _]%reachable_cons.
    + rewrite (recordLogin_registered _ _ _ _ k u0) in Hrun by (done || solve_reachable).
      cbn [tail] in Hrun.
      set (w1 := mkWorld _ _) in Hrun.
      destruct (run _ env w1) as [[o1 w2] tr2] eqn:Hb.
      injection Hrun as <- <- <-.
      assert (find_user (User.id u0) (db w1) = Some (k, u0)) as Hf by apply Hreg.
      destruct o1 as [u|e].
      * pose proof (login_bookkeeping_returned _ _ _ _ _ _ _ Hb) as Hr3.
        destruct (login_bookkeeping_found _ data env w1 k u0 Hf Hr3)
          as (u' & w2' & tr2' & Hb' & _ & Hc & Hl & Hh & Hr).
        rewrite Hb in Hb'. injection Hb' as <- <- <-.
        split; [split; [done|intros _; by apply reachable_cons]|].
        split_and!; [by apply Hr|done|by eexists|].
        eexists. split; [done|apply connection_entry_stamped].
      * destruct (login_bookkeeping_thrown _ _ _ _ _ _ _ _ _ Hf Hb) as [-> Hdb].
        split.
        -- split; [|done]. intros [_ Hr3]%reachable_cons.
           destruct (login_bookkeeping_found _ data env w1 k u0 Hf Hr3)
             as (u' & w2' & tr2' & Hb' & _).
           rewrite Hb in Hb'. done.
        -- split; [done|]. destruct Hdb as [Hdb|[t Hdb]]; [by left|right].
           exists (now w1), t. by rewrite Hdb.
  - intros Hnew.
    assert (reachable 2 env ->
            (reachable 5 env <-> is_returned o = true)
            ∧ match o with
              | Returned u =>
                  db w' = set_users (λ us, us ++ [u]) (db w)
                  ∧ User.walletAddress u = a
                  ∧ User.loginCount u = 1
                  ∧ (∃ t, User.lastLoginAt u = Some t)
                  ∧ (∃ t e, User.connectionHistory u = JArr [e] ∧ stamped data t e)
              | Thrown e =>
                  e = StorageFailure
                  ∧ (db w' = db w
                     ∨ ∃ u, db w' = set_users (λ us, us ++ [u]) (db w)
                            ∧ User.walletAddress u = a
                            ∧ User.connectionHistory u = JArr []
                            ∧ ((User.loginCount u = 0 ∧ User.lastLoginAt u = None)
                               ∨ (User.loginCount u = 1
                                  ∧ ∃ t, User.lastLoginAt u = Some t)))
              end) as Hcreated.
    { intros Hr2.
      destruct (recordLogin_created a data env w Hnew Hr2)
        as (u0 & w2 & Hdb & Hreg & Hwal & Hc0 & Hl0 & Hh0 & Heq).
      pose proof (proj2 Hreg) as Hf.
      rewrite Heq in Hrun.
      destruct (run _ (drop 2 env) w2) as [[o1 w3] tr3] eqn:Hb.
      injection Hrun as <- <- <-.
      assert (∀ u, set_users (λ us, <[length (users (db w)) := u]> us) (db w2)
                   = set_users (λ us, us ++ [u]) (db w)) as Hins.
      { intros u. rewrite Hdb. unfold set_users. cbn [users nfts collections transactions].
        f_equal. rewrite insert_app_r_alt by done. by rewrite Nat.sub_diag. }
      destruct o1 as [u|e].
      - pose proof (login_bookkeeping_returned _ _ _ _ _ _ _ Hb) as Hr3.
        pose proof (login_bookkeeping_db _ _ _ _ _ _ _ _ _ Hf Hb) as Hdb3.
        destruct (login_bookkeeping_found _ data _ w2 _ u0 Hf Hr3)
          as (u' & w3' & tr3' & Hb' & Hf' & Hc & Hl & Hh & Hreg').
        rewrite Hb in Hb'. injection Hb' as <- <- <-.
        split; [split; [done|intros _; by apply (reachable_app 2 3)]|].
        split_and!.
        + by rewrite Hdb3, Hins.
        + destruct (Hreg' _ Hreg) as [Hw' _].
          by apply list_find_Some in Hw' as (_ & ? & _).
        + rewrite Hc, Hc0. done.
        + by eexists.
        + eexists _, _. split; [|apply connection_entry_stamped].
          rewrite Hh, Hh0. reflexivity.
      - destruct (login_bookkeeping_thrown _ _ _ _ _ _ _ _ _ Hf Hb) as [-> Hthrown].
        split.
        + split; [|done]. intros Hr5. apply (reachable_drop 2 3) in Hr5.
          destruct (login_bookkeeping_found _ data _ w2 _ u0 Hf Hr5)
            as (u' & w3' & tr3' & Hb' & _).
          rewrite Hb in Hb'. done.
        + split; [done|]. right. destruct Hthrown as [->|[t ->]].
          * exists u0. split_and!; [done..|by left].
          * eexists. split; [apply Hins|]. split_and!; [done..|].
            right. cbn. rewrite Hc0. split; [done|by eexists]. }
    destruct env as [|[tk1 [|]] env].
    + apply Hcreated, reachable_nil.
    + rewrite recordLogin_lookup_fails in Hrun. injection Hrun as <- <- <-.
      split; [|split; [done|by left]].
      split; [|done]. by intros [? _]%reachable_cons.
    + destruct env as [|[tk2 [|]] env].
      * apply Hcreated. solve_reachable.
      * rewrite (recordLogin_unregistered _ _ _ _ Hnew) in Hrun by solve_reachable.
        cbn zeta in Hrun. cbn [tail] in Hrun. rewrite createUser_fails in Hrun.
        injection Hrun as <- <- <-.
        split; [|split; [done|by left]].
        split; [|done]. by intros [_ [? _]%reachable_cons]%reachable_cons.
      * apply Hcreated. solve_reachable.
Qed.

(** ** Concurrent bodies *)

Lemma sched_app {A : Type} ss1 ss2 (st : list (Prog A) * World) :
  sched (ss1 ++ ss2) st = sched ss2 (sched ss1 st).
Proof. apply foldl_app. Qed.

Lemma sched_cons {A : Type} s ss (st : list (Prog A) * World) :
  sched (s :: ss) st = sched ss (sched_step st s).
Proof. reflexivity. Qed.

Lemma perform_db {R : Type} (op : DbOp R) fail w :
  (perform op fail w).2 = if fail then w else mkWorld (exec_op op (now w) (db w)).2 (now w).
Proof. unfold perform. destruct fail; [done|]. by destruct (exec_op op (now w) (db w)). Qed.

(** A property of the store that every call passes on holds after any
    schedule of any pool of bodies. *)
Lemma sched_invariant (I : DB -> Prop) :
  (∀ R (op : DbOp R) t d, I d -> I (exec_op op t d).2) ->
  ∀ A ss (pool : list (Prog A)) w, I (db w) -> I (db (sched ss (pool, w)).2).
Proof.
  intros Hop A ss. induction ss as [|s ss IH]; intros pool w Hw; [done|].
  rewrite sched_cons. destruct (sched_step (pool, w) s) as [pool' w1] eqn:Hs.
  apply IH. destruct s as [i fail|t]; cbn in Hs.
  - destruct (pool !! i) as [p|]; [|by simplify_eq].
    unfold step_thread in Hs.
    destruct (settle p (now w)) as [| | |R op k]; try by simplify_eq.
    pose proof (perform_db op fail w) as Hp.
    destruct (perform op fail w) as [r w2]. simplify_eq/=.
    destruct fail; [done|]. by apply Hop.
  - by simplify_eq.
Qed.



(** *** Concurrent creations for one wallet address *)





(** *** Concurrent logins for one wallet address *)

Lemma count_true_insert_same flags j b :
  flags !! j = Some b -> count_true (<[j := b]> flags) = count_true flags.
Proof. intros H. by rewrite list_insert_id. Qed.

Lemma count_true_insert_true flags j :
  flags !! j = Some false -> count_true (<[j := true]> flags) = count_true flags + 1.
Proof.
  unfold count_true. revert j. induction flags as [|b flags IH]; intros j Hj; [done|].
  destruct j as [|j]; simpl in *.
  - simplify_eq. rewrite !filter_cons. cbn [decide decide_rel]. simpl. lia.
  - rewrite !filter_cons. destruct (decide (b = true)); simpl.
    + specialize (IH _ Hj). lia.
    + by apply IH.
Qed.

Lemma count_true_all flags :
  Forall (λ b, b = true) flags -> count_true flags = Z.of_nat (length flags).
Proof.
  unfold count_true. induction 1 as [|b flags -> _ IH]; [done|].
  rewrite filter_cons, decide_True by done. simpl. lia.
Qed.

Lemma slice_last_snoc_last {A : Type} n (l : list A) x :
  ∃ l', slice_last (S n) (l ++ [x]) = l' ++ [x] ∧ (length l' ≤ n)%nat.
Proof.
  unfold slice_last. rewrite length_app. simpl.
  exists (drop (length l + 1 - S n) l). split.
  - rewrite drop_app_le by lia. reflexivity.
  - rewrite length_drop. lia.
Qed.

(** One scheduled step of a login, stage by stage. *)

Lemma step_lookup a d fail w k u :
  registered a k u (db w) ->
  step_thread fail (recordLogin a d) w =
    if fail then (Throw StorageFailure, w)
    else (_ ← updateUserLogin (User.id u); addConnectionHistory (User.id u) d, w).
Proof.
  intros [Hw _]. unfold step_thread, perform. cbn. destruct fail; [reflexivity|].
  rewrite Hw. cbn. by destruct w.
Qed.

Lemma step_count i d fail w k u :
  find_user i (db w) = Some (k, u) ->
  step_thread fail (_ ← updateUserLogin i; addConnectionHistory i d) w =
    if fail then (Throw StorageFailure, w)
    else (addConnectionHistory i d,
          mkWorld (set_users (λ us, <[k := login_update (now w) 1 (now w) u]> us) (db w))
            (now w)).
Proof.
  intros Hf. unfold step_thread, perform. cbn. destruct fail; [done|].
  unfold update_user. by rewrite Hf.
Qed.

Lemma step_read i d fail w k u :
  find_user i (db w) = Some (k, u) ->
  step_thread fail (addConnectionHistory i d) w =
    if fail then (Throw StorageFailure, w)
    else (t ← new_Date;
          await (user_update_connectionHistory i
                   (JArr (slice_last 10
                            (array_or_empty (User.connectionHistory u)
                               ++ [connection_entry d t])))), w).
Proof.
  intros Hf. unfold step_thread, perform. cbn. destruct fail; [done|].
  unfold user_of. rewrite Hf. cbn. by destruct w.
Qed.

Lemma step_write i d h fail w k u :
  find_user i (db w) = Some (k, u) ->
  step_thread fail
    (t ← new_Date;
     await (user_update_connectionHistory i
              (JArr (slice_last 10 (h ++ [connection_entry d t]))))) w =
    if fail then (Throw StorageFailure, w)
    else
      let u' := history_update
                  (JArr (slice_last 10 (h ++ [connection_entry d (now w)]))) (now w) u in
      (Ret u', mkWorld (set_users (λ us, <[k := u']> us) (db w)) (now w)).
Proof.
  intros Hf. unfold step_thread, perform. cbn. destruct fail; [done|].
  unfold update_user. by rewrite Hf.
Qed.

Lemma step_lookup_new a d fail w :
  find_user_by_walletAddress a (db w) = None ->
  step_thread fail (recordLogin a d) w =
    if fail then (Throw StorageFailure, w) else (create_and_record a d, w).
Proof.
  intros Hw. unfold step_thread, perform. cbn. destruct fail; [reflexivity|].
  rewrite Hw. cbn. by destruct w.
Qed.

Lemma step_create a d fail w :
  step_thread fail (create_and_record a d) w =
    if fail then (Throw StorageFailure, w)
    else match find_user_by_walletAddress a (db w) with
         | Some _ => (Throw UniqueConstraintViolation, w)
         | None =>
             let u := User.mk (new_ObjectId (User.id <$> users (db w))) a (now w) (now w)
                        None 0 (JArr []) in
             (_ ← updateUserLogin (User.id u); addConnectionHistory (User.id u) d,
              mkWorld (set_users (λ us, us ++ [u]) (db w)) (now w))
         end.
Proof.
  unfold step_thread, perform. cbn. destruct fail; [reflexivity|].
  destruct (find_user_by_walletAddress a (db w)); by destruct w.
Qed.

Lemma history_written_insert ds h0 h pool j p' :
  history_written ds h0 h pool -> (∀ x, p' ≠ Ret x) ->
  history_written ds h0 h (<[j := p']> pool).
Proof.
  intros [[-> Hall]|Hw] Hp; [left|by right]. split; [done|]. by apply Forall_insert.
Qed.

Lemma login_stage_returned a i ds b p t x :
  login_stage a i ds b p -> outcome p t = Some (Returned x) -> b = true ∧ p = Ret x.
Proof. destruct 1; try done. cbn. by intros [= ->]. Qed.

Lemma prelogin_stage_pending a ds p t x :
  prelogin_stage a ds p -> outcome p t ≠ Some (Returned x).
Proof. by destruct 1. Qed.

Lemma prelogin_stage_not_returned a ds p x : prelogin_stage a ds p -> p ≠ Ret x.
Proof. by destruct 1. Qed.

Lemma logins_inv_step a k u0 ds pool w s :
  logins_inv a k u0 ds pool w ->
  logins_inv a k u0 ds (sched_step (pool, w) s).1 (sched_step (pool, w) s).2.
Proof.
  intros (flags & u & Hst & Hreg & Hid & Hcount & Hhist).
  destruct s as [j fail|t]; [|by exists flags, u].
  cbn. destruct (pool !! j) as [p|] eqn:Hj; [|by exists flags, u].
  destruct (Forall2_lookup_r _ _ _ _ _ Hst Hj) as (b & Hb & Hstage).
  assert (find_user (User.id u0) (db w) = Some (k, u)) as Hf
    by (rewrite <- Hid; apply Hreg).
  assert (∀ b' p', login_stage a (User.id u0) ds b' p' ->
            Forall2 (login_stage a (User.id u0) ds) (<[j := b']> flags) (<[j := p']> pool))
    as Hins by (intros; by apply Forall2_insert).
  assert (∀ p' u' w', registered a k u' (db w') ->
            User.id u' = User.id u0 ->
            User.loginCount u' = User.loginCount u ->
            User.connectionHistory u' = User.connectionHistory u ->
            (∀ x, p' ≠ Ret x) ->
            login_stage a (User.id u0) ds b p' ->
            logins_inv a k u0 ds (<[j := p']> pool) w') as Hsame.
  { intros p' u' w' ? ? Hc Hh ? ?. exists (<[j := b]> flags), u'.
    split_and!; [by apply Hins|done..| |].
    - rewrite count_true_insert_same by done. congruence.
    - rewrite Hh. by apply history_written_insert. }
  inversion Hstage as [d Hd|d Hd|d Hd|d Hd|d h Hd|u1|b' e]; subst.
  - rewrite (step_lookup _ _ _ _ _ _ Hreg). destruct fail; cbn.
    + apply (Hsame _ u w); [done..|constructor].
    + apply (Hsame _ u w); [done..|]. rewrite Hid. by constructor.
  - rewrite step_create. destruct fail; cbn.
    + apply (Hsame _ u w); [done..|constructor].
    + rewrite (proj1 Hreg). cbn. apply (Hsame _ u w); [done..|constructor].
  - rewrite (step_count _ _ _ _ _ _ Hf). destruct fail; cbn.
    + apply (Hsame _ u w); [done..|constructor].
    + exists (<[j := true]> flags), (login_update (now w) 1 (now w) u).
      split_and!; [apply Hins; by constructor| |done| |].
      * by apply (registered_update _ _ u).
      * rewrite count_true_insert_true by done. cbn. lia.
      * cbn. by apply history_written_insert.
  - rewrite (step_read _ _ _ _ _ _ Hf). destruct fail; cbn.
    + apply (Hsame _ u w); [done..|constructor].
    + apply (Hsame _ u w); [done..|]. by constructor.
  - rewrite (step_write _ _ _ _ _ _ _ Hf). destruct fail; cbn.
    + apply (Hsame _ u w); [done..|constructor].
    + exists (<[j := true]> flags),
        (history_update (JArr (slice_last 10 (h ++ [connection_entry d (now w)])))
           (now w) u).
      split_and!; [apply Hins; constructor| |done| |].
      * by apply (registered_update _ _ u).
      * rewrite count_true_insert_same by done. done.
      * right. cbn.
        destruct (slice_last_snoc_last 9 h (connection_entry d (now w))) as (l & -> & Hl).
        exists l, (connection_entry d (now w)), d, (now w).
        split_and!; [done|apply connection_entry_stamped|done|].
        rewrite length_app. cbn. lia.
  - unfold step_thread. cbn. rewrite list_insert_id by done. by exists flags, u.
  - unfold step_thread. cbn. rewrite list_insert_id by done. by exists flags, u.
Qed.

Lemma logins_inv_sched a k u0 ds ss pool w :
  logins_inv a k u0 ds pool w ->
  logins_inv a k u0 ds (sched ss (pool, w)).1 (sched ss (pool, w)).2.
Proof.
  revert pool w. induction ss as [|s ss IH]; intros pool w Hinv; [done|].
  rewrite sched_cons. pose proof (logins_inv_step _ _ _ _ _ _ s Hinv) as Hstep.
  destruct (sched_step (pool, w) s) as [pool' w']. by apply IH.
Qed.

Lemma count_true_replicate_false n : count_true (replicate n false) = 0.
Proof. unfold count_true. induction n as [|n IH]; [done|exact IH]. Qed.

Lemma prelogin_stages_pending a i ds pool :
  Forall (prelogin_stage a ds) pool ->
  Forall2 (login_stage a i ds) (replicate (length pool) false) pool.
Proof.
  induction 1 as [|p pool Hp _ IH]; cbn; constructor; [|done].
  destruct Hp; by constructor.
Qed.

Lemma new_logins_inv_step a ds pool w s :
  new_logins_inv a ds pool w ->
  new_logins_inv a ds (sched_step (pool, w) s).1 (sched_step (pool, w) s).2.
Proof.
  intros [[Hnone Hall]|(k & u0 & Hc0 & Hh0 & Hinv)].
  - destruct s as [j fail|t]; [|by left].
    cbn. destruct (pool !! j) as [p|] eqn:Hj; [|by left].
    pose proof (proj1 (Forall_lookup _ _) Hall _ _ Hj) as Hstage.
    destruct Hstage as [d Hd|d Hd|e].
    + rewrite (step_lookup_new _ _ _ _ Hnone). left.
      destruct fail; cbn; (split; [done|]); (apply Forall_insert; [done|by constructor]).
    + rewrite step_create. destruct fail; cbn.
      * left. split; [done|]. apply Forall_insert; [done|by constructor].
      * rewrite Hnone. cbn.
        set (u := User.mk _ _ _ _ _ _ _). right.
        exists (length (users (db w))), u. split; [done|]. split; [done|].
        exists (replicate (length pool) false), u. split_and!.
        -- rewrite <- (insert_replicate false (length pool) j).
           apply Forall2_insert; [by apply prelogin_stages_pending|]. by constructor.
        -- split.
           ++ unfold find_user_by_walletAddress in *. cbn.
              rewrite list_find_app_r by done. cbn. rewrite decide_True by done. cbn.
              do 2 f_equal; lia.
           ++ apply (find_user_created _ u (db w)); [apply find_user_fresh|done].
        -- done.
        -- by rewrite count_true_replicate_false.
        -- left. split; [done|]. apply Forall_insert; [|done].
           eapply Forall_impl; [done|]. intros q Hq x.
           by apply (prelogin_stage_not_returned a ds).
    + unfold step_thread. cbn. rewrite list_insert_id by done. by left.
  - right. exists k, u0. split; [done|]. split; [done|]. by apply logins_inv_step.
Qed.

Lemma new_logins_inv_sched a ds ss pool w :
  new_logins_inv a ds pool w ->
  new_logins_inv a ds (sched ss (pool, w)).1 (sched ss (pool, w)).2.
Proof.
  revert pool w. induction ss as [|s ss IH]; intros pool w Hinv; [done|].
  rewrite sched_cons. pose proof (new_logins_inv_step _ _ _ _ s Hinv) as Hstep.
  destruct (sched_step (pool, w) s) as [pool' w']. by apply IH.
Qed.

Lemma sched_length {A : Type} ss (pool : list (Prog A)) w :
  length (sched ss (pool, w)).1 = length pool.
Proof.
  revert pool w. induction ss as [|s ss IH]; intros pool w; [done|].
  rewrite sched_cons. destruct (sched_step (pool, w) s) as [pool' w'] eqn:Hs.
  rewrite IH. destruct s as [j fail|t]; cbn in Hs; [|by simplify_eq].
  destruct (pool !! j) as [p|]; [|by simplify_eq].
  destruct (step_thread fail p w). simplify_eq. apply length_insert.
Qed.

Lemma count_true_bounds flags : 0 ≤ count_true flags ≤ Z.of_nat (length flags).
Proof.
  unfold count_true. pose proof (length_filter (λ b, b = true) flags). lia.
Qed.

Lemma login_stages_all_returned a i ds flags pool t :
  Forall2 (login_stage a i ds) flags pool -> all_returned pool t ->
  Forall (λ b, b = true) flags.
Proof.
  unfold all_returned. induction 1 as [|b p flags pool Hs _ IH]; [done|].
  intros [[x Hx] Hall]%Forall_cons. constructor; [|by apply IH].
  by eapply login_stage_returned.
Qed.

(** What the invariant says of the record of the wallet address. *)
Lemma logins_inv_record a k u0 ds pool w :
  logins_inv a k u0 ds pool w ->
  ∃ u,
    registered a k u (db w)
    ∧ User.loginCount u0 ≤ User.loginCount u
                         ≤ User.loginCount u0 + Z.of_nat (length pool)
    ∧ (all_returned pool (now w) ->
       User.loginCount u = User.loginCount u0 + Z.of_nat (length pool))
    ∧ (User.connectionHistory u = User.connectionHistory u0
       ∨ ends_with_login_entry ds (User.connectionHistory u))
    ∧ ((∃ j p x, pool !! j = Some p ∧ outcome p (now w) = Some (Returned x)) ->
       ends_with_login_entry ds (User.connectionHistory u)).
Proof.
  intros (flags & u & Hst & Hreg & Hid & Hc & Hh).
  pose proof (Forall2_length _ _ _ Hst) as Hlen.
  exists u. split; [done|]. split_and!.
  - pose proof (count_true_bounds flags). lia.
  - pose proof (count_true_bounds flags). lia.
  - intros Hall. rewrite Hc, <- Hlen. f_equal.
    apply count_true_all. by eapply login_stages_all_returned.
  - destruct Hh as [[-> _]|Hw]; [by left|by right].
  - intros (j & p & x & Hj & Hx). destruct Hh as [[_ Hnone]|Hw]; [|done].
    destruct (Forall2_lookup_r _ _ _ _ _ Hst Hj) as (b & _ & Hstage).
    destruct (login_stage_returned _ _ _ _ _ _ _ Hstage Hx) as [_ ->].
    by destruct (proj1 (Forall_lookup _ _) Hnone _ _ Hj x).
Qed.

(** C2, as the code has it.  Under every schedule of concurrent logins for
    one wallet address, whether a record is stored for it at the start or
    one of the logins creates it, the counter loses no increment (when all
    the logins have returned it has grown by their number), and the stored
    history is the one stored at the start or has at most 10 entries and
    ends with the entry of one of the logins, stamped and appended before
    the trimming; once a login has returned it is the latter.  The history
    is read and written back in two separate calls,
    so a concurrent login's entry can be overwritten: nothing is claimed
    about which other entries it holds. *)
Theorem concurrent_logins_keep_count a ds ss w :
  let st := sched ss (recordLogin a <$> ds, w) in
  let n := Z.of_nat (length ds) in
  let returned :=
    ∃ j p x, st.1 !! j = Some p ∧ outcome p (now st.2) = Some (Returned x) in
  (∀ k u0,
     registered a k u0 (db w) ->
     ∃ u,
       registered a k u (db st.2)
       ∧ User.loginCount u0 ≤ User.loginCount u ≤ User.loginCount u0 + n
       ∧ (all_returned st.1 (now st.2) -> User.loginCount u = User.loginCount u0 + n)
       ∧ (User.connectionHistory u = User.connectionHistory u0
          ∨ ends_with_login_entry ds (User.connectionHistory u))
       ∧ (returned -> ends_with_login_entry ds (User.connectionHistory u)))
  ∧ (find_user_by_walletAddress a (db w) = None ->
     (find_user_by_walletAddress a (db st.2) = None ∧ ¬ returned)
     ∨ ∃ k u,
         registered a k u (db st.2)
         ∧ 0 ≤ User.loginCount u ≤ n
         ∧ (all_returned st.1 (now st.2) -> User.loginCount u = n)
         ∧ (User.connectionHistory u = JArr []
            ∨ ends_with_login_entry ds (User.connectionHistory u))
         ∧ (returned -> ends_with_login_entry ds (User.connectionHistory u))).
Proof.
  intros st n returned.
  assert (length st.1 = length ds) as Hlen
    by (subst st; by rewrite sched_length, length_fmap).
  split.
  - intros k u0 Hreg.
    assert (logins_inv a k u0 ds st.1 st.2) as Hinv.
    { apply logins_inv_sched. exists (replicate (length (recordLogin a <$> ds)) false), u0.
      split_and!; [|done|done| |].
      - apply prelogin_stages_pending, Forall_fmap, Forall_forall.
        intros d Hd. by constructor.
      - by rewrite count_true_replicate_false, Z.add_0_r.
      - left. split; [done|]. apply Forall_fmap, Forall_forall. by intros d Hd x. }
    destruct (logins_inv_record _ _ _ _ _ _ Hinv) as (u & H1 & H2 & H3 & H4 & H5).
    rewrite Hlen in H2, H3. by exists u.
  - intros Hnew.
    assert (new_logins_inv a ds st.1 st.2) as [[Hnone Hall]|(k & u0 & Hc0 & Hh0 & Hinv)].
    { apply new_logins_inv_sched. left. split; [done|].
      apply Forall_fmap, Forall_forall. intros d Hd. by constructor. }
    + left. split; [done|]. intros (j & p & x & Hj & Hx).
      pose proof (proj1 (Forall_lookup _ _) Hall _ _ Hj) as Hstage.
      by apply (prelogin_stage_pending _ _ _ (now st.2) x) in Hstage.
    + right. destruct (logins_inv_record _ _ _ _ _ _ Hinv) as (u & H1 & H2 & H3 & H4 & H5).
      rewrite Hlen, Hc0 in H2, H3. rewrite Hh0 in H4.
      exists k, u. split_and!; [done|lia|lia|done..].
Qed.

(** ** The statements at the sample data *)

Lemma connectionHistory_keeps_last_10_witness :
  let logins := map (λ c, (addConnectionHistory sample_id c.1, c.2)) sample_calls in
  ∃ es,
    length es = 11%nat
    ∧ Forall2 (λ e ct, stamped ct.1.1 ct.2 e) es
        (zip sample_calls (stamps sample_calls sample_clock))
    ∧ history_of sample_id (db (run_all logins sample_registered).2)
      = Some (JArr (drop 1 es)).
Proof.
  intros logins.
  destruct (connectionHistory_keeps_last_10 sample_id sample_calls sample_registered
              sample_user
              (run_all logins sample_registered).1 (run_all logins sample_registered).2)
    as (es & h & Hlen & Hes & Hh & _ & _ & H11).
  - reflexivity.
  - apply surjective_pairing.
  - apply Forall_forall. intros o Ho. apply list_elem_of_In in Ho.
    revert o Ho. apply forallb_forall. vm_compute. reflexivity.
  - intros E. apply (f_equal length) in E. vm_compute in E. discriminate.
  - exists es. split; [exact Hlen|]. split; [exact Hes|].
    rewrite Hh, H11; reflexivity.
Defined.

Lemma loginCount_never_decreases_witness :
  (∃ u w' tr,
     run (updateUserLogin sample_id) [] sample_registered = (Returned u, w', tr)
     ∧ user_of sample_id (db w') = Some u
     ∧ User.loginCount u = User.loginCount sample_user + 1
     ∧ User.lastLoginAt u = Some (now sample_registered))
  ∧ (∃ u', user_of sample_id (db_after (op_addConnectionHistory sample_id (sample_data 1)) []
                          sample_registered) = Some u'
           ∧ User.loginCount sample_user ≤ User.loginCount u').
Proof.
  split.
  - apply (proj1 loginCount_never_decreases sample_id [] sample_registered sample_user).
    + reflexivity.
    + apply reachable_nil.
  - apply (proj2 loginCount_never_decreases (op_addConnectionHistory sample_id (sample_data 1)) []
             sample_registered sample_id sample_user).
    reflexivity.
Defined.

Lemma createUser_fresh_record_witness :
  ∃ u w' tr,
    run (createUser "SP123") [] sample_world
    = (Returned (ClientSessionUser.mk (User.id u) "SP123"), w', tr)
    ∧ users (db w') = users (db sample_world) ++ [u]
    ∧ user_of (User.id u) (db w') = Some u
    ∧ User.walletAddress u = "SP123"
    ∧ User.connectionHistory u = JArr []
    ∧ User.loginCount u = 0
    ∧ ∀ data env', reachable 3 env' ->
        ∃ u1 w1 tr1,
          run (_ ← updateUserLogin (User.id u); addConnectionHistory (User.id u) data)
            env' w' = (Returned u1, w1, tr1)
          ∧ user_of (User.id u) (db w1) = Some u1
          ∧ User.loginCount u1 = 1.
Proof.
  apply (createUser_fresh_record "SP123" [] sample_world).
  - reflexivity.
  - apply reachable_nil.
Defined.

Lemma addConnectionHistory_unknown_user_witness :
  let r := run (addConnectionHistory other_id (sample_data 1)) [] sample_registered in
  db r.1.2 = db sample_registered
  ∧ Forall (λ ev, event_is_write ev = false) r.2
  ∧ (reachable 1 [] ->
     (is_ObjectId other_id = true -> r.1.1 = Thrown (JsError "User not found"))
     ∧ (is_ObjectId other_id = false -> r.1.1 = Thrown MalformedObjectId)).
Proof.
  intros r.
  apply (addConnectionHistory_unknown_user other_id (sample_data 1) [] sample_registered
           r.1.1 r.1.2 r.2).
  - reflexivity.
  - subst r. by destruct (run _ _ _) as [[o w'] tr].
Defined.

Lemma addConnectionHistory_malformed_history_witness :
  ∃ u w' tr,
    run (addConnectionHistory sample_id (sample_data 1)) [] sample_malformed = (Returned u, w', tr)
    ∧ User.connectionHistory u = JArr [connection_entry (sample_data 1) sample_clock]
    ∧ history_of sample_id (db w') = Some (User.connectionHistory u).
Proof.
  apply (addConnectionHistory_malformed_history sample_id (sample_data 1) [] sample_malformed
           (User.mk sample_id "SP123" sample_clock sample_clock None 3 (JStr "n/a"))).
  - reflexivity.
  - reflexivity.
  - apply reachable_nil.
Defined.

Lemma unauthenticated_request_is_rejected_witness :
  let rejected :=
    (Returned (mkResponse (error_body "Unauthorized" None) 401), sample_registered,
     @nil Event) in
  run (GET_nfts sample_verifyAuth anonymous_request) [] sample_registered = rejected
  ∧ run (POST_nfts sample_verifyAuth (λ _, true) id anonymous_request) []
      sample_registered = rejected
  ∧ run (POST_nfts_mint sample_verifyAuth anonymous_request) [] sample_registered = rejected
  ∧ (searchParams_get "public" anonymous_request ≠ Some "true" ->
     run (GET_collections sample_verifyAuth anonymous_request) [] sample_registered
     = rejected)
  ∧ run (POST_collections sample_verifyAuth (λ _, true) anonymous_request) []
      sample_registered = rejected.
Proof.
  apply (unauthenticated_request_is_rejected sample_verifyAuth (λ _, true) id
           anonymous_request [] sample_registered).
  reflexivity.
Defined.

Lemma mint_is_refused_witness :
  run (POST_nfts_mint sample_verifyAuth (sample_mint_request other_id sample_id true)) []
    (sample_gallery true)
  = (Returned (mkResponse (error_body "Unauthorized to mint this NFT" None) 403),
     sample_gallery true,
     [Called (nFT_findUnique_id sample_id) false]).
Proof.
  refine (proj1 (proj2 (proj2
            (mint_is_refused sample_verifyAuth (sample_mint_request other_id sample_id true)
               [] (sample_gallery true) (AuthUser.mk other_id) (sample_gallery true) []
               (sample_mint_body sample_id)
               (mkMintNFTData sample_id "0xabc" "SP000.coremint" "7") _ _ _ _)))
            (sample_nft true) _ _).
  - reflexivity.
  - reflexivity.
  - vm_compute. reflexivity.
  - apply reachable_nil.
  - reflexivity.
  - vm_compute. discriminate.
Defined.

Lemma recordLogin_commits_call_by_call_witness :
  let env := [undisturbed; undisturbed; failing] in
  let r := run (recordLogin "SP123" (sample_data 1)) env sample_registered in
  let r' := run (recordLogin "SP999" (sample_data 1)) env sample_registered in
  ((reachable 4 env <-> is_returned r.1.1 = true)
   ∧ match r.1.1 with
     | Returned u =>
         registered "SP123" 0 u (db r.1.2)
         ∧ User.loginCount u = User.loginCount sample_user + 1
         ∧ (∃ t, User.lastLoginAt u = Some t)
         ∧ (∃ t, User.connectionHistory u
                 = JArr (slice_last 10 (array_or_empty (User.connectionHistory sample_user)
                                          ++ [connection_entry (sample_data 1) t]))
                 ∧ stamped (sample_data 1) t (connection_entry (sample_data 1) t))
     | Thrown e =>
         e = StorageFailure
         ∧ (db r.1.2 = db sample_registered
            ∨ ∃ t t', db r.1.2
                      = set_users (λ us, <[0%nat := login_update t 1 t' sample_user]> us)
                          (db sample_registered))
     end)
  ∧ ((reachable 5 env <-> is_returned r'.1.1 = true)
     ∧ match r'.1.1 with
       | Returned u =>
           db r'.1.2 = set_users (λ us, us ++ [u]) (db sample_registered)
           ∧ User.walletAddress u = "SP999"
           ∧ User.loginCount u = 1
           ∧ (∃ t, User.lastLoginAt u = Some t)
           ∧ (∃ t e, User.connectionHistory u = JArr [e] ∧ stamped (sample_data 1) t e)
       | Thrown e =>
           e = StorageFailure
           ∧ (db r'.1.2 = db sample_registered
              ∨ ∃ u, db r'.1.2 = set_users (λ us, us ++ [u]) (db sample_registered)
                     ∧ User.walletAddress u = "SP999"
                     ∧ User.connectionHistory u = JArr []
                     ∧ ((User.loginCount u = 0 ∧ User.lastLoginAt u = None)
                        ∨ (User.loginCount u = 1 ∧ ∃ t, User.lastLoginAt u = Some t)))
       end).
Proof.
  intros env r r'. split.
  - refine (proj1 (recordLogin_commits_call_by_call "SP123" (sample_data 1) env
                     sample_registered r.1.1 r.1.2 r.2 _) 0%nat sample_user _).
    + subst r. by destruct (run _ _ _) as [[o w'] tr].
    + split; reflexivity.
  - refine (proj2 (recordLogin_commits_call_by_call "SP999" (sample_data 1) env
                     sample_registered r'.1.1 r'.1.2 r'.2 _) _).
    + subst r'. by destruct (run _ _ _) as [[o w'] tr].
    + reflexivity.
Defined.


Lemma concurrent_logins_keep_count_witness :
  let ds := [sample_data 1; sample_data 2] in
  let st := sched interleaved (recordLogin "SP123" <$> ds, sample_registered) in
  let st' := sched one_after_the_other (recordLogin "SP123" <$> ds, sample_world) in
  (∃ u,
     registered "SP123" 0 u (db st.2)
     ∧ User.loginCount sample_user ≤ User.loginCount u ≤ User.loginCount sample_user + 2
     ∧ (all_returned st.1 (now st.2) -> User.loginCount u = User.loginCount sample_user + 2)
     ∧ (User.connectionHistory u = User.connectionHistory sample_user
        ∨ ends_with_login_entry ds (User.connectionHistory u))
     ∧ ((∃ j p x, st.1 !! j = Some p ∧ outcome p (now st.2) = Some (Returned x)) ->
        ends_with_login_entry ds (User.connectionHistory u)))
  ∧ ((find_user_by_walletAddress "SP123" (db st'.2) = None
      ∧ ¬ (∃ j p x, st'.1 !! j = Some p ∧ outcome p (now st'.2) = Some (Returned x)))
     ∨ ∃ k u,
         registered "SP123" k u (db st'.2)
         ∧ 0 ≤ User.loginCount u ≤ 2
         ∧ (all_returned st'.1 (now st'.2) -> User.loginCount u = 2)
         ∧ (User.connectionHistory u = JArr []
            ∨ ends_with_login_entry ds (User.connectionHistory u))
         ∧ ((∃ j p x, st'.1 !! j = Some p ∧ outcome p (now st'.2) = Some (Returned x)) ->
            ends_with_login_entry ds (User.connectionHistory u))).
Proof.
  intros ds st st'. split.
  - apply (proj1 (concurrent_logins_keep_count "SP123" ds interleaved sample_registered)
             0%nat sample_user).
    split; reflexivity.
  - apply (proj2 (concurrent_logins_keep_count "SP123" ds one_after_the_other sample_world)).
    reflexivity.
Defined.

(** On the store that holds no record at the start, the two logins carried
    out one after the other both return: the record is created once and its
    counter is 2. *)
Lemma sequential_logins_on_new_address :
  let st := sched one_after_the_other
              (recordLogin "SP123" <$> [sample_data 1; sample_data 2], sample_world) in
  all_returned st.1 (now st.2)
  ∧ (User.loginCount <$> user_of sample_id (db st.2)) = Some 2
  ∧ length (users (db st.2)) = 1%nat.
Proof.
  split_and!.
  - vm_compute. repeat (constructor; [eexists; reflexivity|]). constructor.
  - vm_compute. reflexivity.
  - vm_compute. reflexivity.
Qed.

(** ** Where the code departs from the specification *)

(** Two concurrent logins for SP123 both return, and the counter has both
    increments, but the stored history holds the entry of the second login
    only: the first login's entry was overwritten. *)
Lemma concurrent_logins_lose_history_entry :
  let st := sched interleaved
              (recordLogin "SP123" <$> [sample_data 1; sample_data 2], sample_registered) in
  all_returned st.1 (now st.2)
  ∧ (User.loginCount <$> user_of sample_id (db st.2)) = Some 2
  ∧ history_of sample_id (db st.2) = Some (JArr [connection_entry (sample_data 2) sample_clock])
  ∧ ∀ t, connection_entry (sample_data 1) t
         ∉ [connection_entry (sample_data 2) sample_clock].
Proof.
  split_and!.
  - vm_compute. repeat (constructor; [eexists; reflexivity|]). constructor.
  - vm_compute. reflexivity.
  - vm_compute. reflexivity.
  - intros t E%list_elem_of_singleton.
    assert (∀ m m', JObj m = JObj m' -> m !! "attempt" = m' !! "attempt") as Hobj
      by (by intros m m' [= ->]).
    apply Hobj in E. rewrite !lookup_insert_ne in E by done. vm_compute in E. discriminate.
Qed.

(** A failure of the store at the third call of the recorder sequence (the
    lookup of [addConnectionHistory]) fails the login, and leaves the
    counter incremented and [lastLoginAt] set without a history entry. *)
Lemma recordLogin_leaves_partial_state :
  let r := run (recordLogin "SP123" (sample_data 1)) [undisturbed; undisturbed; failing]
             sample_registered in
  r.1.1 = Thrown StorageFailure
  ∧ (User.loginCount <$> user_of sample_id (db sample_registered)) = Some 0
  ∧ (User.loginCount <$> user_of sample_id (db r.1.2)) = Some 1
  ∧ (User.lastLoginAt <$> user_of sample_id (db r.1.2)) = Some (Some sample_clock)
  ∧ history_of sample_id (db r.1.2) = Some (JArr []).
Proof. vm_compute. by split_and!. Qed.


(** The identifier of [addConnectionHistory] is any string.  For one that
    is not an ObjectId no user is stored, and yet the error is not
    "User not found": the lookup is rejected by the store, and that error is
    what the caller gets. *)
Lemma addConnectionHistory_malformed_userId :
  let r := run (addConnectionHistory "not-an-objectid" (sample_data 1)) []
             sample_registered in
  user_of "not-an-objectid" (db sample_registered) = None
  ∧ r.1.1 = Thrown MalformedObjectId
  ∧ r.1.1 ≠ Thrown (JsError "User not found")
  ∧ db r.1.2 = db sample_registered.
Proof. vm_compute. by split_and!. Qed.

(** A mint request of an authenticated user whose body passes the schema
    and names no stored NFT is not always answered 404: for an [nftId] that
    is not an ObjectId the answer is 500. *)
Lemma mint_of_malformed_nftId :
  let request := sample_mint_request sample_id "not-an-objectid" true in
  let r := run (POST_nfts_mint sample_verifyAuth request) [] (sample_gallery false) in
  (∃ data, mintNFTSchema (sample_mint_body "not-an-objectid") = inr data
           ∧ mint_nftId data = "not-an-objectid")
  ∧ nft_of "not-an-objectid" (db (sample_gallery false)) = None
  ∧ r.1.1 = Returned (mkResponse (error_body "Internal server error" None) 500)
  ∧ db r.1.2 = db (sample_gallery false).
Proof.
  split; [eexists; split; vm_compute; reflexivity|].
  vm_compute. by split_and!.
Qed.

(** ** The two interpreters agree

    A body scheduled alone, with nothing failing and the clock standing
    still, ends as [run] says. *)

Lemma sched_finished {A : Type} (q : Prog A) m w :
  (∃ a, q = Ret a) ∨ (∃ e, q = Throw e) ->
  sched (replicate m (Go 0 false)) ([q], w) = ([q], w).
Proof.
  intros Hq. induction m as [|m IH]; [done|].
  cbn [replicate]. rewrite sched_cons.
  replace (sched_step ([q], w) (Go 0 false)) with ([q], w); [done|].
  by destruct Hq as [[a ->]|[e ->]].
Qed.

Lemma sched_alone_agrees_with_run {A : Type} (p : Prog A) w :
  ∃ n, ∀ m, (n ≤ m)%nat ->
    sched (replicate m (Go 0 false)) ([p], w)
    = ([match (run p [] w).1.1 with Returned a => Ret a | Thrown e => Throw e end],
       (run p [] w).1.2).
Proof.
  revert w. induction p as [a|e|k IH|R op k IH]; intros w.
  - exists 0%nat. intros m _. apply sched_finished. eauto.
  - exists 0%nat. intros m _. apply sched_finished. eauto.
  - destruct (IH (now w) w) as [n Hn]. exists (S n). intros [|m] Hm; [lia|].
    cbn [run]. rewrite <- (Hn (S m)) by lia.
    cbn [replicate]. rewrite !sched_cons. reflexivity.
  - cbn [run head default env_tick env_fail tail].
    assert (tick None w = w) as -> by (by destruct w).
    destruct (perform op false w) as [r w1] eqn:Hp.
    destruct (IH r w1) as [n Hn]. exists (S n). intros [|m] Hm; [lia|].
    cbn [replicate]. rewrite sched_cons.
    replace (sched_step ([Await op k], w) (Go 0 false)) with ([k r], w1)
      by (unfold sched_step, step_thread; cbn [fst snd lookup list_lookup settle];
          rewrite Hp; reflexivity).
    rewrite Hn by lia. by destruct (run (k r) [] w1) as [[o w2] tr].
Qed.

(** ** How the routes can end *)

Lemma ends_with_any {A : Type} (p : Prog A) : ends_with (λ _, True) (λ _, True) p.
Proof. induction p; by constructor. Qed.

Lemma ends_with_bind {A B : Type} (Q : A -> Prop) (Q' : B -> Prop) (E : Error -> Prop)
    (p : Prog A) (f : A -> Prog B) :
  ends_with Q E p -> (∀ a, Q a -> ends_with Q' E (f a)) -> ends_with Q' E (bind p f).
Proof.
  intros Hp Hf. induction Hp; cbn [bind]; [by apply Hf|by constructor..].
Qed.

Lemma ends_with_try_catch {A : Type} (Q : A -> Prop) (E E' : Error -> Prop)
    (p : Prog A) (h : Error -> Prog A) :
  ends_with Q E p -> (∀ e, E e -> ends_with Q E' (h e)) -> ends_with Q E' (try_catch p h).
Proof.
  intros Hp Hh. induction Hp; cbn [try_catch]; [by constructor|by apply Hh|by constructor..].
Qed.

Lemma ends_with_await {R : Type} (op : DbOp R) :
  ends_with (λ _, True) (λ _, True) (await op).
Proof. apply ends_with_any. Qed.

Lemma ends_with_mono {A : Type} (Q Q' : A -> Prop) (E E' : Error -> Prop) (p : Prog A) :
  (∀ a, Q a -> Q' a) -> (∀ e, E e -> E' e) -> ends_with Q E p -> ends_with Q' E' p.
Proof. intros HQ HE Hp. induction Hp; constructor; auto. Qed.

(** What a body ends with is what running it gives. *)
Lemma run_ends_with {A : Type} (Q : A -> Prop) (E : Error -> Prop) (p : Prog A) :
  ends_with Q E p ->
  ∀ env w, match (run p env w).1.1 with
           | Returned a => Q a
           | Thrown e => E e
           end.
Proof.
  intros Hp. induction Hp as [a Ha|e He|k _ IH|R op k _ IH]; intros env w; cbn [run].
  - done.
  - done.
  - apply IH.
  - destruct (perform op _ _) as [r w1]. specialize (IH r (tail env) w1).
    by destruct (run (k r) (tail env) w1) as [[o w2] tr].
Qed.

Lemma on_error_answers (Q : Response -> Prop) e :
  Q internal_server_error -> (∀ r, invalid_request r -> Q r) ->
  ends_with Q (λ _, False) (on_error e).
Proof.
  intros Hise Hinv. unfold on_error. destruct (isZodError e) as [issues|]; constructor.
  - apply Hinv. by eexists.
  - done.
Qed.

Section RouteAnswers.

Variable verifyAuth : NextRequest -> Prog (option AuthUser.t).
Variable is_url : string -> bool.
Variable trim : string -> string.

(** A guarded body answers as its guard or as the body behind it. *)
Lemma guarded_ends_with (Q : Response -> Prop) request (k : AuthUser.t -> Prog Response) :
  Q unauthorized -> (∀ user, ends_with Q (λ _, True) (k user)) ->
  ends_with Q (λ _, True)
    (user ← verifyAuth request;
     match user with
     | None => Ret unauthorized
     | Some user => k user
     end).
Proof.
  intros Hu Hk. unfold mbind, Prog_bind.
  apply (ends_with_bind (λ _, True)); [apply ends_with_any|].
  intros [user|] _; [apply Hk|by constructor].
Qed.

Lemma GET_nfts_ends request :
  ends_with GET_nfts_answer (λ _, False) (GET_nfts verifyAuth request).
Proof.
  unfold GET_nfts. apply (ends_with_try_catch _ (λ _, True)).
  - apply guarded_ends_with; [by left|]. intros user. unfold mbind, Prog_bind.
    apply (ends_with_bind (λ _, True)); [apply ends_with_any|].
    intros nfts _. constructor. right. right. by eexists.
  - intros e _. constructor. right. by left.
Qed.

Lemma request_json_ends request :
  ends_with (λ _, True) (λ _, True) (request_json request).
Proof. apply ends_with_any. Qed.

Lemma POST_nfts_ends request :
  ends_with POST_nfts_answer (λ _, False) (POST_nfts verifyAuth is_url trim request).
Proof.
  unfold POST_nfts. apply (ends_with_try_catch _ (λ _, True)).
  - apply guarded_ends_with; [by left|]. intros user. unfold mbind, Prog_bind.
    repeat (apply (ends_with_bind (λ _, True)); [apply ends_with_any|]; intros ? _).
    constructor. do 3 right. by eexists.
  - intros e _. apply on_error_answers; [right; by left|]. intros r Hr. right. right. by left.
Qed.

Lemma POST_nfts_mint_ends request :
  ends_with POST_nfts_mint_answer (λ _, False) (POST_nfts_mint verifyAuth request).
Proof.
  unfold POST_nfts_mint. apply (ends_with_try_catch _ (λ _, True)).
  - apply guarded_ends_with; [by left|]. intros user. unfold mbind, Prog_bind.
    apply (ends_with_bind (λ _, True)); [apply ends_with_any|]; intros body _.
    apply (ends_with_bind (λ _, True)); [apply ends_with_any|]; intros data _.
    apply (ends_with_bind (λ _, True)); [apply ends_with_any|]; intros [nft|] _;
      [|constructor; do 3 right; by left].
    destruct (bool_decide _); [constructor; do 4 right; by left|].
    destruct (NFT.isMinted _); [constructor; do 5 right; by left|].
    repeat (apply (ends_with_bind (λ _, True)); [apply ends_with_any|]; intros ? _).
    constructor. do 6 right. by eexists.
  - intros e _. apply on_error_answers; [right; by left|]. intros r Hr. right. right. by left.
Qed.

Lemma GET_collections_ends request :
  ends_with GET_collections_answer (λ _, False) (GET_collections verifyAuth request).
Proof.
  unfold GET_collections. apply (ends_with_try_catch _ (λ _, True)).
  - destruct (bool_decide _).
    + unfold mbind, Prog_bind.
      apply (ends_with_bind (λ _, True)); [apply ends_with_any|].
      intros cs _. constructor. right. right. left. by eexists.
    + apply guarded_ends_with; [by left|]. intros user. unfold mbind, Prog_bind.
      apply (ends_with_bind (λ _, True)); [apply ends_with_any|].
      intros cs _. constructor. do 3 right. by eexists.
  - intros e _. constructor. right. by left.
Qed.

Lemma POST_collections_ends request :
  ends_with POST_collections_answer (λ _, False) (POST_collections verifyAuth is_url request).
Proof.
  unfold POST_collections. apply (ends_with_try_catch _ (λ _, True)).
  - apply guarded_ends_with; [by left|]. intros user. unfold mbind, Prog_bind.
    repeat (apply (ends_with_bind (λ _, True)); [apply ends_with_any|]; intros ? _).
    constructor. do 3 right. by eexists.
  - intros e _. apply on_error_answers; [right; by left|]. intros r Hr. right. right. by left.
Qed.

(** X1. Every route answers every request: whatever [verifyAuth] does,
    whatever the body is and whichever calls the store fails, the handler
    returns a response and throws nothing, and the response is one of the
    answers the route source lists. *)
Theorem routes_always_answer request env w :
  (∃ r, (run (GET_nfts verifyAuth request) env w).1.1 = Returned r ∧ GET_nfts_answer r)
  ∧ (∃ r, (run (POST_nfts verifyAuth is_url trim request) env w).1.1 = Returned r
          ∧ POST_nfts_answer r)
  ∧ (∃ r, (run (POST_nfts_mint verifyAuth request) env w).1.1 = Returned r
          ∧ POST_nfts_mint_answer r)
  ∧ (∃ r, (run (GET_collections verifyAuth request) env w).1.1 = Returned r
          ∧ GET_collections_answer r)
  ∧ (∃ r, (run (POST_collections verifyAuth is_url request) env w).1.1 = Returned r
          ∧ POST_collections_answer r).
Proof.
  split_and!.
  - pose proof (run_ends_with _ _ _ (GET_nfts_ends request) env w) as H.
    destruct (run _ env w).1.1; [eauto|done].
  - pose proof (run_ends_with _ _ _ (POST_nfts_ends request) env w) as H.
    destruct (run _ env w).1.1; [eauto|done].
  - pose proof (run_ends_with _ _ _ (POST_nfts_mint_ends request) env w) as H.
    destruct (run _ env w).1.1; [eauto|done].
  - pose proof (run_ends_with _ _ _ (GET_collections_ends request) env w) as H.
    destruct (run _ env w).1.1; [eauto|done].
  - pose proof (run_ends_with _ _ _ (POST_collections_ends request) env w) as H.
    destruct (run _ env w).1.1; [eauto|done].
Qed.

End RouteAnswers.

(** ** Minting *)

Lemma reachable_S_tail n env : reachable (S n) env -> reachable 1 env ∧ reachable n (tail env).
Proof.
  destruct env as [|e env]; [intros _; split; apply reachable_nil|].
  intros [He Hr]%reachable_cons. split; [|done].
  apply reachable_cons. split; [done|apply reachable_0].
Qed.

Lemma find_nft_id i k n d : find_nft i d = Some (k, n) -> NFT.id n = i.
Proof. intros H. by apply list_find_Some in H as (_ & ? & _). Qed.

Lemma find_nft_update i k n n' d :
  find_nft i d = Some (k, n) -> NFT.id n' = i ->
  find_nft i (set_nfts (λ ns, <[k := n']> ns) d) = Some (k, n').
Proof. intros Hf Hid. unfold find_nft in *. simpl. by apply (list_find_insert _ _ _ n). Qed.

Lemma nft_of_update_other k n n' d j :
  nfts d !! k = Some n -> NFT.id n' = NFT.id n ->
  nft_of j (set_nfts (λ ns, <[k := n']> ns) d)
  = (λ nv, if decide (nv.1 = k) then n' else nv.2) <$> find_nft j d.
Proof.
  intros Hk Hid. unfold nft_of, find_nft. simpl.
  assert (NFT.id n = j <-> NFT.id n' = j) as Hiff by (by rewrite Hid).
  rewrite (list_find_insert_same (λ v, NFT.id v = j) _ _ n n' Hk Hiff).
  by destruct (list_find _ (nfts d)) as [[m z]|].
Qed.

Section Minting.

Variable verifyAuth : NextRequest -> Prog (option AuthUser.t).

(** The mint route on an authenticated request with a well-formed body,
    from the lookup of the NFT on. *)
Lemma mint_after_validation request env w user w1 tr1 j data :
  run (verifyAuth request) env w = (Returned (Some user), w1, tr1) ->
  body request = Some j ->
  mintNFTSchema j = inr data ->
  run (POST_nfts_mint verifyAuth request) env w =
    let '(o, w', tr) :=
      run (try_catch (mint_steps user data) on_error)
        (drop (length tr1) env) w1 in
    (o, w', tr1 ++ tr).
Proof.
  intros Hv Hb Hp.
  unfold POST_nfts_mint, mint_steps, request_json, parse, mbind, Prog_bind.
  rewrite !run_try_catch, run_bind, Hv, Hb. cbn [bind]. rewrite Hp. cbn [bind].
  destruct (run _ (drop (length tr1) env) w1) as [[[r|e] w2] tr2]; [done|].
  rewrite length_app, <- drop_drop.
  destruct (run (on_error e) _ w2) as [[o3 w3] tr3]. by rewrite app_assoc.
Qed.

(** X2. A mint request of the owner for an NFT not yet minted, with a
    well-formed body and a transaction hash not yet recorded, the store
    being reachable: the answer is 200 with the updated NFT, which is stored
    as minted with the token identifier and the contract address of the
    body and is otherwise as before; one transaction record is added, of
    type "mint" and status "pending", for the user, the NFT and the
    transaction hash of the body. *)
Theorem mint_succeeds request env w user w1 tr1 j data k n :
  run (verifyAuth request) env w = (Returned (Some user), w1, tr1) ->
  body request = Some j ->
  mintNFTSchema j = inr data ->
  reachable 3 (drop (length tr1) env) ->
  find_nft (mint_nftId data) (db w1) = Some (k, n) ->
  NFT.ownerId n = AuthUser.userId user ->
  NFT.isMinted n = false ->
  find_transaction_by_txHash (mint_txHash data) (db w1) = None ->
  ∃ n' t w' tr mintedAt updatedAt,
    run (POST_nfts_mint verifyAuth request) env w
    = (Returned (mkResponse (nft_body n') 200), w', tr)
    ∧ n' = minted_update (mint_tokenId data) (mint_contractAddress data)
             mintedAt updatedAt n
    ∧ NFT.isMinted n' = true
    ∧ NFT.tokenId n' = Some (mint_tokenId data)
    ∧ NFT.contractAddress n' = Some (mint_contractAddress data)
    ∧ NFT.mintedAt n' = Some mintedAt
    ∧ mintedAt = clock_after (take 1 (drop (length tr1) env)) (now w1)
    ∧ NFT.id n' = NFT.id n ∧ NFT.ownerId n' = NFT.ownerId n
    ∧ NFT.name n' = NFT.name n ∧ NFT.description n' = NFT.description n
    ∧ NFT.image n' = NFT.image n ∧ NFT.metadata n' = NFT.metadata n
    ∧ NFT.collectionId n' = NFT.collectionId n ∧ NFT.createdAt n' = NFT.createdAt n
    ∧ nfts (db w') = <[k := n']> (nfts (db w1))
    ∧ nft_of (mint_nftId data) (db w') = Some n'
    ∧ transactions (db w') = transactions (db w1) ++ [t]
    ∧ mint_transaction user data t
    ∧ users (db w') = users (db w1)
    ∧ collections (db w') = collections (db w1).
Proof.
  intros Hv Hb Hp Hr Hf Ho Hm Ht.
  rewrite (mint_after_validation _ _ _ _ _ _ _ _ Hv Hb Hp).
  set (env1 := drop (length tr1) env) in *.
  destruct (reachable_S_tail _ _ Hr) as [Hr1 Hr'].
  destruct (reachable_S_tail _ _ Hr') as [Hr2 Hr''].
  rewrite run_try_catch.
  unfold mint_steps, getNFTById, updateNFTMintStatus, createTransaction, await, new_Date,
    mbind, Prog_bind.
  cbn [bind]. rewrite run_Await by done. cbn [exec_op].
  unfold nft_of. rewrite Hf. cbn [fmap option_fmap option_map snd bind nf_nft findUnique_by_id].
  rewrite bool_decide_eq_false_2 by (by intros ?). rewrite Hm. cbn [bind].
  rewrite run_NewDate, run_Await by done. cbn [exec_op now db]. rewrite Hf. cbn [bind].
  rewrite run_Await by done. cbn [exec_op now db].
  cbn [tcd_txHash]. unfold find_transaction_by_txHash in *.
  cbn [transactions set_nfts]. rewrite Ht. cbn [bind tcd_txHash tcd_type tcd_status tcd_userId tcd_nftId tcd_blockHeight].
  rewrite run_Ret.
  eexists _, _, _, _, _, _.
  split; [reflexivity|]. split; [reflexivity|].
  cbn [db nfts set_nfts set_transactions transactions users collections].
  split_and!; try done.
  pose proof (find_nft_id _ _ _ _ Hf) as Hid.
  unfold nft_of, find_nft in *. cbn [nfts set_nfts set_transactions].
  by rewrite (list_find_insert _ _ _ n _ Hf).
Qed.

(** What the mint route can do to the store once the request is validated:
    nothing, or mark the owner's unminted NFT as minted, with or without the
    transaction record. *)
Lemma mint_steps_effect user data env w o w' tr :
  run (try_catch (mint_steps user data) on_error) env w = (o, w', tr) ->
  db w' = db w
  ∨ ∃ k n t1 t2,
      find_nft (mint_nftId data) (db w) = Some (k, n)
      ∧ NFT.ownerId n = AuthUser.userId user
      ∧ NFT.isMinted n = false
      ∧ let d1 := set_nfts (λ ns, <[k := minted_update (mint_tokenId data)
                                           (mint_contractAddress data) t1 t2 n]> ns)
                    (db w) in
        (db w' = d1 ∧ o = Returned internal_server_error)
        ∨ ∃ t, mint_transaction user data t
               ∧ find_transaction_by_txHash (mint_txHash data) (db w) = None
               ∧ db w' = set_transactions (λ ts, ts ++ [t]) d1.
Proof.
  unfold mint_steps, getNFTById, updateNFTMintStatus, createTransaction, await, new_Date,
    mbind, Prog_bind.
  cbn [bind try_catch].
  destruct env as [|[tk1 [|]] env]; run_step; try (by intros [= <- <- <-]; left);
    cbn [exec_op]; unfold nft_of;
    (destruct (find_nft (mint_nftId data) (db w)) as [[k n]|] eqn:Hf;
       cbn [fmap option_fmap option_map snd bind try_catch nf_nft findUnique_by_id];
       [|destruct (is_ObjectId (mint_nftId data));
         cbn [bind try_catch on_error isZodError]; run_step;
         (by intros [= <- <- <-]; left)]);
    (destruct (bool_decide (NFT.ownerId n ≠ AuthUser.userId user)) eqn:Ho;
       [cbn [try_catch]; run_step; by intros [= <- <- <-]; left|]);
    apply bool_decide_eq_false in Ho; apply dec_stable in Ho;
    (destruct (NFT.isMinted n) eqn:Hm;
       [cbn [try_catch]; run_step; by intros [= <- <- <-]; left|]);
    cbn [bind try_catch]; run_step.
  - run_step. cbn [exec_op]. rewrite Hf. cbn [bind try_catch]. run_step.
    cbn [exec_op tcd_txHash]. unfold find_transaction_by_txHash. cbn [transactions set_nfts].
    destruct (list_find _ (transactions (db w))) as [x|] eqn:Ht;
      cbn [bind try_catch on_error isZodError]; run_step; intros [= <- <- <-]; right;
      eexists k, n, _, _; (split_and!; [done..|]); cbn zeta; [by left|].
    right. eexists. split_and!; [|done|reflexivity]. by repeat split.
  - destruct env as [|[tk2 [|]] env]; run_step;
      try (by cbn [bind try_catch on_error isZodError]; run_step; intros [= <- <- <-]; left);
      cbn [exec_op]; rewrite Hf; cbn [bind try_catch].
    + run_step. cbn [exec_op tcd_txHash]. unfold find_transaction_by_txHash.
      cbn [transactions set_nfts].
      destruct (list_find _ (transactions (db w))) as [x|] eqn:Ht;
        cbn [bind try_catch on_error isZodError]; run_step; intros [= <- <- <-]; right;
        eexists k, n, _, _; (split_and!; [done..|]); cbn zeta; [by left|].
      right. eexists. split_and!; [|done|reflexivity]. by repeat split.
    + destruct env as [|[tk3 [|]] env]; run_step.
      * cbn [exec_op tcd_txHash]. unfold find_transaction_by_txHash.
        cbn [transactions set_nfts].
        destruct (list_find _ (transactions (db w))) as [x|] eqn:Ht;
          cbn [bind try_catch on_error isZodError]; run_step; intros [= <- <- <-]; right;
          eexists k, n, _, _; (split_and!; [done..|]); cbn zeta; [by left|].
        right. eexists. split_and!; [|done|reflexivity]. by repeat split.
      * cbn [bind try_catch on_error isZodError]. run_step. intros [= <- <- <-]. right.
        eexists k, n, _, _. split_and!; [done..|]. cbn zeta. by left.
      * cbn [exec_op tcd_txHash]. unfold find_transaction_by_txHash.
        cbn [transactions set_nfts].
        destruct (list_find _ (transactions (db w))) as [x|] eqn:Ht;
          cbn [bind try_catch on_error isZodError]; run_step; intros [= <- <- <-]; right;
          eexists k, n, _, _; (split_and!; [done..|]); cbn zeta; [by left|].
        right. eexists. split_and!; [|done|reflexivity]. by repeat split.
Qed.

(** A request that does not get through the validation leaves the store as
    the validation left it. *)
Lemma mint_route_effect request env w ov w1 tr1 o w' tr :
  run (verifyAuth request) env w = (ov, w1, tr1) ->
  run (POST_nfts_mint verifyAuth request) env w = (o, w', tr) ->
  db w' = db w1
  ∨ ∃ user data o2 w2 tr2,
      run (try_catch (mint_steps user data) on_error) (drop (length tr1) env) w1
      = (o2, w2, tr2)
      ∧ db w' = db w2.
Proof.
  intros Hv Hrun.
  destruct ov as [[user|]|e].
  - destruct (body request) as [j|] eqn:Hb.
    + destruct (mintNFTSchema j) as [issues|data] eqn:Hp.
      * revert Hrun. unfold POST_nfts_mint, request_json, parse, mbind, Prog_bind.
        rewrite run_try_catch, run_bind, Hv, Hb. cbn [bind]. rewrite Hp. cbn [bind].
        rewrite run_Throw. cbn [length app]. unfold on_error. cbn [isZodError].
        rewrite run_Ret. intros [= <- <- <-]. by left.
      * rewrite (mint_after_validation _ _ _ _ _ _ _ _ Hv Hb Hp) in Hrun.
        destruct (run _ (drop (length tr1) env) w1) as [[o2 w2] tr2] eqn:E.
        injection Hrun as <- <- <-. right. by eexists user, data, _, _, _.
    + revert Hrun. unfold POST_nfts_mint, request_json, parse, mbind, Prog_bind.
      rewrite run_try_catch, run_bind, Hv, Hb. cbn [bind].
      rewrite run_Throw. cbn [length app]. unfold on_error. cbn [isZodError].
      rewrite run_Ret. intros [= <- <- <-]. by left.
  - revert Hrun. unfold POST_nfts_mint, mbind, Prog_bind.
    rewrite run_try_catch, run_bind, Hv. rewrite run_Ret. intros [= <- <- <-]. by left.
  - revert Hrun. unfold POST_nfts_mint, mbind, Prog_bind.
    rewrite run_try_catch, run_bind, Hv.
    destruct (run (on_error e) _ w1) as [[o3 w3] tr3] eqn:E. intros [= <- <- <-].
    left. revert E. unfold on_error. destruct (isZodError e); rewrite run_Ret; congruence.
Qed.

(** X3. The mint route never touches an NFT that is already minted: whatever
    the request, the credential and the failures of the store, a minted NFT
    is stored after the request exactly as before, with its token
    identifier, contract address and mint date. *)
Theorem minted_nft_is_never_reminted request env w ov w1 tr1 o w' tr i n0 :
  run (verifyAuth request) env w = (ov, w1, tr1) ->
  run (POST_nfts_mint verifyAuth request) env w = (o, w', tr) ->
  nft_of i (db w1) = Some n0 ->
  NFT.isMinted n0 = true ->
  nft_of i (db w') = Some n0.
Proof.
  intros Hv Hrun Hn Hm.
  destruct (mint_route_effect _ _ _ _ _ _ _ _ _ Hv Hrun)
    as [->|(user & data & o2 & w2 & tr2 & Hsteps & ->)]; [done|].
  destruct (mint_steps_effect _ _ _ _ _ _ _ Hsteps)
    as [->|(k & n & t1 & t2 & Hf & _ & Hu & Heff)]; [done|].
  assert (nft_of i (set_nfts (λ ns, <[k := minted_update (mint_tokenId data)
                                     (mint_contractAddress data) t1 t2 n]> ns) (db w1))
          = Some n0) as Hkeep.
  { pose proof Hf as (Hk & _)%list_find_Some.
    rewrite (nft_of_update_other k n) by done.
    unfold nft_of in Hn. destruct (find_nft i (db w1)) as [[k0 m]|] eqn:Hf0; [|done].
    cbn in Hn. injection Hn as ->. cbn. destruct (decide (k0 = k)) as [->|]; [|done].
    pose proof Hf0 as (Hk0 & _)%list_find_Some. congruence. }
  cbn zeta in Heff. destruct Heff as [[-> _]|(t & _ & _ & ->)]; [done|].
  exact Hkeep.
Qed.

(** X4. The two writes of a mint are not undone together: when the
    transaction record cannot be written, because its hash is already
    recorded or because the store fails that call, the answer is 500 and
    the NFT nevertheless stays stored as minted, with no transaction
    record added. *)
Theorem mint_without_transaction request env w user w1 tr1 j data k n :
  run (verifyAuth request) env w = (Returned (Some user), w1, tr1) ->
  body request = Some j ->
  mintNFTSchema j = inr data ->
  reachable 2 (drop (length tr1) env) ->
  find_nft (mint_nftId data) (db w1) = Some (k, n) ->
  NFT.ownerId n = AuthUser.userId user ->
  NFT.isMinted n = false ->
  is_Some (find_transaction_by_txHash (mint_txHash data) (db w1))
  ∨ (∃ tk, drop (length tr1) env !! 2%nat = Some (mkEnv tk true)) ->
  ∃ n' w' tr,
    run (POST_nfts_mint verifyAuth request) env w = (Returned internal_server_error, w', tr)
    ∧ nft_of (mint_nftId data) (db w') = Some n'
    ∧ NFT.isMinted n' = true
    ∧ NFT.tokenId n' = Some (mint_tokenId data)
    ∧ NFT.contractAddress n' = Some (mint_contractAddress data)
    ∧ transactions (db w') = transactions (db w1).
Proof.
  intros Hv Hb Hp Hr Hf Ho Hm Hfail.
  rewrite (mint_after_validation _ _ _ _ _ _ _ _ Hv Hb Hp).
  set (env1 := drop (length tr1) env) in *.
  destruct (reachable_S_tail _ _ Hr) as [Hr1 Hr2].
  pose proof (find_nft_id _ _ _ _ Hf) as Hid.
  rewrite run_try_catch.
  unfold mint_steps, getNFTById, updateNFTMintStatus, createTransaction, await, new_Date,
    mbind, Prog_bind.
  cbn [bind]. rewrite run_Await by done. cbn [exec_op].
  unfold nft_of. rewrite Hf. cbn [fmap option_fmap option_map snd bind nf_nft findUnique_by_id].
  rewrite bool_decide_eq_false_2 by (by intros ?). rewrite Hm. cbn [bind].
  rewrite run_NewDate, run_Await by done. cbn [exec_op now db]. rewrite Hf. cbn [bind].
  set (n' := minted_update _ _ _ _ n).
  assert (∀ t, nft_of (mint_nftId data)
                 (db (mkWorld (set_nfts (λ ns, <[k := n']> ns) (db w1)) t)) = Some n')
    as Hstored.
  { intros t. unfold nft_of. cbn [db]. by rewrite (find_nft_update _ _ n). }
  destruct Hfail as [[x Hx]|[tk Hk]].
  - destruct (tail (tail env1)) as [|[tk3 [|]] env3].
    + rewrite run_Await by apply reachable_nil. cbn [exec_op tcd_txHash now db].
      unfold find_transaction_by_txHash in *. cbn [transactions set_nfts]. rewrite Hx.
      cbn [bind]. rewrite run_Throw. unfold on_error. cbn [isZodError]. rewrite run_Ret.
      eexists n', _, _. split; [reflexivity|]. split_and!; [apply Hstored|done..].
    + rewrite run_Await_fail. cbn [bind]. rewrite run_Throw.
      unfold on_error. cbn [isZodError]. rewrite run_Ret.
      eexists n', _, _. split; [reflexivity|]. split_and!; [apply Hstored|done..].
    + rewrite run_Await by solve_reachable. cbn [exec_op tcd_txHash now db].
      unfold find_transaction_by_txHash in *. cbn [transactions set_nfts]. rewrite Hx.
      cbn [bind]. rewrite run_Throw. unfold on_error. cbn [isZodError]. rewrite run_Ret.
      eexists n', _, _. split; [reflexivity|]. split_and!; [apply Hstored|done..].
  - assert (tail (tail env1) = mkEnv tk true :: drop 3 env1) as ->.
    { clear -Hk. destruct env1 as [|e1 [|e2 [|e3 env3]]]; try done.
      cbn in Hk. by simplify_eq. }
    rewrite run_Await_fail. cbn [bind]. rewrite run_Throw.
    unfold on_error. cbn [isZodError]. rewrite run_Ret.
    eexists n', _, _. split; [reflexivity|]. split_and!; [apply Hstored|done..].
Qed.

End Minting.

(** ** Request bodies *)

Lemma z_string_min1_inr key message v s :
  z_string_min1 key message v = inr s <-> v = Some (JStr s) ∧ s ≠ "".
Proof.
  unfold z_string_min1, invalid. destruct v as [[| | |s'| |]|]; try (split; [done|by intros [? _]]).
  destruct (bool_decide (s' = "")) eqn:E.
  - apply bool_decide_eq_true in E. split; [done|]. intros [[= ->] ?]. done.
  - apply bool_decide_eq_false in E. split; [by intros [= ->]|by intros [[= ->] _]].
Qed.

Lemma both_inr {A B : Type} (a : Parsed A) (b : Parsed B) x y :
  both a b = inr (x, y) <-> a = inr x ∧ b = inr y.
Proof.
  destruct a, b; cbn; split; try done; try (by intros [? ?]).
  - by intros [= -> ->].
  - by intros [[= ->] [= ->]].
Qed.

(** X5. [mintNFTSchema] accepts exactly the JSON objects whose [nftId],
    [txHash], [contractAddress] and [tokenId] are non-empty strings, and
    parses them to these four strings; whatever else the object holds has no
    influence. *)
Theorem mintNFTSchema_accepts j d :
  mintNFTSchema j = inr d
  <-> ∃ m, j = JObj m
           ∧ m !! "nftId" = Some (JStr (mint_nftId d)) ∧ mint_nftId d ≠ ""
           ∧ m !! "txHash" = Some (JStr (mint_txHash d)) ∧ mint_txHash d ≠ ""
           ∧ m !! "contractAddress" = Some (JStr (mint_contractAddress d))
           ∧ mint_contractAddress d ≠ ""
           ∧ m !! "tokenId" = Some (JStr (mint_tokenId d)) ∧ mint_tokenId d ≠ "".
Proof.
  unfold mintNFTSchema, z_object. split.
  - destruct j as [| | | | |m]; try done.
    destruct (both _ _) as [issues|[a [b [c e]]]] eqn:E; [done|].
    intros [= <-]. cbn.
    apply both_inr in E as [Ha E]. apply both_inr in E as [Hb E].
    apply both_inr in E as [Hc He].
    apply z_string_min1_inr in Ha as [Ha Ha'], Hb as [Hb Hb'], Hc as [Hc Hc'],
      He as [He He'].
    exists m. by split_and!.
  - intros (m & -> & Ha & Ha' & Hb & Hb' & Hc & Hc' & He & He').
    assert (both (z_string_min1 "nftId" "NFT ID is required" (m !! "nftId"))
              (both (z_string_min1 "txHash" "Transaction hash is required" (m !! "txHash"))
                 (both (z_string_min1 "contractAddress" "Contract address is required"
                          (m !! "contractAddress"))
                    (z_string_min1 "tokenId" "Token ID is required" (m !! "tokenId"))))
            = inr (mint_nftId d, (mint_txHash d, (mint_contractAddress d, mint_tokenId d))))
      as ->.
    { repeat (apply both_inr; split); by apply z_string_min1_inr. }
    by destruct d.
Qed.

Section Bodies.

Variable verifyAuth : NextRequest -> Prog (option AuthUser.t).
Variable is_url : string -> bool.
Variable trim : string -> string.

(** X6. A body that is refused never reaches the store.  For an
    authenticated request, a body that is not JSON is answered 500 and a
    JSON body that the schema of the route rejects is answered 400 with the
    schema's issues as details; in both cases the route makes no call to the
    repository. *)
Theorem refused_body_reaches_no_store request env w user w1 tr1 :
  run (verifyAuth request) env w = (Returned (Some user), w1, tr1) ->
  (body request = None ->
     run (POST_nfts verifyAuth is_url trim request) env w
     = (Returned internal_server_error, w1, tr1)
     ∧ run (POST_nfts_mint verifyAuth request) env w
       = (Returned internal_server_error, w1, tr1)
     ∧ run (POST_collections verifyAuth is_url request) env w
       = (Returned internal_server_error, w1, tr1))
  ∧ (∀ j issues,
       body request = Some j ->
       let refused := (Returned (mkResponse (error_body "Invalid request data"
                                               (Some issues)) 400), w1, tr1) in
       (createNFTSchema is_url trim j = inl issues ->
        run (POST_nfts verifyAuth is_url trim request) env w = refused)
       ∧ (mintNFTSchema j = inl issues ->
          run (POST_nfts_mint verifyAuth request) env w = refused)
       ∧ (createCollectionSchema is_url j = inl issues ->
          run (POST_collections verifyAuth is_url request) env w = refused)).
Proof.
  intros Hv. split.
  - intros Hb.
    unfold POST_nfts, POST_nfts_mint, POST_collections, request_json, mbind, Prog_bind.
    rewrite !run_try_catch, !run_bind, Hv, Hb. cbn [bind]. rewrite !run_Throw.
    unfold on_error. cbn [isZodError]. rewrite !run_Ret. by rewrite !app_nil_r.
  - intros j issues Hb refused. subst refused.
    unfold POST_nfts, POST_nfts_mint, POST_collections, request_json, parse, mbind, Prog_bind.
    rewrite !run_try_catch, !run_bind, Hv, Hb. cbn [bind].
    split_and!; intros ->; cbn [bind]; rewrite run_Throw; unfold on_error;
      cbn [isZodError]; rewrite run_Ret; by rewrite !app_nil_r.
Qed.

End Bodies.

(** ** Listings *)

Lemma newest_first_perm {A : Type} (createdAt : A -> Date) (l : list A) :
  newest_first createdAt l ≡ₚ l.
Proof. apply merge_sort_Permutation. Qed.

Lemma newest_first_sorted {A : Type} (createdAt : A -> Date) (l : list A) :
  StronglySorted (not_older createdAt) (newest_first createdAt l).
Proof.
  apply StronglySorted_merge_sort.
  - intros a b c. unfold not_older. lia.
  - intros a b. unfold not_older. lia.
Qed.

Section Listings.

Variable verifyAuth : NextRequest -> Prog (option AuthUser.t).

(** X7. [GET /api/nfts] of an authenticated user, the store being
    reachable: the answer is 200 with all the NFTs of which the user is the
    owner and no other, the most recently created first, each with its
    collection and its transactions; the store is left as it is. *)
Theorem GET_nfts_lists_own_nfts request env w user w1 tr1 :
  run (verifyAuth request) env w = (Returned (Some user), w1, tr1) ->
  reachable 1 (drop (length tr1) env) ->
  ∃ l w',
    run (GET_nfts verifyAuth request) env w
    = (Returned (mkResponse (nfts_body l) 200), w',
       tr1 ++ [Called (nFT_findMany_ownerId (AuthUser.userId user)) false])
    ∧ db w' = db w1
    ∧ nwt_nft <$> l
      ≡ₚ filter (λ n, NFT.ownerId n = AuthUser.userId user) (nfts (db w1))
    ∧ StronglySorted (not_older NFT.createdAt) (nwt_nft <$> l)
    ∧ Forall (λ x, nwt_collection x = collection_of_nft (nwt_nft x) (db w1)
                   ∧ nwt_transactions x
                     = filter (λ t, Transaction.nftId t = Some (NFT.id (nwt_nft x)))
                         (transactions (db w1))) l.
Proof.
  intros Hv Hr.
  unfold GET_nfts, getNFTsByOwner, await, mbind, Prog_bind.
  rewrite run_try_catch, run_bind, Hv. cbn [bind].
  rewrite run_Await by done. cbn [exec_op bind]. rewrite run_Ret.
  eexists _, _. split; [reflexivity|]. cbn [db].
  split; [done|].
  rewrite <- list_fmap_compose.
  rewrite (list_fmap_ext _ id) by done.
  rewrite list_fmap_id.
  split_and!.
  - apply newest_first_perm.
  - apply newest_first_sorted.
  - apply Forall_fmap, Forall_forall. by intros n _.
Qed.

(** X8. [GET /api/collections]: with [public=true] in the query the
    credential is not examined and the answer lists the public collections,
    and only these; otherwise an authenticated user gets the collections of
    which they are the owner, private ones included, and no other.  Both
    lists have the most recently created first, and the store is left as it
    is. *)
Theorem GET_collections_lists request env w :
  (searchParams_get "public" request = Some "true" ->
   reachable 1 env ->
   ∃ l w',
     run (GET_collections verifyAuth request) env w
     = (Returned (mkResponse (public_collections_body l) 200), w',
        [Called collection_findMany_public false])
     ∧ db w' = db w
     ∧ cf_collection <$> l
       ≡ₚ filter (λ c, Collection.isPublic c = true) (collections (db w))
     ∧ StronglySorted (not_older Collection.createdAt) (cf_collection <$> l))
  ∧ (∀ user w1 tr1,
       searchParams_get "public" request ≠ Some "true" ->
       run (verifyAuth request) env w = (Returned (Some user), w1, tr1) ->
       reachable 1 (drop (length tr1) env) ->
       ∃ l w',
         run (GET_collections verifyAuth request) env w
         = (Returned (mkResponse (collections_body l) 200), w',
            tr1 ++ [Called (collection_findMany_ownerId (AuthUser.userId user)) false])
         ∧ db w' = db w1
         ∧ cwn_collection <$> l
           ≡ₚ filter (λ c, Collection.ownerId c = AuthUser.userId user)
                (collections (db w1))
         ∧ StronglySorted (not_older Collection.createdAt) (cwn_collection <$> l)).
Proof.
  split.
  - intros Hq Hr.
    unfold GET_collections, getPublicCollections, await, mbind, Prog_bind.
    rewrite bool_decide_eq_true_2 by done.
    rewrite run_try_catch. cbn [bind].
    rewrite run_Await by done. cbn [exec_op bind]. rewrite run_Ret.
    eexists _, _. split; [reflexivity|]. cbn [db]. split; [done|].
    rewrite <- list_fmap_compose.
    rewrite (list_fmap_ext _ id) by done.
    rewrite list_fmap_id.
    split; [apply newest_first_perm|apply newest_first_sorted].
  - intros user w1 tr1 Hq Hv Hr.
    unfold GET_collections, getCollectionsByOwner, await, mbind, Prog_bind.
    rewrite bool_decide_eq_false_2 by done.
    rewrite run_try_catch, run_bind, Hv. cbn [bind].
    rewrite run_Await by done. cbn [exec_op bind]. rewrite run_Ret.
    eexists _, _. split; [reflexivity|]. cbn [db]. split; [done|].
    rewrite <- list_fmap_compose.
    rewrite (list_fmap_ext _ id) by done.
    rewrite list_fmap_id.
    split; [apply newest_first_perm|apply newest_first_sorted].
Qed.

End Listings.

(** ** Creations *)

Lemma find_fresh {A : Type} (key : A -> string) (l : list A) :
  list_find (λ x, key x = new_ObjectId (key <$> l)) l = None.
Proof.
  apply list_find_None, Forall_forall. intros x Hx E.
  apply (new_ObjectId_fresh (key <$> l)). rewrite <- E. by apply list_elem_of_fmap_2.
Qed.

Section Creations.

Variable verifyAuth : NextRequest -> Prog (option AuthUser.t).
Variable is_url : string -> bool.
Variable trim : string -> string.

(** X9. [POST /api/nfts] of an authenticated user with a body that the
    schema accepts, the store being reachable: the answer is 201 and one
    NFT is added to the store, under an identifier not in use.  Its owner is
    the authenticated user and it is not minted (no token identifier,
    contract address or mint date), whatever the body holds besides the
    parsed fields; name, description, image, metadata and collection are
    those parsed.  A later lookup under its identifier finds it. *)
Theorem POST_nfts_creates request env w user w1 tr1 j data :
  run (verifyAuth request) env w = (Returned (Some user), w1, tr1) ->
  body request = Some j ->
  createNFTSchema is_url trim j = inr data ->
  reachable 1 (drop (length tr1) env) ->
  ∃ n w' tr,
    run (POST_nfts verifyAuth is_url trim request) env w
    = (Returned (mkResponse
                   (created_nft_body
                      (mkNFTWithOwner n (user_of (AuthUser.userId user) (db w1))
                         (collection_of_nft n (db w1)))) 201), w', tr)
    ∧ nfts (db w') = nfts (db w1) ++ [n]
    ∧ (NFT.id n ∉ NFT.id <$> nfts (db w1))
    ∧ nft_of (NFT.id n) (db w') = Some n
    ∧ NFT.ownerId n = AuthUser.userId user
    ∧ NFT.isMinted n = false
    ∧ NFT.tokenId n = None ∧ NFT.contractAddress n = None ∧ NFT.mintedAt n = None
    ∧ NFT.name n = cnr_name data
    ∧ NFT.description n = cnr_description data
    ∧ NFT.image n = cnr_image data
    ∧ NFT.metadata n = cnr_metadata data
    ∧ NFT.collectionId n = cnr_collectionId data
    ∧ users (db w') = users (db w1)
    ∧ collections (db w') = collections (db w1)
    ∧ transactions (db w') = transactions (db w1).
Proof.
  intros Hv Hb Hp Hr.
  unfold POST_nfts, request_json, parse, createNFT, await, mbind, Prog_bind.
  rewrite run_try_catch, run_bind, Hv, Hb. cbn [bind]. rewrite Hp. cbn [bind].
  rewrite run_Await by done. cbn [exec_op bind]. rewrite run_Ret.
  eexists _, _, _. split; [reflexivity|].
  cbn [db nfts users collections transactions set_nfts NFT.id NFT.ownerId NFT.isMinted
       NFT.tokenId NFT.contractAddress NFT.mintedAt NFT.name NFT.description NFT.image
       NFT.metadata NFT.collectionId ncd_name ncd_description ncd_image ncd_metadata
       ncd_ownerId ncd_collectionId].
  split_and!; try done.
  - apply new_ObjectId_fresh.
  - unfold nft_of, find_nft, set_nfts. cbn [nfts].
    rewrite list_find_app_r by apply (find_fresh NFT.id). cbn.
    by rewrite decide_True.
Qed.

(** X10. [POST /api/collections] of an authenticated user with a body that
    the schema accepts, the store being reachable: the answer is 201 and one
    collection is added to the store, under an identifier not in use, owned
    by the authenticated user; it is public unless the body says
    [isPublic: false].  The owner's next listing contains it. *)
Theorem POST_collections_creates request env w user w1 tr1 j data :
  run (verifyAuth request) env w = (Returned (Some user), w1, tr1) ->
  body request = Some j ->
  createCollectionSchema is_url j = inr data ->
  reachable 1 (drop (length tr1) env) ->
  ∃ c w' tr,
    run (POST_collections verifyAuth is_url request) env w
    = (Returned (mkResponse
                   (collection_body
                      (mkCollectionFull c (user_of (AuthUser.userId user) (db w1)) []))
                   201), w', tr)
    ∧ collections (db w') = collections (db w1) ++ [c]
    ∧ (Collection.id c ∉ Collection.id <$> collections (db w1))
    ∧ Collection.ownerId c = AuthUser.userId user
    ∧ Collection.name c = ccr_name data
    ∧ Collection.isPublic c = ccr_isPublic data
    ∧ (∀ m, j = JObj m -> m !! "isPublic" = None -> Collection.isPublic c = true)
    ∧ (∀ env', reachable 1 env' ->
         ∃ l, (run (getCollectionsByOwner (AuthUser.userId user)) env' w').1.1 = Returned l
              ∧ c ∈ (cwn_collection <$> l)).
Proof.
  intros Hv Hb Hp Hr.
  unfold POST_collections, request_json, parse, createCollection, await, mbind, Prog_bind.
  rewrite run_try_catch, run_bind, Hv, Hb. cbn [bind]. rewrite Hp. cbn [bind].
  rewrite run_Await by done. cbn [exec_op bind]. rewrite run_Ret.
  eexists _, _, _. split; [reflexivity|].
  cbn [db collections set_collections Collection.id Collection.ownerId Collection.name
       Collection.isPublic ccd_name ccd_isPublic ccd_ownerId default].
  split_and!; try done.
  - apply new_ObjectId_fresh.
  - intros m -> Hm. revert Hp. unfold createCollectionSchema, z_object.
    destruct (both _ _) as [issues|[a [b [c [e f]]]]] eqn:E; [done|].
    intros [= <-]. cbn.
    apply both_inr in E as [_ E]. apply both_inr in E as [_ E].
    apply both_inr in E as [_ E]. apply both_inr in E as [_ E].
    rewrite Hm in E. by injection E as <-.
  - intros env' Hr'.
    unfold getCollectionsByOwner, await. rewrite run_Await by done.
    cbn [exec_op bind]. rewrite run_Ret. eexists. split; [reflexivity|].
    rewrite <- list_fmap_compose, (list_fmap_ext _ id) by done. rewrite list_fmap_id.
    rewrite newest_first_perm. unfold collections_of_owner.
    cbn [db collections set_collections]. rewrite filter_app.
    apply elem_of_app. right. rewrite filter_cons, decide_True by done.
    apply list_elem_of_here.
Qed.

End Creations.

(** ** What the repository never does *)

Lemma keeps_records_refl d : keeps_records d d.
Proof. by repeat split. Qed.

Lemma keeps_records_trans d1 d2 d3 :
  keeps_records d1 d2 -> keeps_records d2 d3 -> keeps_records d1 d3.
Proof.
  intros (Hu & Hn & Hc & Ht) (Hu' & Hn' & Hc' & Ht').
  repeat split; by etrans.
Qed.

Lemma fmap_insert_same_key {A B : Type} (key : A -> B) (l : list A) k x y :
  l !! k = Some x -> key y = key x -> key <$> <[k := y]> l = key <$> l.
Proof.
  intros Hk Hy. rewrite list_fmap_insert, Hy.
  apply list_insert_id. by rewrite list_lookup_fmap, Hk.
Qed.

Lemma exec_op_keeps_records {R : Type} (op : DbOp R) t d :
  keeps_records d (exec_op op t d).2.
Proof.
  destruct op; cbn [exec_op]; try apply keeps_records_refl.
  - destruct (find_user_by_walletAddress _ d); [apply keeps_records_refl|].
    repeat split; try done. cbn. rewrite fmap_app. by apply prefix_app_r.
  - unfold update_user. destruct (find_user id d) as [[k u]|] eqn:E;
      [|apply keeps_records_refl].
    apply list_find_Some in E as (Hk & _).
    repeat split; try done. cbn. by rewrite (fmap_insert_same_key _ _ _ u).
  - unfold update_user. destruct (find_user id d) as [[k u]|] eqn:E;
      [|apply keeps_records_refl].
    apply list_find_Some in E as (Hk & _).
    repeat split; try done. cbn. by rewrite (fmap_insert_same_key _ _ _ u).
  - repeat split; try done. cbn. rewrite fmap_app. by apply prefix_app_r.
  - destruct (find_nft _ d) as [[k n]|] eqn:E; [|apply keeps_records_refl].
    apply list_find_Some in E as (Hk & _).
    repeat split; try done. cbn. by rewrite (fmap_insert_same_key _ _ _ n).
  - repeat split; try done. cbn. by apply prefix_app_r.
  - destruct (find_transaction_by_txHash _ d); [apply keeps_records_refl|].
    repeat split; try done. cbn. rewrite fmap_app. by apply prefix_app_r.
  - destruct (find_transaction_by_txHash _ d) as [[k x]|] eqn:E;
      [|apply keeps_records_refl].
    apply list_find_Some in E as (Hk & _).
    repeat split; try done. cbn. by rewrite (fmap_insert_same_key _ _ _ x).
Qed.

Lemma exec_op_unique_txHashes {R : Type} (op : DbOp R) t d :
  unique_txHashes d -> unique_txHashes (exec_op op t d).2.
Proof.
  unfold unique_txHashes. intros Hd.
  destruct op; cbn [exec_op]; try done.
  - by destruct (find_user_by_walletAddress _ d).
  - unfold update_user. by destruct (find_user id d) as [[k u]|].
  - unfold update_user. by destruct (find_user id d) as [[k u]|].
  - by destruct (find_nft _ d) as [[k n]|].
  - destruct (find_transaction_by_txHash _ d) eqn:E; [done|]. cbn.
    rewrite fmap_app. apply NoDup_app. split_and!; [done| |apply NoDup_singleton].
    intros h Hh ->%list_elem_of_singleton.
    apply list_elem_of_fmap in Hh as (x & Hx & Hin).
    unfold find_transaction_by_txHash in E.
    rewrite list_find_None, Forall_forall in E. by apply (E x).
  - destruct (find_transaction_by_txHash _ d) as [[k x]|] eqn:E; [|done]. cbn.
    apply list_find_Some in E as (Hk & _).
    by rewrite (fmap_insert_same_key _ _ _ x).
Qed.

(** X11. Whatever bodies run concurrently, in whatever order their calls
    reach the store and whichever of them fail, the repository deletes
    nothing and re-keys nothing: every record stays at its place with its
    identifier, a user keeps its wallet address, an NFT its owner, a
    transaction its hash, user and NFT, and a collection is never modified;
    and the transaction hashes stay unique. *)
Theorem repository_keeps_records (A : Type) (pool : list (Prog A)) ss w :
  keeps_records (db w) (db (sched ss (pool, w)).2)
  ∧ (unique_txHashes (db w) -> unique_txHashes (db (sched ss (pool, w)).2))
  ∧ (∀ (p : Prog A) env, keeps_records (db w) (db (run p env w).1.2)).
Proof.
  split_and!.
  - apply (sched_invariant (keeps_records (db w))); [|apply keeps_records_refl].
    intros R op t d Hd. eapply keeps_records_trans; [done|apply exec_op_keeps_records].
  - apply sched_invariant. intros R op t d. apply exec_op_unique_txHashes.
  - intros p env.
    apply (run_preserves (λ _ _, True) keeps_records keeps_records_refl keeps_records_trans).
    + intros R op t d _. apply exec_op_keeps_records.
    + clear. induction p; by constructor.
Qed.

(** ** What the login bookkeeping touches *)

Lemma updateUserLogin_effect i env w :
  db (run (updateUserLogin i) env w).1.2 = db w
  ∨ ∃ k u t t',
      find_user i (db w) = Some (k, u)
      ∧ db (run (updateUserLogin i) env w).1.2
        = set_users (λ us, <[k := login_update t 1 t' u]> us) (db w).
Proof.
  unfold updateUserLogin, await, new_Date, mbind, Prog_bind. cbn [bind]. run_step.
  destruct env as [|[tk1 [|]] env]; run_step; try (by left);
    cbn [exec_op]; unfold update_user;
    (destruct (find_user i (db w)) as [[k u]|] eqn:Hf; cbn [bind]; run_step;
       [right; by eexists k, u, _, _|by left]).
Qed.

Lemma addConnectionHistory_effect i data env w :
  db (run (addConnectionHistory i data) env w).1.2 = db w
  ∨ ∃ k u h t,
      find_user i (db w) = Some (k, u)
      ∧ db (run (addConnectionHistory i data) env w).1.2
        = set_users (λ us, <[k := history_update h t u]> us) (db w).
Proof.
  destruct (run (addConnectionHistory i data) env w) as [[[u'|e] w'] tr] eqn:Hrun.
  - destruct (addConnectionHistory_returned _ _ _ _ _ _ _ Hrun) as [(k & u & Hf) Hr].
    rewrite (addConnectionHistory_found _ _ _ _ _ _ Hf Hr) in Hrun.
    injection Hrun as _ <- _. right. by eexists k, u, _, _.
  - left. by apply (addConnectionHistory_thrown _ _ _ _ _ _ _ Hrun).
Qed.

Lemma user_of_update_frame i k u u' d j :
  find_user i d = Some (k, u) -> User.id u' = User.id u -> j ≠ i ->
  user_of j (set_users (λ us, <[k := u']> us) d) = user_of j d.
Proof.
  intros Hf Hid Hne. pose proof Hf as (Hk & Hi & _)%list_find_Some.
  rewrite (user_of_update_other k u) by done. unfold user_of.
  destruct (find_user j d) as [[k' v]|] eqn:E; [|done]. cbn.
  destruct (decide (k' = k)) as [->|]; [|done].
  apply list_find_Some in E as (Hk' & Hj & _). congruence.
Qed.

(** X12. The bookkeeping of a login touches one user and, of that user, only
    what it records.  Whatever the environment does, [updateUserLogin] and
    [addConnectionHistory] leave every other user and all NFTs, collections
    and transactions as they are; [updateUserLogin] leaves the user's
    history, and [addConnectionHistory] the user's counter and
    [lastLoginAt], as they are; neither changes the wallet address. *)
Theorem bookkeeping_touches_one_user i data env w :
  let d1 := db (run (updateUserLogin i) env w).1.2 in
  let d2 := db (run (addConnectionHistory i data) env w).1.2 in
  (∀ j, j ≠ i -> user_of j d1 = user_of j (db w) ∧ user_of j d2 = user_of j (db w))
  ∧ (nfts d1 = nfts (db w) ∧ collections d1 = collections (db w)
     ∧ transactions d1 = transactions (db w))
  ∧ (nfts d2 = nfts (db w) ∧ collections d2 = collections (db w)
     ∧ transactions d2 = transactions (db w))
  ∧ (∀ u, user_of i (db w) = Some u ->
       (∃ u1, user_of i d1 = Some u1
              ∧ User.connectionHistory u1 = User.connectionHistory u
              ∧ User.walletAddress u1 = User.walletAddress u)
       ∧ (∃ u2, user_of i d2 = Some u2
                ∧ User.loginCount u2 = User.loginCount u
                ∧ User.lastLoginAt u2 = User.lastLoginAt u
                ∧ User.walletAddress u2 = User.walletAddress u)).
Proof.
  intros d1 d2.
  pose proof (updateUserLogin_effect i env w) as H1.
  pose proof (addConnectionHistory_effect i data env w) as H2.
  fold d1 in H1. fold d2 in H2.
  assert (∀ j, j ≠ i -> user_of j d1 = user_of j (db w)) as Hj1.
  { intros j Hj. destruct H1 as [->|(k1 & u1 & t1 & t1' & Hf1 & ->)]; [done|].
    by eapply user_of_update_frame. }
  assert (∀ j, j ≠ i -> user_of j d2 = user_of j (db w)) as Hj2.
  { intros j Hj. destruct H2 as [->|(k2 & u2 & h2 & t2 & Hf2 & ->)]; [done|].
    by eapply user_of_update_frame. }
  split; [by split; auto|].
  split; [by destruct H1 as [->|(k1 & u1 & t1 & t1' & Hf1 & ->)]|].
  split; [by destruct H2 as [->|(k2 & u2 & h2 & t2 & Hf2 & ->)]|].
  intros u [k Hu]%user_of_Some. pose proof (find_user_id _ _ _ _ Hu) as Hid. split.
  - destruct H1 as [->|(k1 & u1 & t1 & t1' & Hf1 & ->)].
    + exists u. unfold user_of. by rewrite Hu.
    + simplify_eq. eexists. split; [by eapply user_of_update|done].
  - destruct H2 as [->|(k2 & u2 & h2 & t2 & Hf2 & ->)].
    + exists u. unfold user_of. by rewrite Hu.
    + simplify_eq. eexists. split; [by eapply user_of_update|done].
Qed.

(** ** Updates and lookups *)

(** X14. A transaction recorded by [createTransaction] under a hash not yet
    stored can be updated under that hash: [updateTransactionStatus] then
    returns it with the new status, with the given block height or, when
    none is given, the one it had, and with its hash, type, user and NFT as
    recorded.  A second [createTransaction] with the same hash is rejected
    and changes nothing. *)
Theorem transaction_round_trip data status blockHeight env w env' :
  find_transaction_by_txHash (tcd_txHash data) (db w) = None ->
  reachable 1 env ->
  reachable 1 env' ->
  ∃ t w1,
    (run (createTransaction data) env w).1.1
    = Returned (mkTransactionFull t (user_of (tcd_userId data) (db w))
                  (n ← tcd_nftId data; nft_of n (db w)))
    ∧ (run (createTransaction data) env w).1.2 = w1
    ∧ transactions (db w1) = transactions (db w) ++ [t]
    ∧ (∃ t' w2,
         run (updateTransactionStatus (tcd_txHash data) status blockHeight) env' w1
         = (Returned t', w2, [Called (transaction_update (tcd_txHash data) status
                                        blockHeight (now w1)) false])
         ∧ transactions (db w2) = transactions (db w) ++ [t']
         ∧ Transaction.status t' = status
         ∧ Transaction.blockHeight t'
           = (match blockHeight with Some b => Some b | None => tcd_blockHeight data end)
         ∧ Transaction.updatedAt t' = now w1
         ∧ Transaction.id t' = Transaction.id t
         ∧ Transaction.txHash t' = tcd_txHash data
         ∧ Transaction.type t' = tcd_type data
         ∧ Transaction.userId t' = tcd_userId data
         ∧ Transaction.nftId t' = tcd_nftId data)
    ∧ (run (createTransaction data) env' w1).1.1 = Thrown UniqueConstraintViolation
    ∧ db (run (createTransaction data) env' w1).1.2 = db w1.
Proof.
  intros Hf Hr Hr'.
  unfold createTransaction, updateTransactionStatus, await, new_Date, mbind, Prog_bind.
  cbn [bind]. rewrite (run_Await _ _ env) by done. cbn [exec_op]. rewrite Hf.
  rewrite run_Ret. cbn [fst snd].
  set (t := Transaction.mk _ _ _ _ _ _ _ _ _). set (w1 := mkWorld _ _).
  assert (find_transaction_by_txHash (tcd_txHash data) (db w1)
          = Some (length (transactions (db w)), t)) as Hf1.
  { unfold find_transaction_by_txHash in *. subst w1. cbn.
    rewrite list_find_app_r by done. cbn. rewrite decide_True by done. cbn.
    do 2 f_equal. }
  exists t, w1. split; [reflexivity|]. split; [done|]. split; [done|]. split; [|split].
  - rewrite run_NewDate, run_Await by done. cbn [exec_op]. rewrite Hf1.
    cbn [bind]. rewrite run_Ret. eexists _, _. split; [reflexivity|].
    cbn [db transactions set_transactions]. split_and!; try done.
    subst w1. cbn [db transactions set_transactions].
    rewrite insert_app_r_alt by done. by rewrite Nat.sub_diag.
  - rewrite run_Await by done. cbn [exec_op]. rewrite Hf1. by rewrite run_Throw.
  - rewrite run_Await by done. cbn [exec_op]. rewrite Hf1. by rewrite run_Throw.
Qed.

(** X15. A user created by [createUser] is found again: by wallet address,
    with the NFTs and the collections owned under the new identifier, and
    by identifier; the lookups leave the store as it is.  A wallet address
    that is not stored is looked up to null. *)
Theorem created_user_is_found a env w env' :
  find_user_by_walletAddress a (db w) = None ->
  reachable 1 env ->
  reachable 1 env' ->
  (run (findUserByWalletAddress a) env w).1.1 = Returned None
  ∧ ∃ u w1 tr,
      run (createUser a) env w = (Returned (ClientSessionUser.mk (User.id u) a), w1, tr)
      ∧ (run (findUserByWalletAddress a) env' w1).1.1
        = Returned (Some (mkUserWithRelations u
                            (filter (λ n, NFT.ownerId n = User.id u) (nfts (db w)))
                            (filter (λ c, Collection.ownerId c = User.id u)
                               (collections (db w)))))
      ∧ db (run (findUserByWalletAddress a) env' w1).1.2 = db w1
      ∧ (run (getUserById (User.id u)) env' w1).1.1 = Returned (Some u)
      ∧ db (run (getUserById (User.id u)) env' w1).1.2 = db w1.
Proof.
  intros Hf Hr Hr'. split.
  - unfold findUserByWalletAddress, await. rewrite run_Await by done.
    cbn [exec_op]. rewrite Hf. by rewrite run_Ret.
  - rewrite (createUser_new _ _ _ Hf Hr).
    set (u := User.mk _ _ _ _ _ _ _). set (w1 := mkWorld _ _).
    exists u, w1. eexists. split; [reflexivity|].
    assert (find_user_by_walletAddress a (db w1) = Some (length (users (db w)), u)) as Hw.
    { unfold find_user_by_walletAddress in *. subst w1. cbn.
      rewrite list_find_app_r by done. cbn. rewrite decide_True by done. cbn.
      do 2 f_equal. }
    assert (user_of (User.id u) (db w1) = Some u) as Hu.
    { apply user_of_created; [apply find_user_fresh|done]. }
    unfold findUserByWalletAddress, getUserById, await.
    rewrite !run_Await by done. cbn [exec_op]. rewrite Hw, Hu, !run_Ret. by split_and!.
Qed.

(** ** The issues of a mint request *)

Lemma z_string_min1_cases key message v :
  (∃ s, z_string_min1 key message v = inr s ∧ nonempty_string v = true)
  ∨ (∃ om, z_string_min1 key message v = inl [mkIssue [key] om]
           ∧ nonempty_string v = false
           ∧ ((om = Some message ∧ v = Some (JStr ""))
              ∨ (om = None ∧ v ≠ Some (JStr "")))).
Proof.
  unfold z_string_min1, nonempty_string, invalid.
  destruct v as [[| | |s| |]|]; try (right; eexists; split_and!; [done..|by right]).
  destruct (bool_decide (s = "")) eqn:E.
  - apply bool_decide_eq_true in E as ->. right. eexists. split_and!; [done..|by left].
  - left. by eexists.
Qed.

Lemma issue_names_field (m : gmap string Json) key om message :
  (om = Some message ∧ m !! key = Some (JStr "")) ∨ (om = None ∧ m !! key ≠ Some (JStr "")) ->
  ∃ k, issue_path (mkIssue [key] om) = [k]
       ∧ (is_Some (issue_message (mkIssue [key] om)) <-> m !! k = Some (JStr "")).
Proof.
  intros [[-> Hv]|[-> Hv]]; exists key; (split; [done|]); cbn; split; try done;
    by intros [? ?].
Qed.

(** X16. The details of a refused mint request name the fields at fault.  A
    body that is not an object gives one issue at the root; an object gives
    one issue for each of [nftId], [txHash], [contractAddress] and [tokenId]
    that is not a non-empty string, in this order, and is refused exactly
    when there is such a field.  An issue carries the message of the schema
    exactly when its field is the empty string. *)
Theorem mintNFTSchema_issues :
  (∀ j, (∀ m, j ≠ JObj m) -> mintNFTSchema j = inl [mkIssue [] None])
  ∧ (∀ m issues,
       mintNFTSchema (JObj m) = inl issues ->
       issues ≠ []
       ∧ issue_path <$> issues
         = (λ k, [k]) <$> filter (λ k, nonempty_string (m !! k) = false) mint_keys
       ∧ Forall (λ i, ∃ k, issue_path i = [k]
                          ∧ (is_Some (issue_message i) <-> m !! k = Some (JStr ""))) issues)
  ∧ (∀ m, Forall (λ k, nonempty_string (m !! k) = true) mint_keys ->
          ∃ d, mintNFTSchema (JObj m) = inr d).
Proof.
  split_and!.
  - intros j Hj. destruct j; try done. by destruct (Hj m).
  - intros m issues. unfold mintNFTSchema, z_object, mint_keys.
    destruct (z_string_min1_cases "nftId" "NFT ID is required" (m !! "nftId"))
      as [(s1 & -> & E1)|(o1 & -> & E1 & M1)],
      (z_string_min1_cases "txHash" "Transaction hash is required" (m !! "txHash"))
      as [(s2 & -> & E2)|(o2 & -> & E2 & M2)],
      (z_string_min1_cases "contractAddress" "Contract address is required"
         (m !! "contractAddress")) as [(s3 & -> & E3)|(o3 & -> & E3 & M3)],
      (z_string_min1_cases "tokenId" "Token ID is required" (m !! "tokenId"))
      as [(s4 & -> & E4)|(o4 & -> & E4 & M4)];
      cbn [both app]; intros [= <-];
      rewrite !filter_cons, E1, E2, E3, E4, filter_nil; cbn;
      (split; [done|]); (split; [done|]);
      repeat (constructor; [by eapply issue_names_field|]);
      constructor.
  - intros m Hall. unfold mint_keys in Hall.
    apply Forall_cons in Hall as [E1 Hall]. apply Forall_cons in Hall as [E2 Hall].
    apply Forall_cons in Hall as [E3 Hall]. apply Forall_cons in Hall as [E4 _].
    unfold mintNFTSchema, z_object.
    destruct (z_string_min1_cases "nftId" "NFT ID is required" (m !! "nftId"))
      as [(s1 & -> & _)|(o1 & _ & F & _)]; [|congruence].
    destruct (z_string_min1_cases "txHash" "Transaction hash is required" (m !! "txHash"))
      as [(s2 & -> & _)|(o2 & _ & F & _)]; [|congruence].
    destruct (z_string_min1_cases "contractAddress" "Contract address is required"
                (m !! "contractAddress")) as [(s3 & -> & _)|(o3 & _ & F & _)]; [|congruence].
    destruct (z_string_min1_cases "tokenId" "Token ID is required" (m !! "tokenId"))
      as [(s4 & -> & _)|(o4 & _ & F & _)]; [|congruence].
    by eexists.
Qed.

(** ** Concurrent mint requests *)

Section MintRace.
Variable verifyAuth : NextRequest -> Prog (option AuthUser.t).

Lemma sched_Go {A R : Type} (pool : list (Prog A)) w i p (op : DbOp R) k :
  pool !! i = Some p ->
  settle p (now w) = Await op k ->
  sched_step (pool, w) (Go i false)
  = (<[i := k (exec_op op (now w) (db w)).1]> pool,
     mkWorld (exec_op op (now w) (db w)).2 (now w)).
Proof.
  intros Hi Hp. unfold sched_step, step_thread, perform. cbn [fst snd]. rewrite Hi, Hp.
  by destruct (exec_op op (now w) (db w)).
Qed.

(** The race on the part of the route after validation. *)
Lemma mint_race_effect user d1 d2 w k n :
  mint_nftId d1 = mint_nftId d2 ->
  find_nft (mint_nftId d1) (db w) = Some (k, n) ->
  NFT.ownerId n = AuthUser.userId user ->
  NFT.isMinted n = false ->
  mint_txHash d1 ≠ mint_txHash d2 ->
  find_transaction_by_txHash (mint_txHash d1) (db w) = None ->
  find_transaction_by_txHash (mint_txHash d2) (db w) = None ->
  let st := sched mint_race
              ([try_catch (mint_steps user d1) on_error;
                try_catch (mint_steps user d2) on_error], w) in
  ∃ n1 n2 t1 t2,
    st.1 = [Ret (mkResponse (nft_body n1) 200); Ret (mkResponse (nft_body n2) 200)]
    ∧ NFT.tokenId n1 = Some (mint_tokenId d1)
    ∧ NFT.tokenId n2 = Some (mint_tokenId d2)
    ∧ NFT.contractAddress n2 = Some (mint_contractAddress d2)
    ∧ nft_of (mint_nftId d1) (db st.2) = Some n2
    ∧ transactions (db st.2) = transactions (db w) ++ [t1; t2]
    ∧ mint_transaction user d1 t1
    ∧ mint_transaction user d2 t2.
Proof.
  intros Hid Hf Ho Hm Hne Ht1 Ht2 st.
  pose proof (find_nft_id _ _ _ _ Hf) as Hk.
  assert (∃ n1 n2 t1 t2 d',
            st = ([Ret (mkResponse (nft_body n1) 200); Ret (mkResponse (nft_body n2) 200)],
                  mkWorld d' (now w))
            ∧ n1 = minted_update (mint_tokenId d1) (mint_contractAddress d1)
                     (now w) (now w) n
            ∧ n2 = minted_update (mint_tokenId d2) (mint_contractAddress d2)
                     (now w) (now w) n1
            ∧ nfts d' = <[k := n2]> (<[k := n1]> (nfts (db w)))
            ∧ transactions d' = (transactions (db w) ++ [t1]) ++ [t2]
            ∧ mint_transaction user d1 t1
            ∧ mint_transaction user d2 t2)
    as (n1 & n2 & t1 & t2 & d' & -> & -> & -> & Hn & Ht & Hm1 & Hm2).
  { subst st.
    assert (bool_decide (NFT.ownerId n ≠ AuthUser.userId user) = false) as Hob
      by (by apply bool_decide_eq_false_2; intros ?).
    unfold mint_race, mint_steps, getNFTById, updateNFTMintStatus, createTransaction, await,
      new_Date, mbind, Prog_bind. cbn [bind try_catch].
    (* the two lookups *)
    rewrite sched_cons; erewrite (sched_Go _ _ 0); [|reflexivity|reflexivity].
    cbn [exec_op fst snd list_insert insert]. unfold nft_of at 1. rewrite Hf.
    cbn [fmap option_fmap option_map snd bind try_catch nf_nft findUnique_by_id]. rewrite Hob, Hm.
    cbn [bind try_catch].
    rewrite sched_cons; erewrite (sched_Go _ _ 1); [|reflexivity|reflexivity].
    cbn [exec_op fst snd list_insert insert now db]. unfold nft_of at 1. rewrite <- Hid, Hf.
    cbn [fmap option_fmap option_map snd bind try_catch nf_nft findUnique_by_id]. rewrite Hob, Hm.
    cbn [bind try_catch].
    (* the two updates *)
    rewrite sched_cons; erewrite (sched_Go _ _ 0); [|reflexivity|reflexivity].
    cbn [exec_op fst snd list_insert insert now db]. rewrite Hf.
    cbn [bind try_catch fst snd].
    set (n1 := minted_update _ _ _ _ n).
    assert (find_nft (mint_nftId d1) (set_nfts (λ ns, <[k := n1]> ns) (db w))
            = Some (k, n1)) as Hf1 by (by apply (find_nft_update _ _ n)).
    rewrite sched_cons; erewrite (sched_Go _ _ 1); [|reflexivity|reflexivity].
    cbn [exec_op fst snd list_insert insert now db]. rewrite Hf1.
    cbn [bind try_catch fst snd].
    set (n2 := minted_update _ _ _ _ n1).
    (* the two transaction records *)
    rewrite sched_cons; erewrite (sched_Go _ _ 0); [|reflexivity|reflexivity].
    cbn [exec_op fst snd list_insert insert now db tcd_txHash].
    unfold find_transaction_by_txHash in *. cbn [transactions set_nfts]. rewrite Ht1.
    cbn [bind try_catch fst snd].
    set (t1 := Transaction.mk _ _ _ _ _ _ _ _ _).
    rewrite sched_cons; erewrite (sched_Go _ _ 1); [|reflexivity|reflexivity].
    cbn [exec_op fst snd list_insert insert now db tcd_txHash].
    unfold find_transaction_by_txHash. cbn [transactions set_nfts set_transactions].
    rewrite list_find_app_r by done. cbn [list_find Transaction.txHash t1].
    rewrite decide_False by done. cbn [fmap option_fmap option_map findUnique_by_id].
    cbn [bind try_catch fst snd].
    set (t2 := Transaction.mk _ _ _ _ _ _ _ _ _).
    exists n1, n2, t1, t2. eexists. split; [reflexivity|].
    split_and!; try done.
    unfold mint_transaction. rewrite <- Hid. by subst t2. }
  eexists _, _, t1, t2. split; [reflexivity|]. cbn [fst snd db].
  split_and!; try done.
  - unfold nft_of, find_nft in *. rewrite Hn, list_insert_insert_eq.
    by rewrite (list_find_insert _ _ _ n _ Hf).
  - by rewrite Ht, <- app_assoc.
Qed.

(** With a validator that answers at once, the route on a well-formed body
    is its part after validation. *)
Lemma POST_nfts_mint_validated request user j data :
  verifyAuth request = Ret (Some user) ->
  body request = Some j ->
  mintNFTSchema j = inr data ->
  POST_nfts_mint verifyAuth request = try_catch (mint_steps user data) on_error.
Proof.
  intros Hv Hb Hp.
  unfold POST_nfts_mint, mint_steps, request_json, parse, mbind, Prog_bind.
  rewrite Hv, Hb. cbn [bind]. rewrite Hp. reflexivity.
Qed.

(** X17. The check of the mint route and its update are separate calls, so
    two requests of the owner for the same unminted NFT, served at the same
    time, can both pass the check: both are answered 200, the NFT ends up
    with the token identifier and contract address of the request whose
    update came last, and both transactions are recorded. *)
Theorem concurrent_mints_both_succeed r1 r2 user j1 j2 d1 d2 w k n :
  verifyAuth r1 = Ret (Some user) ->
  verifyAuth r2 = Ret (Some user) ->
  body r1 = Some j1 -> mintNFTSchema j1 = inr d1 ->
  body r2 = Some j2 -> mintNFTSchema j2 = inr d2 ->
  mint_nftId d1 = mint_nftId d2 ->
  find_nft (mint_nftId d1) (db w) = Some (k, n) ->
  NFT.ownerId n = AuthUser.userId user ->
  NFT.isMinted n = false ->
  mint_txHash d1 ≠ mint_txHash d2 ->
  find_transaction_by_txHash (mint_txHash d1) (db w) = None ->
  find_transaction_by_txHash (mint_txHash d2) (db w) = None ->
  let st := sched mint_race
              ([POST_nfts_mint verifyAuth r1; POST_nfts_mint verifyAuth r2], w) in
  ∃ n1 n2 t1 t2,
    st.1 = [Ret (mkResponse (nft_body n1) 200); Ret (mkResponse (nft_body n2) 200)]
    ∧ NFT.tokenId n1 = Some (mint_tokenId d1)
    ∧ NFT.tokenId n2 = Some (mint_tokenId d2)
    ∧ NFT.contractAddress n2 = Some (mint_contractAddress d2)
    ∧ nft_of (mint_nftId d1) (db st.2) = Some n2
    ∧ transactions (db st.2) = transactions (db w) ++ [t1; t2]
    ∧ mint_transaction user d1 t1
    ∧ mint_transaction user d2 t2.
Proof.
  intros Hv1 Hv2 Hb1 Hp1 Hb2 Hp2 Hid Hf Ho Hm Hne Ht1 Ht2.
  rewrite (POST_nfts_mint_validated r1 user j1 d1), (POST_nfts_mint_validated r2 user j2 d2)
    by done.
  by apply (mint_race_effect user d1 d2 w k n).
Qed.

End MintRace.
(** ** What the creating routes store *)

Section Validated.

Variable verifyAuth : NextRequest -> Prog (option AuthUser.t).
Variable is_url : string -> bool.
Variable trim : string -> string.

Lemma z_string_url_inr key message v s :
  z_string_url is_url key message v = inr s -> is_url s = true.
Proof.
  unfold z_string_url, invalid. destruct v as [[| | |s'| |]|]; try done.
  destruct (is_url s') eqn:E; [|done]. by intros [= <-].
Qed.

Lemma z_string_url_optional_inr key message v o :
  z_string_url_optional is_url key message v = inr o -> ∀ s, o = Some s -> is_url s = true.
Proof.
  unfold z_string_url_optional, invalid. destruct v as [[| | |s'| |]|]; try done.
  - destruct (is_url s') eqn:E; [|done]. by intros [= <-] s [= <-].
  - by intros [= <-].
Qed.

Lemma z_collectionId_inr key v o :
  z_collectionId trim key v = inr o -> ∀ s, o = Some s -> trim s ≠ "".
Proof.
  unfold z_collectionId, invalid. destruct v as [[| | |s'| |]|]; try done.
  - intros [= <-] s. destruct (bool_decide (trim s' = "")) eqn:E; [done|].
    apply bool_decide_eq_false in E. by intros [= <-].
  - by intros [= <-].
Qed.

Lemma createNFTSchema_inr j d :
  createNFTSchema is_url trim j = inr d ->
  cnr_name d ≠ "" ∧ is_url (cnr_image d) = true
  ∧ (∀ s, cnr_collectionId d = Some s -> trim s ≠ "").
Proof.
  unfold createNFTSchema, z_object. destruct j as [| | | | |m]; try done.
  destruct (both _ _) as [issues|[a [b [c [e f]]]]] eqn:E; [done|].
  intros [= <-]. cbn.
  apply both_inr in E as [Ha E]. apply both_inr in E as [_ E].
  apply both_inr in E as [Hc E]. apply both_inr in E as [_ Hf].
  apply z_string_min1_inr in Ha as [_ Ha].
  split; [done|]. split; [by eapply z_string_url_inr|by eapply z_collectionId_inr].
Qed.

Lemma createCollectionSchema_inr j d :
  createCollectionSchema is_url j = inr d ->
  ccr_name d ≠ ""
  ∧ (∀ s, ccr_image d = Some s -> is_url s = true)
  ∧ (∀ s, ccr_banner d = Some s -> is_url s = true).
Proof.
  unfold createCollectionSchema, z_object. destruct j as [| | | | |m]; try done.
  destruct (both _ _) as [issues|[a [b [c [e f]]]]] eqn:E; [done|].
  intros [= <-]. cbn.
  apply both_inr in E as [Ha E]. apply both_inr in E as [_ E].
  apply both_inr in E as [Hc E]. apply both_inr in E as [He _].
  apply z_string_min1_inr in Ha as [_ Ha].
  split; [done|].
  split; [by eapply z_string_url_optional_inr|by eapply z_string_url_optional_inr].
Qed.

(** X18. [POST /api/nfts] answers 201 only for an authenticated request
    whose body passed the schema, and the NFT of the answer is then stored:
    it is owned by the authenticated user, its name is not empty, its image
    is a URL, it is not minted, and its collection identifier, if it has
    one, is not blank. *)
Theorem created_nft_is_validated request env w ov w1 tr1 x w' tr :
  run (verifyAuth request) env w = (ov, w1, tr1) ->
  run (POST_nfts verifyAuth is_url trim request) env w
  = (Returned (mkResponse (created_nft_body x) 201), w', tr) ->
  ∃ user,
    ov = Returned (Some user)
    ∧ nfts (db w') = nfts (db w1) ++ [nwo_nft x]
    ∧ NFT.ownerId (nwo_nft x) = AuthUser.userId user
    ∧ NFT.name (nwo_nft x) ≠ ""
    ∧ is_url (NFT.image (nwo_nft x)) = true
    ∧ NFT.isMinted (nwo_nft x) = false
    ∧ (∀ s, NFT.collectionId (nwo_nft x) = Some s -> trim s ≠ "").
Proof.
  intros Hv. unfold POST_nfts, request_json, parse, createNFT, await, mbind, Prog_bind.
  rewrite run_try_catch, run_bind, Hv.
  destruct ov as [[user|]|e]; cbn [bind].
  - destruct (body request) as [j|]; cbn [bind].
    + destruct (createNFTSchema is_url trim j) as [issues|data] eqn:Hp; cbn [bind].
      * rewrite run_Throw. unfold on_error. cbn [isZodError]. by rewrite run_Ret.
      * destruct (createNFTSchema_inr _ _ Hp) as (Hname & Himage & Hcoll).
        destruct (drop (length tr1) env) as [|[tk [|]] env1]; run_step.
        -- cbn [exec_op bind]. rewrite run_Ret. intros [= <- <- <-]. by exists user.
        -- rewrite run_Throw. unfold on_error. cbn [isZodError]. by rewrite run_Ret.
        -- cbn [exec_op bind]. rewrite run_Ret. intros [= <- <- <-]. by exists user.
    + rewrite run_Throw. unfold on_error. cbn [isZodError]. by rewrite run_Ret.
  - by rewrite run_Ret.
  - unfold on_error. destruct (isZodError e); by rewrite run_Ret.
Qed.

(** X19. [POST /api/collections] answers 201 only for an authenticated
    request whose body passed the schema, and the collection of the answer
    is then stored: it is owned by the authenticated user, its name is not
    empty, and its image and banner, when it has them, are URLs. *)
Theorem created_collection_is_validated request env w ov w1 tr1 x w' tr :
  run (verifyAuth request) env w = (ov, w1, tr1) ->
  run (POST_collections verifyAuth is_url request) env w
  = (Returned (mkResponse (collection_body x) 201), w', tr) ->
  ∃ user,
    ov = Returned (Some user)
    ∧ collections (db w') = collections (db w1) ++ [cf_collection x]
    ∧ Collection.ownerId (cf_collection x) = AuthUser.userId user
    ∧ Collection.name (cf_collection x) ≠ ""
    ∧ (∀ s, Collection.image (cf_collection x) = Some s -> is_url s = true)
    ∧ (∀ s, Collection.banner (cf_collection x) = Some s -> is_url s = true).
Proof.
  intros Hv.
  unfold POST_collections, request_json, parse, createCollection, await, mbind, Prog_bind.
  rewrite run_try_catch, run_bind, Hv.
  destruct ov as [[user|]|e]; cbn [bind].
  - destruct (body request) as [j|]; cbn [bind].
    + destruct (createCollectionSchema is_url j) as [issues|data] eqn:Hp; cbn [bind].
      * rewrite run_Throw. unfold on_error. cbn [isZodError]. by rewrite run_Ret.
      * destruct (createCollectionSchema_inr _ _ Hp) as (Hname & Himage & Hbanner).
        destruct (drop (length tr1) env) as [|[tk [|]] env1]; run_step.
        -- cbn [exec_op bind]. rewrite run_Ret. intros [= <- <- <-]. by exists user.
        -- rewrite run_Throw. unfold on_error. cbn [isZodError]. by rewrite run_Ret.
        -- cbn [exec_op bind]. rewrite run_Ret. intros [= <- <- <-]. by exists user.
    + rewrite run_Throw. unfold on_error. cbn [isZodError]. by rewrite run_Ret.
  - by rewrite run_Ret.
  - unfold on_error. destruct (isZodError e); by rewrite run_Ret.
Qed.

End Validated.

(** ** What the listing routes leave alone *)

Section ReadOnly.

Variable verifyAuth : NextRequest -> Prog (option AuthUser.t).

(** X20. The two [GET] routes write nothing: whatever the request, the
    credential and the failures of the store, the store after [GET
    /api/nfts] and after [GET /api/collections] holds what it held once
    [verifyAuth] had answered, and the public listing, which does not ask
    [verifyAuth], leaves it as it was before the request. *)
Theorem GET_routes_write_nothing request env w ov w1 tr1 :
  run (verifyAuth request) env w = (ov, w1, tr1) ->
  db (run (GET_nfts verifyAuth request) env w).1.2 = db w1
  ∧ db (run (GET_collections verifyAuth request) env w).1.2
    = (if bool_decide (searchParams_get "public" request = Some "true")
       then db w else db w1).
Proof.
  intros Hv. split.
  - unfold GET_nfts, getNFTsByOwner, await, mbind, Prog_bind.
    rewrite run_try_catch, run_bind, Hv.
    destruct ov as [[user|]|e]; cbn [bind]; [|by rewrite run_Ret..].
    destruct (drop (length tr1) env) as [|[tk [|]] env1]; run_step;
      cbn [exec_op bind]; by rewrite ?run_Throw, run_Ret.
  - unfold GET_collections, getPublicCollections, getCollectionsByOwner, await, mbind,
      Prog_bind. rewrite run_try_catch.
    destruct (bool_decide (searchParams_get "public" request = Some "true")).
    + cbn [bind]. destruct env as [|[tk [|]] env1]; run_step;
        cbn [exec_op bind]; by rewrite ?run_Throw, run_Ret.
    + rewrite run_bind, Hv.
      destruct ov as [[user|]|e]; cbn [bind]; [|by rewrite run_Ret..].
      destruct (drop (length tr1) env) as [|[tk [|]] env1]; run_step;
        cbn [exec_op bind]; by rewrite ?run_Throw, run_Ret.
Qed.

End ReadOnly.

(** ** The properties above on the sample data *)

(** The owner mints the one NFT of the sample gallery. *)
Lemma mint_succeeds_witness :
  let verifyAuth : NextRequest -> Prog (option AuthUser.t) := sample_verifyAuth in
  let request : NextRequest := sample_mint_request sample_id sample_id true in
  let env : list Env := [] in
  let w : World := sample_gallery false in
  let user : AuthUser.t := AuthUser.mk sample_id in
  let w1 : World := sample_gallery false in
  let tr1 : list Event := [] in
  let data : MintNFTData := mkMintNFTData sample_id "0xabc" "SP000.coremint" "7" in
  let k : nat := 0%nat in
  let n : NFT.t := sample_nft false in
  ∃ n' t w' tr mintedAt updatedAt,
    run (POST_nfts_mint verifyAuth request) env w
    = (Returned (mkResponse (nft_body n') 200), w', tr)
    ∧ n' = minted_update (mint_tokenId data) (mint_contractAddress data)
             mintedAt updatedAt n
    ∧ NFT.isMinted n' = true
    ∧ NFT.tokenId n' = Some (mint_tokenId data)
    ∧ NFT.contractAddress n' = Some (mint_contractAddress data)
    ∧ NFT.mintedAt n' = Some mintedAt
    ∧ mintedAt = clock_after (take 1 (drop (length tr1) env)) (now w1)
    ∧ NFT.id n' = NFT.id n ∧ NFT.ownerId n' = NFT.ownerId n
    ∧ NFT.name n' = NFT.name n ∧ NFT.description n' = NFT.description n
    ∧ NFT.image n' = NFT.image n ∧ NFT.metadata n' = NFT.metadata n
    ∧ NFT.collectionId n' = NFT.collectionId n ∧ NFT.createdAt n' = NFT.createdAt n
    ∧ nfts (db w') = <[k := n']> (nfts (db w1))
    ∧ nft_of (mint_nftId data) (db w') = Some n'
    ∧ transactions (db w') = transactions (db w1) ++ [t]
    ∧ mint_transaction user data t
    ∧ users (db w') = users (db w1)
    ∧ collections (db w') = collections (db w1).
Proof.
  intros verifyAuth request env w user w1 tr1 data k n.
  apply (mint_succeeds verifyAuth request env w user w1 tr1 (sample_mint_body sample_id) data k n).
  - vm_compute. reflexivity.
  - reflexivity.
  - vm_compute. reflexivity.
  - apply reachable_nil.
  - vm_compute. reflexivity.
  - reflexivity.
  - reflexivity.
  - vm_compute. reflexivity.
Defined.

(** The owner asks to mint the NFT of the sample gallery a second time. *)
Lemma minted_nft_is_never_reminted_witness :
  let verifyAuth : NextRequest -> Prog (option AuthUser.t) := sample_verifyAuth in
  let request : NextRequest := sample_mint_request sample_id sample_id true in
  let env : list Env := [] in
  let w : World := sample_gallery true in
  let w' : World := sample_gallery true in
  let i : string := sample_id in
  let n0 : NFT.t := sample_nft true in
  nft_of i (db w') = Some n0.
Proof.
  intros verifyAuth request env w w' i n0.
  apply (minted_nft_is_never_reminted verifyAuth request env w (Returned (Some (AuthUser.mk sample_id))) w [] (Returned (mkResponse (error_body "NFT is already minted" None) 400)) w' [Called (nFT_findUnique_id sample_id) false] i n0).
  - vm_compute. reflexivity.
  - vm_compute. reflexivity.
  - vm_compute. reflexivity.
  - reflexivity.
Defined.

(** The store fails the third call of a mint, the one that records the transaction. *)
Lemma mint_without_transaction_witness :
  let verifyAuth : NextRequest -> Prog (option AuthUser.t) := sample_verifyAuth in
  let request : NextRequest := sample_mint_request sample_id sample_id true in
  let env : list Env := [undisturbed; undisturbed; failing] in
  let w : World := sample_gallery false in
  let user : AuthUser.t := AuthUser.mk sample_id in
  let w1 : World := sample_gallery false in
  let tr1 : list Event := [] in
  let data : MintNFTData := mkMintNFTData sample_id "0xabc" "SP000.coremint" "7" in
  let k : nat := 0%nat in
  let n : NFT.t := sample_nft false in
  ∃ n' w' tr,
    run (POST_nfts_mint verifyAuth request) env w = (Returned internal_server_error, w', tr)
    ∧ nft_of (mint_nftId data) (db w') = Some n'
    ∧ NFT.isMinted n' = true
    ∧ NFT.tokenId n' = Some (mint_tokenId data)
    ∧ NFT.contractAddress n' = Some (mint_contractAddress data)
    ∧ transactions (db w') = transactions (db w1).
Proof.
  intros verifyAuth request env w user w1 tr1 data k n.
  apply (mint_without_transaction verifyAuth request env w user w1 tr1 (sample_mint_body sample_id) data k n).
  - vm_compute. reflexivity.
  - reflexivity.
  - vm_compute. reflexivity.
  - solve_reachable.
  - vm_compute. reflexivity.
  - reflexivity.
  - reflexivity.
  - right. by exists None.
Defined.

(** A mint request whose body holds the NFT identifier only. *)
Lemma refused_body_reaches_no_store_witness :
  let verifyAuth : NextRequest -> Prog (option AuthUser.t) := sample_verifyAuth in
  let is_url : string -> bool := λ _, true in
  let trim : string -> string := id in
  let request : NextRequest := sample_mint_request sample_id sample_id false in
  let env : list Env := [] in
  let w : World := sample_gallery false in
  let w1 : World := sample_gallery false in
  let tr1 : list Event := [] in
  (body request = None ->
     run (POST_nfts verifyAuth is_url trim request) env w
     = (Returned internal_server_error, w1, tr1)
     ∧ run (POST_nfts_mint verifyAuth request) env w
       = (Returned internal_server_error, w1, tr1)
     ∧ run (POST_collections verifyAuth is_url request) env w
       = (Returned internal_server_error, w1, tr1))
  ∧ (∀ j issues,
       body request = Some j ->
       let refused := (Returned (mkResponse (error_body "Invalid request data"
                                               (Some issues)) 400), w1, tr1) in
       (createNFTSchema is_url trim j = inl issues ->
        run (POST_nfts verifyAuth is_url trim request) env w = refused)
       ∧ (mintNFTSchema j = inl issues ->
          run (POST_nfts_mint verifyAuth request) env w = refused)
       ∧ (createCollectionSchema is_url j = inl issues ->
          run (POST_collections verifyAuth is_url request) env w = refused)).
Proof.
  intros verifyAuth is_url trim request env w w1 tr1.
  apply (refused_body_reaches_no_store verifyAuth is_url trim request env w (AuthUser.mk sample_id) w1 tr1).
  - vm_compute. reflexivity.
Defined.

(** The owner of the sample gallery lists their NFTs. *)
Lemma GET_nfts_lists_own_nfts_witness :
  let verifyAuth : NextRequest -> Prog (option AuthUser.t) := sample_verifyAuth in
  let request : NextRequest := sample_mint_request sample_id sample_id true in
  let env : list Env := [] in
  let w : World := sample_gallery false in
  let user : AuthUser.t := AuthUser.mk sample_id in
  let w1 : World := sample_gallery false in
  let tr1 : list Event := [] in
  ∃ l w',
    run (GET_nfts verifyAuth request) env w
    = (Returned (mkResponse (nfts_body l) 200), w',
       tr1 ++ [Called (nFT_findMany_ownerId (AuthUser.userId user)) false])
    ∧ db w' = db w1
    ∧ nwt_nft <$> l
      ≡ₚ filter (λ n, NFT.ownerId n = AuthUser.userId user) (nfts (db w1))
    ∧ StronglySorted (not_older NFT.createdAt) (nwt_nft <$> l)
    ∧ Forall (λ x, nwt_collection x = collection_of_nft (nwt_nft x) (db w1)
                   ∧ nwt_transactions x
                     = filter (λ t, Transaction.nftId t = Some (NFT.id (nwt_nft x)))
                         (transactions (db w1))) l.
Proof.
  intros verifyAuth request env w user w1 tr1.
  apply (GET_nfts_lists_own_nfts verifyAuth request env w user w1 tr1).
  - vm_compute. reflexivity.
  - apply reachable_nil.
Defined.

(** The user of the sample gallery creates a second NFT; the empty collection identifier of the body is dropped. *)
Lemma POST_nfts_creates_witness :
  let verifyAuth : NextRequest -> Prog (option AuthUser.t) := sample_verifyAuth in
  let is_url : string -> bool := λ _, true in
  let trim : string -> string := id in
  let request : NextRequest := sample_nft_request in
  let env : list Env := [] in
  let w : World := sample_gallery false in
  let user : AuthUser.t := AuthUser.mk sample_id in
  let w1 : World := sample_gallery false in
  let data : CreateNFTRequest := mkCreateNFTRequest "Second" None "https://example.org/2.png" ∅ None in
  ∃ n w' tr,
    run (POST_nfts verifyAuth is_url trim request) env w
    = (Returned (mkResponse
                   (created_nft_body
                      (mkNFTWithOwner n (user_of (AuthUser.userId user) (db w1))
                         (collection_of_nft n (db w1)))) 201), w', tr)
    ∧ nfts (db w') = nfts (db w1) ++ [n]
    ∧ (NFT.id n ∉ NFT.id <$> nfts (db w1))
    ∧ nft_of (NFT.id n) (db w') = Some n
    ∧ NFT.ownerId n = AuthUser.userId user
    ∧ NFT.isMinted n = false
    ∧ NFT.tokenId n = None ∧ NFT.contractAddress n = None ∧ NFT.mintedAt n = None
    ∧ NFT.name n = cnr_name data
    ∧ NFT.description n = cnr_description data
    ∧ NFT.image n = cnr_image data
    ∧ NFT.metadata n = cnr_metadata data
    ∧ NFT.collectionId n = cnr_collectionId data
    ∧ users (db w') = users (db w1)
    ∧ collections (db w') = collections (db w1)
    ∧ transactions (db w') = transactions (db w1).
Proof.
  intros verifyAuth is_url trim request env w user w1 data.
  apply (POST_nfts_creates verifyAuth is_url trim request env w user w1 [] sample_nft_body data).
  - vm_compute. reflexivity.
  - reflexivity.
  - vm_compute. reflexivity.
  - apply reachable_nil.
Defined.

(** The user of the sample gallery creates a collection without saying whether it is public. *)
Lemma POST_collections_creates_witness :
  let verifyAuth : NextRequest -> Prog (option AuthUser.t) := sample_verifyAuth in
  let is_url : string -> bool := λ _, true in
  let request : NextRequest := sample_collection_request in
  let env : list Env := [] in
  let w : World := sample_gallery false in
  let user : AuthUser.t := AuthUser.mk sample_id in
  let w1 : World := sample_gallery false in
  let j : Json := sample_collection_body in
  let data : CreateCollectionRequest := mkCreateCollectionRequest "Gallery" None None None true in
  ∃ c w' tr,
    run (POST_collections verifyAuth is_url request) env w
    = (Returned (mkResponse
                   (collection_body
                      (mkCollectionFull c (user_of (AuthUser.userId user) (db w1)) []))
                   201), w', tr)
    ∧ collections (db w') = collections (db w1) ++ [c]
    ∧ (Collection.id c ∉ Collection.id <$> collections (db w1))
    ∧ Collection.ownerId c = AuthUser.userId user
    ∧ Collection.name c = ccr_name data
    ∧ Collection.isPublic c = ccr_isPublic data
    ∧ (∀ m, j = JObj m -> m !! "isPublic" = None -> Collection.isPublic c = true)
    ∧ (∀ env', reachable 1 env' ->
         ∃ l, (run (getCollectionsByOwner (AuthUser.userId user)) env' w').1.1 = Returned l
              ∧ c ∈ (cwn_collection <$> l)).
Proof.
  intros verifyAuth is_url request env w user w1 j data.
  apply (POST_collections_creates verifyAuth is_url request env w user w1 [] j data).
  - vm_compute. reflexivity.
  - reflexivity.
  - vm_compute. reflexivity.
  - apply reachable_nil.
Defined.

(** A mint transaction of the sample gallery is recorded, then confirmed at block 100. *)
Lemma transaction_round_trip_witness :
  let data : TransactionCreateData := mkTransactionCreateData "0xabc" "mint" "pending" sample_id (Some sample_id) None in
  let status : string := "confirmed" in
  let blockHeight : option Z := Some 100 in
  let env : list Env := [] in
  let w : World := sample_gallery true in
  let env' : list Env := [] in
  ∃ t w1,
    (run (createTransaction data) env w).1.1
    = Returned (mkTransactionFull t (user_of (tcd_userId data) (db w))
                  (n ← tcd_nftId data; nft_of n (db w)))
    ∧ (run (createTransaction data) env w).1.2 = w1
    ∧ transactions (db w1) = transactions (db w) ++ [t]
    ∧ (∃ t' w2,
         run (updateTransactionStatus (tcd_txHash data) status blockHeight) env' w1
         = (Returned t', w2, [Called (transaction_update (tcd_txHash data) status
                                        blockHeight (now w1)) false])
         ∧ transactions (db w2) = transactions (db w) ++ [t']
         ∧ Transaction.status t' = status
         ∧ Transaction.blockHeight t'
           = (match blockHeight with Some b => Some b | None => tcd_blockHeight data end)
         ∧ Transaction.updatedAt t' = now w1
         ∧ Transaction.id t' = Transaction.id t
         ∧ Transaction.txHash t' = tcd_txHash data
         ∧ Transaction.type t' = tcd_type data
         ∧ Transaction.userId t' = tcd_userId data
         ∧ Transaction.nftId t' = tcd_nftId data)
    ∧ (run (createTransaction data) env' w1).1.1 = Thrown UniqueConstraintViolation
    ∧ db (run (createTransaction data) env' w1).1.2 = db w1.
Proof.
  intros data status blockHeight env w env'.
  apply (transaction_round_trip data status blockHeight env w env').
  - vm_compute. reflexivity.
  - apply reachable_nil.
  - apply reachable_nil.
Defined.

(** A second wallet address registers. *)
Lemma created_user_is_found_witness :
  let a : string := "SP456" in
  let env : list Env := [] in
  let w : World := sample_registered in
  let env' : list Env := [] in
  (run (findUserByWalletAddress a) env w).1.1 = Returned None
  ∧ ∃ u w1 tr,
      run (createUser a) env w = (Returned (ClientSessionUser.mk (User.id u) a), w1, tr)
      ∧ (run (findUserByWalletAddress a) env' w1).1.1
        = Returned (Some (mkUserWithRelations u
                            (filter (λ n, NFT.ownerId n = User.id u) (nfts (db w)))
                            (filter (λ c, Collection.ownerId c = User.id u)
                               (collections (db w)))))
      ∧ db (run (findUserByWalletAddress a) env' w1).1.2 = db w1
      ∧ (run (getUserById (User.id u)) env' w1).1.1 = Returned (Some u)
      ∧ db (run (getUserById (User.id u)) env' w1).1.2 = db w1.
Proof.
  intros a env w env'.
  apply (created_user_is_found a env w env').
  - vm_compute. reflexivity.
  - apply reachable_nil.
  - apply reachable_nil.
Defined.

(** Two mint requests of the owner for the NFT of the sample gallery, with different transaction hashes and token identifiers. *)
Lemma concurrent_mints_both_succeed_witness :
  let verifyAuth : NextRequest -> Prog (option AuthUser.t) := sample_verifyAuth in
  let r1 : NextRequest := sample_mint_request sample_id sample_id true in
  let r2 : NextRequest := sample_second_mint_request in
  let user : AuthUser.t := AuthUser.mk sample_id in
  let d1 : MintNFTData := mkMintNFTData sample_id "0xabc" "SP000.coremint" "7" in
  let d2 : MintNFTData := mkMintNFTData sample_id "0xdef" "SP000.coremint" "8" in
  let w : World := sample_gallery false in
  let st := sched mint_race
              ([POST_nfts_mint verifyAuth r1; POST_nfts_mint verifyAuth r2], w) in
  ∃ n1 n2 t1 t2,
    st.1 = [Ret (mkResponse (nft_body n1) 200); Ret (mkResponse (nft_body n2) 200)]
    ∧ NFT.tokenId n1 = Some (mint_tokenId d1)
    ∧ NFT.tokenId n2 = Some (mint_tokenId d2)
    ∧ NFT.contractAddress n2 = Some (mint_contractAddress d2)
    ∧ nft_of (mint_nftId d1) (db st.2) = Some n2
    ∧ transactions (db st.2) = transactions (db w) ++ [t1; t2]
    ∧ mint_transaction user d1 t1
    ∧ mint_transaction user d2 t2.
Proof.
  intros verifyAuth r1 r2 user d1 d2 w.
  apply (concurrent_mints_both_succeed verifyAuth r1 r2 user (sample_mint_body sample_id) sample_second_mint_body d1 d2 w 0%nat (sample_nft false)).
  - reflexivity.
  - reflexivity.
  - reflexivity.
  - vm_compute. reflexivity.
  - reflexivity.
  - vm_compute. reflexivity.
  - reflexivity.
  - vm_compute. reflexivity.
  - reflexivity.
  - reflexivity.
  - vm_compute. discriminate.
  - vm_compute. reflexivity.
  - vm_compute. reflexivity.
Defined.

(** The answer to the creation of the second NFT of the sample gallery. *)
Lemma created_nft_is_validated_witness :
  let verifyAuth : NextRequest -> Prog (option AuthUser.t) := sample_verifyAuth in
  let is_url : string -> bool := λ _, true in
  let trim : string -> string := id in
  let request : NextRequest := sample_nft_request in
  let env : list Env := [] in
  let w : World := sample_gallery false in
  let ov : Outcome (option AuthUser.t) := Returned (Some (AuthUser.mk sample_id)) in
  let w1 : World := sample_gallery false in
  let n : NFT.t := NFT.mk (new_ObjectId (NFT.id <$> nfts (db w))) "Second" None "https://example.org/2.png" ∅ None None false None sample_clock sample_clock sample_id None in
  let x : NFTWithOwner := mkNFTWithOwner n (Some sample_user) None in
  let w' : World := mkWorld (mkDB [sample_user] [sample_nft false; n] [] []) sample_clock in
  ∃ user,
    ov = Returned (Some user)
    ∧ nfts (db w') = nfts (db w1) ++ [nwo_nft x]
    ∧ NFT.ownerId (nwo_nft x) = AuthUser.userId user
    ∧ NFT.name (nwo_nft x) ≠ ""
    ∧ is_url (NFT.image (nwo_nft x)) = true
    ∧ NFT.isMinted (nwo_nft x) = false
    ∧ (∀ s, NFT.collectionId (nwo_nft x) = Some s -> trim s ≠ "").
Proof.
  intros verifyAuth is_url trim request env w ov w1 n x w'.
  apply (created_nft_is_validated verifyAuth is_url trim request env w ov w1 [] x w' [Called (nFT_create (mkNFTCreateData "Second" None "https://example.org/2.png" ∅ sample_id None)) false]).
  - vm_compute. reflexivity.
  - vm_compute. reflexivity.
Defined.

(** The answer to the creation of a collection in the sample gallery. *)
Lemma created_collection_is_validated_witness :
  let verifyAuth : NextRequest -> Prog (option AuthUser.t) := sample_verifyAuth in
  let is_url : string -> bool := λ _, true in
  let request : NextRequest := sample_collection_request in
  let env : list Env := [] in
  let w : World := sample_gallery false in
  let ov : Outcome (option AuthUser.t) := Returned (Some (AuthUser.mk sample_id)) in
  let w1 : World := sample_gallery false in
  let c : Collection.t := Collection.mk (new_ObjectId (Collection.id <$> collections (db w))) "Gallery" None None None true sample_clock sample_clock sample_id in
  let x : CollectionFull := mkCollectionFull c (Some sample_user) [] in
  let w' : World := mkWorld (mkDB [sample_user] [sample_nft false] [c] []) sample_clock in
  ∃ user,
    ov = Returned (Some user)
    ∧ collections (db w') = collections (db w1) ++ [cf_collection x]
    ∧ Collection.ownerId (cf_collection x) = AuthUser.userId user
    ∧ Collection.name (cf_collection x) ≠ ""
    ∧ (∀ s, Collection.image (cf_collection x) = Some s -> is_url s = true)
    ∧ (∀ s, Collection.banner (cf_collection x) = Some s -> is_url s = true).
Proof.
  intros verifyAuth is_url request env w ov w1 c x w'.
  apply (created_collection_is_validated verifyAuth is_url request env w ov w1 [] x w' [Called (collection_create (mkCollectionCreateData "Gallery" None None None (Some true) sample_id)) false]).
  - vm_compute. reflexivity.
  - vm_compute. reflexivity.
Defined.

(** The listings of the owner of the sample gallery, the store failing the call. *)
Lemma GET_routes_write_nothing_witness :
  let verifyAuth : NextRequest -> Prog (option AuthUser.t) := sample_verifyAuth in
  let request : NextRequest := sample_mint_request sample_id sample_id true in
  let env : list Env := [failing] in
  let w : World := sample_gallery false in
  let ov : Outcome (option AuthUser.t) := Returned (Some (AuthUser.mk sample_id)) in
  let w1 : World := sample_gallery false in
  let tr1 : list Event := [] in
  db (run (GET_nfts verifyAuth request) env w).1.2 = db w1
  ∧ db (run (GET_collections verifyAuth request) env w).1.2
    = (if bool_decide (searchParams_get "public" request = Some "true")
       then db w else db w1).
Proof.
  intros verifyAuth request env w ov w1 tr1.
  apply (GET_routes_write_nothing verifyAuth request env w ov w1 tr1).
  - vm_compute. reflexivity.
Defined.

(** The sample mint body is accepted. *)
Lemma mintNFTSchema_accepts_witness :
  mintNFTSchema (sample_mint_body sample_id)
  = inr (mkMintNFTData sample_id "0xabc" "SP000.coremint" "7").
Proof.
  apply (proj2 (mintNFTSchema_accepts (sample_mint_body sample_id)
                  (mkMintNFTData sample_id "0xabc" "SP000.coremint" "7"))).
  eexists. split; [reflexivity|].
  cbn [mint_nftId mint_txHash mint_contractAddress mint_tokenId].
  repeat split; try discriminate; vm_compute; reflexivity.
Defined.

(** The public listing, asked for without a credential. *)
Lemma GET_collections_lists_witness :
  ∃ l w',
    run (GET_collections sample_verifyAuth sample_public_request) [] (sample_gallery false)
    = (Returned (mkResponse (public_collections_body l) 200), w',
       [Called collection_findMany_public false])
    ∧ db w' = db (sample_gallery false)
    ∧ cf_collection <$> l
      ≡ₚ filter (λ c, Collection.isPublic c = true) (collections (db (sample_gallery false)))
    ∧ StronglySorted (not_older Collection.createdAt) (cf_collection <$> l).
Proof.
  apply (proj1 (GET_collections_lists sample_verifyAuth sample_public_request []
                  (sample_gallery false))).
  - vm_compute. reflexivity.
  - apply reachable_nil.
Defined.
